(** * Siloq cannibalization engine: URL utilities, classification, safe-pair
      filter, wrong-winner detection, clustering and the pipeline driver.

    A shallow embedding of [seo/cannibalization/*.py].  Python [str] values
    are lists of characters ([list ascii]): the code points below U+0100.
    Blanks, [lower()] and the word characters of [re] are Python's on all
    of them; [isdigit()] is the test for the decimal digits 0 to 9.
    Sets of tokens are [gset]s; insertion-ordered dictionaries are
    association lists that are updated in place. *)

From Stdlib Require Import ZArith QArith Ascii String DecimalString Lia Sorted.
From stdpp Require Import base decidable option list gmap strings.

Local Open Scope string_scope.
Local Open Scope list_scope.
Local Open Scope nat_scope.

Abbreviation str := (list ascii).
Coercion list_ascii_of_string : string >-> list.

(** ** Python [str] primitives *)

Module Py.

Definition code (c : ascii) : N := N_of_ascii c.

Definition in_range (lo hi : N) (c : ascii) : bool :=
  ((lo <=? code c) && (code c <=? hi))%N.

Definition is_upper : ascii → bool := in_range 65 90.
Definition is_lower : ascii → bool := in_range 97 122.
Definition is_digit : ascii → bool := in_range 48 57.
Definition is_alpha (c : ascii) : bool := is_upper c || is_lower c.

(** [str.isspace] on one character, which is also the class that
    [strip()], [split()] and the pattern [\s] use: TAB, LF, VT, FF, CR, FS,
    GS, RS, US, the blank, NEL (U+0085) and the no-break space (U+00A0). *)
Definition isspace (c : ascii) : bool :=
  in_range 9 13 c || in_range 28 32 c || in_range 133 133 c
  || in_range 160 160 c.

Definition eqc (a b : ascii) : bool := Ascii.eqb a b.

(** The capital letters of Latin-1 besides A to Z: U+00C0 to U+00DE
    without the multiplication sign U+00D7. *)
Definition is_upper_latin1 (c : ascii) : bool :=
  in_range 192 214 c || in_range 216 222 c.

Definition lower_char (c : ascii) : ascii :=
  if is_upper c || is_upper_latin1 c then ascii_of_N (code c + 32) else c.

(** [s.lower()] *)
Definition lower (s : str) : str := map lower_char s.

(** [s.lstrip(chars)], [s.rstrip(chars)] with the stripped class as a test. *)
Fixpoint lstrip_with (P : ascii → bool) (s : str) : str :=
  match s with
  | c :: s' => if P c then lstrip_with P s' else s
  | [] => []
  end.

Definition rstrip_with (P : ascii → bool) (s : str) : str :=
  rev (lstrip_with P (rev s)).

Definition strip_with (P : ascii → bool) (s : str) : str :=
  rstrip_with P (lstrip_with P s).

(** [s.strip()] *)
Definition strip : str → str := strip_with isspace.

(** [c in s] *)
Definition has_char (c : ascii) (s : str) : bool := existsb (eqc c) s.

(** [s.startswith(p)], [s.endswith(p)] *)
Fixpoint startswith (p s : str) : bool :=
  match p, s with
  | [], _ => true
  | a :: p', b :: s' => eqc a b && startswith p' s'
  | _ :: _, [] => false
  end.

Definition endswith (p s : str) : bool := startswith (rev p) (rev s).

(** [sub in s] *)
Fixpoint contains (sub s : str) : bool :=
  startswith sub s ||
  match s with
  | [] => false
  | _ :: s' => contains sub s'
  end.

(** The longest prefix of [s] whose characters all fail [P], and the rest. *)
Fixpoint span_until (P : ascii → bool) (s : str) : str * str :=
  match s with
  | [] => ([], [])
  | c :: s' =>
      if P c then ([], s)
      else let '(a, b) := span_until P s' in (c :: a, b)
  end.

(** [s.partition(c)] when [c] occurs in [s]: the text before the first
    occurrence and the text after it. *)
Definition break_at (c : ascii) (s : str) : option (str * str) :=
  match span_until (eqc c) s with
  | (a, _ :: b) => Some (a, b)
  | (_, []) => None
  end.

(** [s.split(sep)] for a one-character separator class: always at least one
    field, empty fields kept. *)
Fixpoint split_on (P : ascii → bool) (s : str) : list str :=
  match s with
  | [] => [[]]
  | c :: s' =>
      match split_on P s' with
      | w :: ws => if P c then [] :: w :: ws else (c :: w) :: ws
      | [] => [[c]]
      end
  end.

(** [s.split()]: fields separated by runs of blanks, no empty field. *)
Definition split_ws (s : str) : list str :=
  List.filter (fun w => negb (Nat.eqb (length w) 0)) (split_on isspace s).

(** [sep.join(parts)] *)
Fixpoint join (sep : str) (parts : list str) : str :=
  match parts with
  | [] => []
  | [p] => p
  | p :: ps => p ++ sep ++ join sep ps
  end.

(** [s.replace(old, new)] for a non-empty [old]: occurrences are replaced
    left to right without overlap.  [skip] counts the characters of a match
    that is being consumed. *)
Fixpoint replace_from (old new : str) (skip : nat) (s : str) : str :=
  match s with
  | [] => []
  | c :: s' =>
      match skip with
      | S k => replace_from old new k s'
      | O =>
          if startswith old s
          then new ++ replace_from old new (length old - 1) s'
          else c :: replace_from old new 0 s'
      end
  end.

Definition replace (old new s : str) : str := replace_from old new 0 s.

(** [s.isdigit()]: a nonempty string of decimal digits *)
Definition isdigit (s : str) : bool :=
  negb (Nat.eqb (length s) 0) && forallb is_digit s.

(** [int(s)] for a string of decimal digits *)
Definition int_of_digits (s : str) : Z :=
  fold_left (fun acc c => 10 * acc + Z.of_N (code c - 48))%Z s 0%Z.

(** [str(n)] *)
Definition str_of_Z (n : Z) : str :=
  list_ascii_of_string (NilEmpty.string_of_int (Z.to_int n)).

Definition str_eqb (a b : str) : bool := bool_decide (a = b).

(** [x in xs] for a list or a tuple of strings *)
Definition mem (x : str) (xs : list str) : bool := existsb (str_eqb x) xs.

End Py.

Export Py.

(** ** [urllib.parse.urlparse]

    The splitting algorithm of CPython 3.12 ([Lib/urllib/parse.py]).  The
    validation of a bracketed host, which goes through the [ipaddress]
    module, is a parameter; every other step is written out.  [None] stands
    for the [ValueError] that [urlsplit] raises. *)

Module Urllib.

Record ParseResult := mkParseResult {
  scheme : str;
  netloc : str;
  path : str;
  params : str;
  query : str;
  fragment : str
}.

Class BracketCheck := check_bracketed_netloc : str → bool.

(** [_WHATWG_C0_CONTROL_OR_SPACE] *)
Definition is_c0_or_space : ascii → bool := in_range 0 32.

(** [_UNSAFE_URL_BYTES_TO_REMOVE]: TAB, CR, LF *)
Definition is_unsafe (c : ascii) : bool :=
  eqc c "009" || eqc c "010" || eqc c "013".

Definition scheme_chars (c : ascii) : bool :=
  is_alpha c || is_digit c || eqc c "+" || eqc c "-" || eqc c ".".

Definition uses_params : list str :=
  [ [] ; "ftp" : str; "hdl" : str; "prospero" : str; "http" : str;
    "imap" : str; "https" : str; "shttp" : str; "rtsp" : str; "rtspu" : str;
    "sip" : str; "sips" : str; "mms" : str; "sftp" : str; "tel" : str ].

(** The scheme, when the text before the first colon is a scheme name. *)
Definition split_scheme (url : str) : str * str :=
  match break_at ":" url with
  | Some (c :: pre, post) =>
      if is_alpha c && forallb scheme_chars (c :: pre)
      then (lower (c :: pre), post)
      else ([], url)
  | _ => ([], url)
  end.

Definition is_netloc_delim (c : ascii) : bool :=
  eqc c "/" || eqc c "?" || eqc c "#".

(** [_splitnetloc(url, 2)] after a leading double slash. *)
Definition split_netloc (url : str) : str * str :=
  match url with
  | a :: b :: rest =>
      if eqc a "/" && eqc b "/" then span_until is_netloc_delim rest
      else ([], url)
  | _ => ([], url)
  end.

Definition netloc_ok `{BracketCheck} (nl : str) : bool :=
  match has_char "[" nl, has_char "]" nl with
  | true, true => check_bracketed_netloc nl
  | false, false => true
  | _, _ => false
  end.

(** [url.split(c, 1)] when [c] occurs, else the url and an empty field. *)
Definition cut (c : ascii) (url : str) : str * str :=
  match break_at c url with
  | Some (a, b) => (a, b)
  | None => (url, [])
  end.

Definition urlsplit `{BracketCheck} (url0 : str)
  : option (str * str * str * str * str) :=
  let url := lstrip_with is_c0_or_space url0 in
  let url := List.filter (fun c => negb (is_unsafe c)) url in
  let '(sch, url) := split_scheme url in
  let '(nl, url) := split_netloc url in
  if negb (netloc_ok nl) then None
  else
    let '(url, frag) := cut "#" url in
    let '(url, qry) := cut "?" url in
    Some (sch, nl, url, qry, frag).

(** [_splitparams]: the parameters of the last path segment. *)
Definition splitparams (url : str) : str * str :=
  let '(rlast, rhead) := span_until (eqc "/") (rev url) in
  match break_at ";" (rev rlast) with
  | Some (a, b) => (rev rhead ++ a, b)
  | None => (url, [])
  end.

Definition urlparse `{BracketCheck} (url : str) : option ParseResult :=
  match urlsplit url with
  | None => None
  | Some (sch, nl, url, qry, frag) =>
      let '(url, prm) :=
        if mem sch uses_params && has_char ";" url then splitparams url
        else (url, []) in
      Some (mkParseResult sch nl url prm qry frag)
  end.

End Urllib.

Export Urllib.

(** ** [constants.py]

    The module of constant tables is not among the sources: the code is
    verified for every value of the tables. *)

Class Constants := {
  SLUG_STOP_WORDS : gset str;
  LEGACY_SUFFIXES : list str;
  FOLDER_ROOTS : str → list str;
  INTENT_MARKERS : list (str * list str);
  GEO_MODIFIERS : list str;
  BRANDED_QUERY_INDICATORS : list str;
  MIN_IMPRESSIONS_THRESHOLD : Z;
  BUCKET_SCORES : str → option Z;
  SEVERITY_SCORES : str → option Z;
  MAX_CLUSTER_SIZE : nat;
  IMPRESSION_THRESHOLD_HIGH : Z;
  IMPRESSION_THRESHOLD_MEDIUM : Z
}.

(** ** [utils.py] *)

Section Utils.
Context `{BracketCheck} `{Constants}.

Definition is_slash : ascii → bool := eqc "/".
Definition is_dash : ascii → bool := eqc "-".

Definition normalize_full_url (url : str) : str :=
  match url with
  | [] => []
  | _ =>
      match urlparse (strip (lower url)) with
      | Some parsed =>
          let domain := replace "www." [] (netloc parsed) in
          let path := rstrip_with is_slash (Urllib.path parsed) in
          domain ++ path
      | None => strip (lower url)
      end
  end.

Definition normalize_path (url : str) : str :=
  match url with
  | [] => "/"
  | _ =>
      match urlparse (strip url) with
      | Some parsed =>
          let path := lower (Urllib.path parsed) in
          let path :=
            if endswith "/" path && (1 <? length path)%nat
            then rstrip_with is_slash path else path in
          if startswith "/" path then path else "/" ++ path
      | None => "/"
      end
  end.

Definition nonempty (s : str) : bool := negb (Nat.eqb (length s) 0).

Definition get_path_parts (url : str) : list str :=
  let path := normalize_path url in
  List.filter nonempty (split_on is_slash (strip_with is_slash path)).

Definition get_folder_root (url : str) : str :=
  match get_path_parts url with
  | p :: _ => p
  | [] => []
  end.

Definition get_parent_path (url : str) : str :=
  let parts := get_path_parts url in
  if (length parts <=? 1)%nat then "/"
  else "/" ++ join "/" (removelast parts).

Definition get_slug_last (url : str) : str :=
  List.last (get_path_parts url) [].

Definition is_year_token (t : str) : bool :=
  isdigit t && (2015 <=? int_of_digits t)%Z && (int_of_digits t <=? 2030)%Z.

Definition is_sep : ascii → bool := fun c => eqc c "-" || eqc c "_".

Definition extract_slug_tokens (url : str) (remove_stop_words : bool)
  : gset str :=
  let path := normalize_path url in
  let parts := get_path_parts path in
  let tokens : gset str :=
    list_to_set (concat (map (fun part => split_on is_sep (lower part)) parts)) in
  let tokens := filter (fun t => is_year_token t = false) tokens in
  let tokens := filter (fun t => 3 ≤ length t) tokens in
  if remove_stop_words then tokens ∖ SLUG_STOP_WORDS else tokens.

(** The quotient [len(intersection) / len(union)] is kept exact. *)
Definition slug_similarity (url1 url2 : str) : Q :=
  let tokens1 := extract_slug_tokens url1 true in
  let tokens2 := extract_slug_tokens url2 true in
  if bool_decide (tokens1 = ∅) && bool_decide (tokens2 = ∅) then 0%Q
  else
    let intersection := tokens1 ∩ tokens2 in
    let union := tokens1 ∪ tokens2 in
    if bool_decide (union = ∅) then 0%Q
    else (Z.of_nat (size intersection) # Pos.of_nat (size union))%Q.

Definition is_legacy_variant (url : str) : bool :=
  match url with
  | [] => false
  | _ =>
      let slug_last := get_slug_last url in
      existsb (fun suffix => endswith suffix slug_last) LEGACY_SUFFIXES
  end.

(** [s[:-n]]: everything for [n = 0] is cut, as [s[:-0]] is [s[:0]]. *)
Definition drop_tail (n : nat) (s : str) : str :=
  match n with
  | O => []
  | _ => take (length s - n) s
  end.

(** [parts[-1] = x] on a non-empty list *)
Definition set_last (parts : list str) (x : str) : list str :=
  removelast parts ++ [x].

Definition strip_legacy_suffix (url : str) : str :=
  match url with
  | [] => url
  | _ =>
      match get_path_parts url with
      | [] => url
      | parts =>
          let last_slug := List.last parts [] in
          match List.find (fun suffix => endswith suffix last_slug)
                          LEGACY_SUFFIXES with
          | Some suffix =>
              let clean_slug :=
                rstrip_with is_dash (drop_tail (length suffix) last_slug) in
              "/" ++ join "/" (set_last parts clean_slug)
          | None => url
          end
      end
  end.

Definition is_geo_filler (c : ascii) : bool :=
  eqc c "-" || isspace c || eqc c "_".

Definition normalize_geo (slug : str) : str :=
  match slug with
  | [] => []
  | _ => List.filter (fun c => negb (is_geo_filler c)) (strip (lower slug))
  end.

Definition extract_geo_node (url : str) : option str :=
  let parts := get_path_parts url in
  let location_folders : list str :=
    [ "service-area" : str; "service-areas" : str; "locations" : str;
      "location" : str; "city" : str; "cities" : str ] in
  if (2 <=? length parts)%nat && mem (List.hd [] parts) location_folders
  then Some (List.last parts [])
  else None.

Definition is_direct_parent (parent_url child_url : str) : bool :=
  let parent_parts := get_path_parts parent_url in
  let child_parts := get_path_parts child_url in
  if negb (length child_parts =? length parent_parts + 1)%nat then false
  else bool_decide (parent_parts = take (length parent_parts) child_parts).

Definition has_distinct_subtopic (child_url parent_url : str) : bool :=
  let parent_slug := get_slug_last parent_url in
  let child_slug := get_slug_last child_url in
  if negb (nonempty parent_slug) || negb (nonempty child_slug) then false
  else
    let parent_tokens : gset str := list_to_set (split_on is_dash parent_slug) in
    let child_tokens : gset str := list_to_set (split_on is_dash child_slug) in
    if bool_decide (parent_tokens ⊆ child_tokens) then false else true.

Definition extract_service_keyword (url : str) : option str :=
  let parts := get_path_parts url in
  let location_folders : list str :=
    [ "service-area" : str; "service-areas" : str; "locations" : str;
      "location" : str ] in
  let service_folders : list str :=
    [ "service" : str; "services" : str; "residential" : str;
      "commercial" : str ] in
  if (3 <=? length parts)%nat && mem (List.hd [] parts) location_folders
  then Some (List.nth 1 parts [])
  else if (2 <=? length parts)%nat && mem (List.hd [] parts) service_folders
  then Some (List.nth 1 parts [])
  else None.

End Utils.

(** ** Exceptions

    A call returns a value or raises an exception, of which the text is
    kept. *)

Inductive result (A : Type) : Type :=
  | Ok (a : A)
  | Raised (msg : str).
Arguments Ok {A} a.
Arguments Raised {A} msg.

(** ** [seo/models.py]: [class Page]

    The record has the fields of the class and the primary key that Django
    adds.  A foreign key holds the key of its row, a time stamp is a
    number, a column that may be NULL is an option. *)

Module Page.
Record t := mk {
  id : Z;
  site : Z;
  wp_post_id : Z;
  url : str;
  title : str;
  slug : str;
  content : str;
  excerpt : str;
  status : str;
  published_at : option Z;
  modified_at : option Z;
  parent_id : option Z;
  menu_order : Z;
  yoast_title : str;
  yoast_description : str;
  featured_image : str;
  siloq_page_id : option str;
  last_synced_at : Z;
  created_at : Z;
  updated_at : Z
}.

(** A value that a query compares a column with. *)
Inductive value :=
  | VInt (n : Z)
  | VStr (s : str)
  | VBool (b : bool)
  | VNull.

Definition value_eqb (a b : value) : bool :=
  match a, b with
  | VInt x, VInt y => (x =? y)%Z
  | VStr x, VStr y => str_eqb x y
  | VBool x, VBool y => Bool.eqb x y
  | VNull, VNull => true
  | _, _ => false
  end.

Definition nullable {A} (f : A → value) (x : option A) : value :=
  match x with
  | Some a => f a
  | None => VNull
  end.

(** The column that a keyword of [filter] or [exclude] names: a field of
    the class, or none. *)
Definition column (kw : str) : option (t → value) :=
  if str_eqb kw "id" then Some (fun p => VInt (id p))
  else if str_eqb kw "site" then Some (fun p => VInt (site p))
  else if str_eqb kw "wp_post_id" then Some (fun p => VInt (wp_post_id p))
  else if str_eqb kw "url" then Some (fun p => VStr (url p))
  else if str_eqb kw "title" then Some (fun p => VStr (title p))
  else if str_eqb kw "slug" then Some (fun p => VStr (slug p))
  else if str_eqb kw "content" then Some (fun p => VStr (content p))
  else if str_eqb kw "excerpt" then Some (fun p => VStr (excerpt p))
  else if str_eqb kw "status" then Some (fun p => VStr (status p))
  else if str_eqb kw "published_at"
       then Some (fun p => nullable VInt (published_at p))
  else if str_eqb kw "modified_at"
       then Some (fun p => nullable VInt (modified_at p))
  else if str_eqb kw "parent_id" then Some (fun p => nullable VInt (parent_id p))
  else if str_eqb kw "menu_order" then Some (fun p => VInt (menu_order p))
  else if str_eqb kw "yoast_title" then Some (fun p => VStr (yoast_title p))
  else if str_eqb kw "yoast_description"
       then Some (fun p => VStr (yoast_description p))
  else if str_eqb kw "featured_image"
       then Some (fun p => VStr (featured_image p))
  else if str_eqb kw "siloq_page_id"
       then Some (fun p => nullable VStr (siloq_page_id p))
  else if str_eqb kw "last_synced_at"
       then Some (fun p => VInt (last_synced_at p))
  else if str_eqb kw "created_at" then Some (fun p => VInt (created_at p))
  else if str_eqb kw "updated_at" then Some (fun p => VInt (updated_at p))
  else None.
End Page.

(** Django is not among the sources.  A keyword of [filter] or [exclude]
    is resolved when the call is made, and a keyword that names no field
    raises [FieldError]; the text of that error is a parameter. *)
Class Django := field_error : str → str.

Module PageClassification.
Record t := mk {
  page_id : Z;
  url : str;
  title : str;
  normalized_url : str;
  normalized_path : str;
  classified_type : str;
  is_legacy_variant : bool;
  folder_root : str;
  parent_path : str;
  slug_last : str;
  depth : Z;
  geo_node : str;
  service_keyword : str;
  slug_tokens_json : list str
}.
End PageClassification.

Abbreviation PC := PageClassification.t.

(** ** [phase1_ingest.py] *)

Section Phase1.
Context `{BracketCheck} `{Constants}.

Definition _classify_page_type (path : str) (parts : list str) (depth : Z)
    (folder_root : str) (post_type : option str) (is_homepage_flag : bool)
  : str :=
  (* RULE 1: Homepage *)
  if str_eqb path "/" || is_homepage_flag then "homepage"
  (* RULE 2: Location pages *)
  else if mem folder_root (FOLDER_ROOTS "location") then "location"
  (* RULE 3: Blog posts, date pattern then blog folders *)
  else if (3 <=? length parts) && isdigit (List.nth 0 parts [])
          && isdigit (List.nth 1 parts []) then "blog"
  else if mem folder_root (FOLDER_ROOTS "blog") then "blog"
  (* RULE 4: WooCommerce product (from post_type) *)
  else if bool_decide (post_type = Some ("product" : str)) then "product"
  (* RULE 5: WooCommerce category (from post_type) *)
  else if match post_type with
          | Some t => mem t [ "product_cat" : str; "product_category" : str ]
          | None => false
          end then "category_woo"
  (* RULE 6: Shop root (depth 1) *)
  else if str_eqb folder_root "shop" && (depth =? 1)%Z then "shop_root"
  (* RULE 7: Shop category (depth 2) *)
  else if str_eqb folder_root "shop" && (depth =? 2)%Z then "category_shop"
  (* RULE 8: Shop product (depth 3+) *)
  else if str_eqb folder_root "shop" && (3 <=? depth)%Z then "product"
  (* RULE 9: Product index page *)
  else if match parts with
          | [] => false
          | _ => mem (List.last parts []) [ "products" : str; "items" : str ]
          end then "product_index"
  (* RULE 10: Product-category *)
  else if str_eqb folder_root "product-category"
       then (if (3 <=? depth)%Z then "product" else "category_woo")
  (* RULE 11: Custom product rentals category (depth 2) *)
  else if mem folder_root (FOLDER_ROOTS "product_rentals") && (depth =? 2)%Z
       then "category_custom"
  (* RULE 12: Custom product rentals product (depth 3+) *)
  else if mem folder_root (FOLDER_ROOTS "product_rentals") && (3 <=? depth)%Z
       then "product"
  (* RULE 13: Service hub (depth 1) *)
  else if mem folder_root (FOLDER_ROOTS "service") && (depth =? 1)%Z
       then "service_hub"
  (* RULE 14: Service spoke (depth 2+) *)
  else if mem folder_root (FOLDER_ROOTS "service") && (2 <=? depth)%Z
       then "service_spoke"
  (* RULE 15: Portfolio *)
  else if mem folder_root (FOLDER_ROOTS "portfolio") then "portfolio"
  (* RULE 16: Utility pages *)
  else if mem folder_root (FOLDER_ROOTS "utility") then "utility"
  (* RULE 17: Fallback *)
  else "uncategorized".

Definition classify_page (page : Page.t) : option PC :=
  match Page.url page with
  | [] => None
  | url =>
      let normalized_url := normalize_full_url url in
      let normalized_path := normalize_path url in
      let parts := get_path_parts normalized_path in
      let depth := Z.of_nat (length parts) in
      let folder_root := get_folder_root normalized_path in
      let parent_path := get_parent_path normalized_path in
      let slug_last := get_slug_last normalized_path in
      let slug_tokens := elements (extract_slug_tokens normalized_path true) in
      (* [hasattr(page, 'post_type')] and [hasattr(page, 'is_homepage')]
         are false: [class Page] has neither attribute *)
      let classified_type :=
        _classify_page_type normalized_path parts depth folder_root
          None false in
      let is_legacy := is_legacy_variant normalized_path in
      let geo_node :=
        if str_eqb classified_type "location"
        then default [] (extract_geo_node normalized_path) else [] in
      let service_kw := default [] (extract_service_keyword normalized_path) in
      Some (PageClassification.mk (Page.id page) url (Page.title page)
              normalized_url normalized_path classified_type is_legacy
              folder_root parent_path slug_last depth geo_node service_kw
              slug_tokens)
  end.

(** The test that one keyword of [filter(kw=v)] makes on a row. *)
Definition keyword `{Django} (kw : str) (v : Page.value)
  : result (Page.t → bool) :=
  match Page.column kw with
  | Some col => Ok (fun page => Page.value_eqb (col page) v)
  | None => Raised (field_error kw)
  end.

(** [page_objects] are the rows of [Page.objects], in the order of the
    class; [site] is the key of the site.  The query is built by
    [filter(site=site, status='publish')] and [exclude(is_noindex=True)];
    the loop classifies the pages that it yields. *)
Definition run_phase1 `{Django} (page_objects : list Page.t) (site : Z)
  : result (list PC) :=
  match keyword "site" (Page.VInt site),
        keyword "status" (Page.VStr "publish") with
  | Ok of_site, Ok published =>
      match keyword "is_noindex" (Page.VBool true) with
      | Ok noindex =>
          let pages :=
            List.filter (fun pg => of_site pg && published pg
                                   && negb (noindex pg)) page_objects in
          Ok (omap classify_page pages)
      | Raised e => Raised e
      end
  | Raised e, _ => Raised e
  | _, Raised e => Raised e
  end.

End Phase1.

(** ** [phase2_safe_filters.py] *)

(** Insertion-ordered dictionaries: assigning to a present key keeps its
    place, a new key goes last. *)
Section Dict.
Context {K V : Type} `{EqDecision K}.

Fixpoint dict_set (k : K) (v : V) (d : list (K * V)) : list (K * V) :=
  match d with
  | [] => [(k, v)]
  | (k', v') :: d' =>
      if decide (k = k') then (k, v) :: d' else (k', v') :: dict_set k v d'
  end.

Fixpoint dict_get (k : K) (d : list (K * V)) : option V :=
  match d with
  | [] => None
  | (k', v') :: d' => if decide (k = k') then Some v' else dict_get k d'
  end.

End Dict.

Section Phase2.
Context `{BracketCheck} `{Constants}.

Import PageClassification.

Definition _is_legacy_pair (path_a path_b : str) : bool :=
  let clean_a := strip_legacy_suffix path_a in
  let clean_b := strip_legacy_suffix path_b in
  str_eqb clean_a clean_b && negb (str_eqb path_a path_b).

(** [x >= 0.80] on the exact quotient *)
Definition at_least_080 (x : Q) : bool := Qle_bool (80 # 100) x.

Definition _are_product_siblings (page_a page_b : PC) : bool :=
  if negb (str_eqb (classified_type page_a) "product")
     || negb (str_eqb (classified_type page_b) "product") then false
  else if negb (str_eqb (parent_path page_a) (parent_path page_b)) then false
  else if str_eqb (slug_last page_a) (slug_last page_b) then false
  else if (is_legacy_variant page_a || is_legacy_variant page_b)
          && _is_legacy_pair (normalized_path page_a) (normalized_path page_b)
       then false
  else if at_least_080
            (slug_similarity (normalized_path page_a) (normalized_path page_b))
       then false
  else true.

Definition _are_parent_child (page_a page_b : PC) : bool :=
  if is_direct_parent (normalized_path page_a) (normalized_path page_b)
     && has_distinct_subtopic (normalized_path page_b) (normalized_path page_a)
  then true
  else if is_direct_parent (normalized_path page_b) (normalized_path page_a)
          && has_distinct_subtopic (normalized_path page_a)
               (normalized_path page_b)
  then true
  else false.

Definition _are_geographic_variants (page_a page_b : PC) : bool :=
  if negb (str_eqb (classified_type page_a) "location")
     || negb (str_eqb (classified_type page_b) "location") then false
  else if negb (nonempty (geo_node page_a)) || negb (nonempty (geo_node page_b))
       then false
  else
    let geo_a := normalize_geo (geo_node page_a) in
    let geo_b := normalize_geo (geo_node page_b) in
    if str_eqb geo_a geo_b then false else true.

Definition _is_safe_pair (page_a page_b : PC) : bool :=
  if _are_product_siblings page_a page_b then true
  else if _are_parent_child page_a page_b then true
  else if _are_geographic_variants page_a page_b then true
  else false.

(** The pairs [(i, j)], [i < j], of a list in the order of the two loops. *)
Fixpoint pairs_of {A} (l : list A) : list (A * A) :=
  match l with
  | [] => []
  | x :: l' => map (fun y => (x, y)) l' ++ pairs_of l'
  end.

Definition run_phase2 (classifications : list PC) : gset (gset Z) :=
  let page_by_id :=
    fold_left (fun d pc => dict_set (page_id pc) pc d) classifications [] in
  let pages := map snd page_by_id in
  fold_left
    (fun safe_pairs '(page_a, page_b) =>
       if _is_safe_pair page_a page_b
       then safe_pairs ∪ {[ ({[ page_id page_a; page_id page_b ]} : gset Z) ]}
       else safe_pairs)
    (pairs_of pages) ∅.

End Phase2.

(** ** Issues and clusters

    An issue is a dictionary; its [metadata] bag is a record with one
    optional field per key that the code reads or writes. *)

Module Row.
(** A search-console row after [run_phase5] has matched it to a page. *)
Record t := mk {
  query : str;
  page_url : str;
  normalized_url : str;
  page_class : PC;
  clicks : Z;
  impressions : Z;
  position : Q
}.
End Row.

Module Metadata.
Record t := mk {
  legacy_url : option str;
  shared_slug : option str;
  title_template : option str;
  service_keyword : option str;
  query : option str;
  total_impressions : option Z;
  total_clicks : option Z;
  gsc_rows : option (list Row.t);
  query_intent : option str;
  winner_type : option str;
  expected_type : option str;
  impressions : option Z;
  clicks : option Z;
  query_city : option str;
  winner_city : option str;
  correct_city : option str
}.
Definition empty : t :=
  mk None None None None None None None None None None None None None None
     None None.
End Metadata.

Module Issue.
Record t := mk {
  conflict_type : str;
  severity : option str;
  pages : list PC;
  metadata : option Metadata.t;
  gsc_validated : bool
}.
End Issue.

Module GscData.
Record t := mk {
  total_impressions : option Z;
  total_clicks : option Z;
  gsc_rows : option (list Row.t);
  queries : option (list str)
}.
Definition empty : t := mk None None None None.
Definition is_empty (g : t) : bool :=
  match g with
  | mk None None None None => true
  | _ => false
  end.
End GscData.

(** The value that [cluster_map] holds for a key while issues are merged. *)
Module Acc.
Record t := mk {
  issues : list Issue.t;
  pages : list (Z * PC);
  conflict_type : option str;
  bucket : option str;
  badge : option str;
  severity : option str;
  action_code : option str;
  gsc_data : GscData.t
}.
Definition fresh : t := mk [] [] None None None None None GscData.empty.
End Acc.

Module Cluster.
Record t := mk {
  cluster_key : str;
  conflict_type : option str;
  bucket : option str;
  badge : option str;
  severity : option str;
  action_code : option str;
  priority_score : Z;
  page_count : nat;
  pages : list PC;
  gsc_data : option GscData.t;
  recommendation : str
}.
End Cluster.

(** Stable sorting by insertion, as [sorted] and [list.sort] are stable:
    [le x y] says that [x] may stand before [y]. *)
Section Sort.
Context {A : Type} (le : A → A → bool).

Fixpoint insert_by (x : A) (l : list A) : list A :=
  match l with
  | [] => [x]
  | y :: l' => if le x y then x :: l else y :: insert_by x l'
  end.

Definition sort_by (l : list A) : list A := foldr insert_by [] l.

End Sort.

(** ** [phase6_cluster.py] *)

Section Phase6.
Context `{BracketCheck} `{Constants}.

Definition wrong_winner_types : list str :=
  [ "INTENT_MISMATCH" : str; "GEOGRAPHIC_MISMATCH" : str;
    "PAGE_TYPE_MISMATCH" : str; "HOMEPAGE_HOARDING" : str ].

Definition fmt_key (conflict_type rest : str) : str :=
  conflict_type ++ ":" ++ rest.

Definition _generate_cluster_key (issue : Issue.t) : str :=
  let conflict_type := Issue.conflict_type issue in
  let metadata := default Metadata.empty (Issue.metadata issue) in
  if mem conflict_type [ "LEGACY_CLEANUP" : str; "LEGACY_ORPHAN" : str ] then
    let legacy_url := default [] (Metadata.legacy_url metadata) in
    let base_slug := get_slug_last (strip_legacy_suffix legacy_url) in
    fmt_key conflict_type base_slug
  else if str_eqb conflict_type "TAXONOMY_CLASH" then
    fmt_key conflict_type (default ("unknown" : str) (Metadata.shared_slug metadata))
  else if str_eqb conflict_type "LOCATION_BOILERPLATE" then
    fmt_key conflict_type
      (take 50 (default ("unknown" : str) (Metadata.title_template metadata)))
  else if str_eqb conflict_type "CONTEXT_DUPLICATE" then
    fmt_key conflict_type
      (default ("unknown" : str) (Metadata.service_keyword metadata))
  else if str_eqb conflict_type "GSC_CONFIRMED" then
    fmt_key conflict_type (default ("unknown" : str) (Metadata.query metadata))
  else if mem conflict_type wrong_winner_types then
    fmt_key conflict_type (default ("unknown" : str) (Metadata.query metadata))
  else if str_eqb conflict_type "NEAR_DUPLICATE_CONTENT" then
    let page_ids :=
      sort_by Z.leb (map PageClassification.page_id (Issue.pages issue)) in
    fmt_key conflict_type (join "_" (map str_of_Z page_ids))
  else fmt_key conflict_type "default".

Definition _get_bucket (issue : Issue.t) : str :=
  let conflict_type := Issue.conflict_type issue in
  if Issue.gsc_validated issue || startswith "GSC_" conflict_type
  then "SEARCH_CONFLICT"
  else if mem conflict_type wrong_winner_types then "WRONG_WINNER"
  else "SITE_DUPLICATION".

Definition _get_badge (issue : Issue.t) : str :=
  let bucket := _get_bucket issue in
  if str_eqb bucket "SEARCH_CONFLICT" then "CONFIRMED"
  else if str_eqb bucket "WRONG_WINNER" then "WRONG_WINNER"
  else "POTENTIAL".

Definition action_map : list (str * str) :=
  [ ("TAXONOMY_CLASH" : str, "REDIRECT_TO_CANONICAL" : str);
    ("LEGACY_CLEANUP" : str, "REDIRECT_TO_CANONICAL" : str);
    ("LEGACY_ORPHAN" : str, "REVIEW_AND_REDIRECT" : str);
    ("NEAR_DUPLICATE_CONTENT" : str, "REDIRECT_TO_CANONICAL" : str);
    ("CONTEXT_DUPLICATE" : str, "REDIRECT_OR_DIFFERENTIATE" : str);
    ("LOCATION_BOILERPLATE" : str, "REWRITE_LOCAL_EVIDENCE" : str);
    ("GSC_CONFIRMED" : str, "REDIRECT_TO_CANONICAL" : str);
    ("INTENT_MISMATCH" : str, "STRENGTHEN_CORRECT_PAGE" : str);
    ("GEOGRAPHIC_MISMATCH" : str, "REWRITE_LOCAL_EVIDENCE" : str);
    ("PAGE_TYPE_MISMATCH" : str, "STRENGTHEN_CORRECT_PAGE" : str);
    ("HOMEPAGE_HOARDING" : str, "STRENGTHEN_CORRECT_PAGE" : str) ].

Definition _get_action_code (issue : Issue.t) : str :=
  default ("REVIEW_AND_REDIRECT" : str)
    (dict_get (Issue.conflict_type issue) action_map).

Definition _severity_rank (severity : str) : Z :=
  default 0%Z
    (dict_get severity
       [ ("SEVERE" : str, 4%Z); ("HIGH" : str, 3%Z); ("MEDIUM" : str, 2%Z);
         ("LOW" : str, 1%Z) ]).

Definition _calculate_priority (bucket severity : option str)
    (impressions : Z) : Z :=
  let bucket_score := default 0%Z (bucket ≫= BUCKET_SCORES) in
  let severity_score := default 0%Z (severity ≫= SEVERITY_SCORES) in
  let impression_score :=
    if (IMPRESSION_THRESHOLD_HIGH <=? impressions)%Z then 20%Z
    else if (IMPRESSION_THRESHOLD_MEDIUM <=? impressions)%Z then 10%Z
    else if (0 <? impressions)%Z then 5%Z
    else 0%Z in
  (bucket_score + severity_score + impression_score)%Z.

(** [folder_groups[page.folder_root].append(page)] *)
Definition group_append (d : list (str * list PC)) (page : PC)
  : list (str * list PC) :=
  let k := PageClassification.folder_root page in
  dict_set k (default [] (dict_get k d) ++ [page]) d.

Definition folder_groups (pages : list PC) : list (str * list PC) :=
  fold_left group_append pages [].

(** [max(groups, key=len)]: the first group of maximal length. *)
Definition max_by_len (groups : list (list PC)) : list PC :=
  match groups with
  | [] => []
  | g :: gs =>
      fold_left (fun best g' => if length best <? length g' then g' else best)
        gs g
  end.

Definition _split_large_cluster (pages : list PC) (cluster_key : str)
  : list PC :=
  let groups := folder_groups pages in
  let largest_group := max_by_len (map snd groups) in
  if (1 <? length groups) && (length largest_group <=? MAX_CLUSTER_SIZE)
  then take MAX_CLUSTER_SIZE largest_group
  else take MAX_CLUSTER_SIZE pages.

Definition pages_phrase (n : nat) (before after : str) : str :=
  before ++ str_of_Z (Z.of_nat n) ++ after.

Definition _generate_recommendation (cluster : Acc.t) : str :=
  let page_count := length (Acc.pages cluster) in
  let conflict_type := default [] (Acc.conflict_type cluster) in
  if str_eqb conflict_type "TAXONOMY_CLASH" then
    pages_phrase page_count "Choose ONE canonical folder structure for these "
      " pages. Redirect duplicates via 301."
  else if str_eqb conflict_type "LEGACY_CLEANUP" then
    pages_phrase page_count "Redirect "
      " legacy pages to their clean versions via 301."
  else if str_eqb conflict_type "LEGACY_ORPHAN" then
    pages_phrase page_count "Review "
      " orphaned legacy pages. Either redirect to a current page or update the URL."
  else if str_eqb conflict_type "NEAR_DUPLICATE_CONTENT" then
    pages_phrase page_count "Consolidate "
      " near-duplicate pages. Choose canonical, redirect others."
  else if str_eqb conflict_type "CONTEXT_DUPLICATE" then
    pages_phrase page_count "Either merge "
      " duplicate service pages or differentiate with unique content (70%+ different)."
  else if str_eqb conflict_type "LOCATION_BOILERPLATE" then
    pages_phrase page_count "Rewrite "
      " location pages with unique local evidence: venue names, local reviews, neighborhood photos."
  else if str_eqb conflict_type "GSC_CONFIRMED" then
    pages_phrase page_count "Google sees "
      " pages competing for the same query. Consolidate or canonicalize."
  else if str_eqb conflict_type "INTENT_MISMATCH" then
    "De-optimize blog for this commercial keyword. Strengthen the correct page."
  else if str_eqb conflict_type "GEOGRAPHIC_MISMATCH" then
    "Add unique local evidence to the correct location page. Prune city mentions from wrong page."
  else if str_eqb conflict_type "PAGE_TYPE_MISMATCH" then
    "Strengthen the category page. De-optimize product page for generic keywords."
  else if str_eqb conflict_type "HOMEPAGE_HOARDING" then
    "Remove service content from homepage. Add clear link from homepage to service page."
  else pages_phrase page_count "Review and resolve " " conflicting pages.".

Definition merge_gsc (g : GscData.t) (meta : Metadata.t) : GscData.t :=
  let g :=
    match Metadata.total_impressions meta with
    | Some n =>
        GscData.mk (Some (default 0 (GscData.total_impressions g) + n)%Z)
          (GscData.total_clicks g) (GscData.gsc_rows g) (GscData.queries g)
    | None => g
    end in
  let g :=
    match Metadata.total_clicks meta with
    | Some n =>
        GscData.mk (GscData.total_impressions g)
          (Some (default 0 (GscData.total_clicks g) + n)%Z)
          (GscData.gsc_rows g) (GscData.queries g)
    | None => g
    end in
  let g :=
    match Metadata.gsc_rows meta with
    | Some rows =>
        GscData.mk (GscData.total_impressions g) (GscData.total_clicks g)
          (Some (default [] (GscData.gsc_rows g) ++ rows)) (GscData.queries g)
    | None => g
    end in
  match Metadata.query meta with
  | Some q =>
      GscData.mk (GscData.total_impressions g) (GscData.total_clicks g)
        (GscData.gsc_rows g) (Some (default [] (GscData.queries g) ++ [q]))
  | None => g
  end.

(** One turn of the merging loop on the cluster that the key selects. *)
Definition merge_issue (cluster : Acc.t) (issue : Issue.t) : Acc.t :=
  let issues := Acc.issues cluster ++ [issue] in
  let '(ct, bucket, badge, action) :=
    match Acc.conflict_type cluster with
    | None =>
        (Some (Issue.conflict_type issue), Some (_get_bucket issue),
         Some (_get_badge issue), Some (_get_action_code issue))
    | Some _ =>
        (Acc.conflict_type cluster, Acc.bucket cluster, Acc.badge cluster,
         Acc.action_code cluster)
    end in
  let issue_severity := default ("LOW" : str) (Issue.severity issue) in
  let severity :=
    match Acc.severity cluster with
    | None => Some issue_severity
    | Some s =>
        if (_severity_rank s <? _severity_rank issue_severity)%Z
        then Some issue_severity else Some s
    end in
  let pages :=
    fold_left (fun d page => dict_set (PageClassification.page_id page) page d)
      (Issue.pages issue) (Acc.pages cluster) in
  let gsc_data :=
    match Issue.metadata issue with
    | Some meta => merge_gsc (Acc.gsc_data cluster) meta
    | None => Acc.gsc_data cluster
    end in
  Acc.mk issues pages ct bucket badge severity action gsc_data.

Definition cluster_step (cluster_map : list (str * Acc.t)) (issue : Issue.t)
  : list (str * Acc.t) :=
  let cluster_key := _generate_cluster_key issue in
  let cluster := default Acc.fresh (dict_get cluster_key cluster_map) in
  dict_set cluster_key (merge_issue cluster issue) cluster_map.

Definition build_cluster (cluster_key : str) (cluster : Acc.t) : Cluster.t :=
  let all_pages := map snd (Acc.pages cluster) in
  let all_pages :=
    if MAX_CLUSTER_SIZE <? length all_pages
    then _split_large_cluster all_pages cluster_key else all_pages in
  let priority_score :=
    _calculate_priority (Acc.bucket cluster) (Acc.severity cluster)
      (default 0%Z (GscData.total_impressions (Acc.gsc_data cluster))) in
  Cluster.mk cluster_key (Acc.conflict_type cluster) (Acc.bucket cluster)
    (Acc.badge cluster) (Acc.severity cluster) (Acc.action_code cluster)
    priority_score (length all_pages) all_pages
    (if GscData.is_empty (Acc.gsc_data cluster) then None
     else Some (Acc.gsc_data cluster))
    (_generate_recommendation cluster).

Definition bucket_rank (c : Cluster.t) : Z :=
  if bool_decide (Cluster.bucket c = Some ("SEARCH_CONFLICT" : str)) then 0
  else if bool_decide (Cluster.bucket c = Some ("SITE_DUPLICATION" : str))
       then 1 else 2.

(** The order of the keys [(bucket_rank, -priority_score)]. *)
Definition cluster_le (x y : Cluster.t) : bool :=
  (bucket_rank x <? bucket_rank y)%Z
  || ((bucket_rank x =? bucket_rank y)%Z
      && (- Cluster.priority_score x <=? - Cluster.priority_score y)%Z).

Definition run_phase6 (all_issues : list Issue.t) : list Cluster.t :=
  match all_issues with
  | [] => []
  | _ =>
      let cluster_map := fold_left cluster_step all_issues [] in
      let clustered_issues :=
        map (fun '(k, c) => build_cluster k c) cluster_map in
      sort_by cluster_le clustered_issues
  end.

End Phase6.

(** ** Query helpers of [utils.py] *)

Section Queries.
Context `{Constants}.

(** The separator class of the title pattern: a bar, a hyphen or an en
    dash (here its three UTF-8 bytes). *)
Definition en_dash : str := [ "226"%char; "128"%char; "147"%char ].

Definition after_title_sep (s : str) : option str :=
  match s with
  | c :: s' =>
      if eqc c "|" || eqc c "-" then Some s'
      else if startswith en_dash s then Some (drop 3 s)
      else None
  | [] => None
  end.

(** A match of [\s+[|-–]\s+] starts at the head of [s]. *)
Definition title_sep_here (s : str) : bool :=
  match s with
  | c :: _ =>
      isspace c &&
      match after_title_sep (lstrip_with isspace s) with
      | Some (d :: _) => isspace d
      | _ => false
      end
  | [] => false
  end.

(** [re.split(pattern, title)[0]] *)
Fixpoint title_first_part (s : str) : str :=
  match s with
  | [] => []
  | c :: s' => if title_sep_here s then [] else c :: title_first_part s'
  end.

Definition is_branded_query (query : str) (brand_name homepage_title : option str)
  : bool :=
  match query with
  | [] => false
  | _ =>
      let query_lower := lower query in
      if match brand_name with
         | Some (b :: bn) => contains (lower (b :: bn)) query_lower
         | _ => false
         end then true
      else if match homepage_title with
              | Some (t :: ht) =>
                  let part := title_first_part (t :: ht) in
                  (3 <? length part) && contains (lower (strip part)) query_lower
              | _ => false
              end then true
      else existsb (fun indicator => contains indicator query_lower)
             BRANDED_QUERY_INDICATORS
  end.

Definition classify_query_intent (query : str) : str * bool :=
  let query_lower := lower query in
  let has_local := existsb (fun geo => contains geo query_lower) GEO_MODIFIERS in
  let hit :=
    List.find
      (fun '(intent, markers) =>
         existsb (fun marker => contains marker query_lower) markers)
      INTENT_MARKERS in
  match hit with
  | Some (intent, _) => (intent, has_local)
  | None => ("ambiguous" : str, has_local)
  end.

Definition is_plural_query (query : str) : bool :=
  match query with
  | [] => false
  | _ =>
      match split_ws (lower query) with
      | [] => false
      | words =>
          let last_word := List.last words [] in
          endswith "s" last_word
          && negb (endswith "ss" last_word || endswith "us" last_word
                   || endswith "is" last_word)
      end
  end.

End Queries.

(** ** [phase5_wrong_winner.py] *)

Section Phase5.
Context `{BracketCheck} `{Constants}.

Definition _has_query_overlap (query : str) (page : PC) : bool :=
  let query_words : gset str := list_to_set (split_ws (lower query)) in
  let query_words := query_words ∖ SLUG_STOP_WORDS in
  let page_tokens : gset str :=
    list_to_set (PageClassification.slug_tokens_json page) in
  let overlap := query_words ∩ page_tokens in
  0 <? size overlap.

(** A word character of [re]: [\w] on the code points below U+0100. *)
Definition is_word (c : ascii) : bool :=
  is_alpha c || is_digit c || eqc c "_"
  || in_range 170 170 c || in_range 178 179 c || in_range 181 181 c
  || in_range 185 186 c || in_range 188 190 c || in_range 192 214 c
  || in_range 216 246 c || in_range 248 255 c.

(** The group that [\s+([a-z]+(?:\s+[a-z]+)?)] captures at the head of
    [s], if the pattern matches there. *)
Definition capture_city (s : str) : option str :=
  let rest := lstrip_with isspace s in
  if length rest <? length s then
    match span_until (fun c => negb (is_lower c)) rest with
    | ([], _) => None
    | (w1, rest1) =>
        let rest2 := lstrip_with isspace rest1 in
        let blanks := take (length rest1 - length rest2) rest1 in
        match blanks, span_until (fun c => negb (is_lower c)) rest2 with
        | _ :: _, (c :: w2, _) => Some (w1 ++ blanks ++ c :: w2)
        | _, _ => Some w1
        end
    end
  else None.

(** [re.search] for a keyword at a word boundary followed by the city
    group: the leftmost match.  [prev_word] tells whether the character
    before the head of [s] is a word character. *)
Fixpoint search_city (kw : str) (prev_word : bool) (s : str) : option str :=
  match s with
  | [] => None
  | c :: s' =>
      match (if negb prev_word && startswith kw s
             then capture_city (drop (length kw) s) else None) with
      | Some g => Some g
      | None => search_city kw (is_word c) s'
      end
  end.

Definition _extract_city_from_query (query : str) : option str :=
  let query_lower := lower query in
  match search_city "in" false query_lower with
  | Some g => Some (strip g)
  | None =>
      match search_city "near" false query_lower with
      | Some g => Some (strip g)
      | None => None
      end
  end.

Definition type_in (page : PC) (types : list str) : bool :=
  mem (PageClassification.classified_type page) types.

Definition p5_metadata (query : str) (intent winner_type expected : option str)
    (winner : Row.t) (qcity wcity ccity : option str) : Metadata.t :=
  Metadata.mk None None None None (Some query) None None None
    intent winner_type expected
    (Some (Row.impressions winner)) (Some (Row.clicks winner))
    qcity wcity ccity.

(** The four checks of [_detect_wrong_winner], one definition per block of
    the source.  MISMATCH 1: a blog page wins a transactional query. *)
Definition detect_intent_mismatch (query : str) (winner : Row.t)
    (classifications : list PC) : option Issue.t :=
  let winner_page := Row.page_class winner in
  let query_intent := (classify_query_intent query).1 in
  if str_eqb query_intent "transactional"
     && type_in winner_page [ "blog" : str ] then
    let better_pages :=
      List.filter
        (fun pc =>
           type_in pc [ "category_woo" : str; "category_shop" : str;
                        "category_custom" : str; "service_hub" : str;
                        "service_spoke" : str; "product" : str ]
           && _has_query_overlap query pc) classifications in
    match better_pages with
    | [] => None
    | _ =>
        Some (Issue.mk "INTENT_MISMATCH" (Some ("MEDIUM" : str))
                (winner_page :: take 2 better_pages)
                (Some (p5_metadata query (Some query_intent)
                         (Some (PageClassification.classified_type winner_page))
                         (Some ("category or service" : str)) winner
                         None None None))
                false)
    end
  else None.

(** MISMATCH 2: a product page wins a plural query. *)
Definition detect_page_type_mismatch (query : str) (winner : Row.t)
    (classifications : list PC) : option Issue.t :=
  let winner_page := Row.page_class winner in
  if is_plural_query query
     && str_eqb (PageClassification.classified_type winner_page) "product" then
    let category_pages :=
      List.filter
        (fun pc =>
           type_in pc [ "category_woo" : str; "category_shop" : str;
                        "category_custom" : str ]
           && _has_query_overlap query pc) classifications in
    match category_pages with
    | [] => None
    | _ =>
        Some (Issue.mk "PAGE_TYPE_MISMATCH" (Some ("MEDIUM" : str))
                (winner_page :: take 1 category_pages)
                (Some (p5_metadata query None (Some ("product" : str))
                         (Some ("category" : str)) winner None None None))
                false)
    end
  else None.

(** MISMATCH 3: the homepage wins a query that a specific page covers. *)
Definition detect_homepage_hoarding (query : str) (winner : Row.t)
    (classifications : list PC) : option Issue.t :=
  let winner_page := Row.page_class winner in
  if str_eqb (PageClassification.classified_type winner_page) "homepage" then
    let specific_pages :=
      List.filter
        (fun pc =>
           type_in pc [ "service_hub" : str; "service_spoke" : str;
                        "product" : str; "category_woo" : str;
                        "category_shop" : str ]
           && _has_query_overlap query pc) classifications in
    match specific_pages with
    | [] => None
    | first :: _ =>
        Some (Issue.mk "HOMEPAGE_HOARDING" (Some ("MEDIUM" : str))
                (winner_page :: take 2 specific_pages)
                (Some (p5_metadata query None (Some ("homepage" : str))
                         (Some (PageClassification.classified_type first))
                         winner None None None))
                false)
    end
  else None.

(** MISMATCH 4: the location page of another city wins a local query. *)
Definition detect_geographic_mismatch (query : str) (winner : Row.t)
    (classifications : list PC) : option Issue.t :=
  let winner_page := Row.page_class winner in
  let has_local := (classify_query_intent query).2 in
  if has_local
     && str_eqb (PageClassification.classified_type winner_page) "location" then
    match _extract_city_from_query query with
    | Some (q :: qc) =>
        let query_city := q :: qc in
        let query_city_norm := normalize_geo query_city in
        let winner_city_norm :=
          normalize_geo (PageClassification.geo_node winner_page) in
        if nonempty query_city_norm && nonempty winner_city_norm
           && negb (str_eqb query_city_norm winner_city_norm) then
          let correct_pages :=
            List.filter
              (fun pc =>
                 str_eqb (PageClassification.classified_type pc) "location"
                 && str_eqb (normalize_geo (PageClassification.geo_node pc))
                      query_city_norm) classifications in
          match correct_pages with
          | [] => None
          | correct :: _ =>
              Some (Issue.mk "GEOGRAPHIC_MISMATCH" (Some ("HIGH" : str))
                      [winner_page; correct]
                      (Some (p5_metadata query None None None winner
                               (Some query_city)
                               (Some (PageClassification.geo_node winner_page))
                               (Some (PageClassification.geo_node correct))))
                      false)
          end
        else None
    | _ => None
    end
  else None.

(** The four checks in the order of the source; the first that reports an
    issue returns it. *)
Definition _detect_wrong_winner (query : str) (winner : Row.t)
    (all_rows : list Row.t) (classifications : list PC) : option Issue.t :=
  match detect_intent_mismatch query winner classifications with
  | Some issue => Some issue
  | None =>
  match detect_page_type_mismatch query winner classifications with
  | Some issue => Some issue
  | None =>
  match detect_homepage_hoarding query winner classifications with
  | Some issue => Some issue
  | None => detect_geographic_mismatch query winner classifications
  end end end.

(** A raw search-console row; an absent key reads as the empty string or
    zero. *)
Record RawRow := mkRawRow {
  raw_query : str;
  raw_page : str;
  raw_clicks : Z;
  raw_impressions : Z;
  raw_position : Q
}.

(** [url_to_page.get(normalized)]: the dictionary keeps the last
    classification of a normalized URL. *)
Definition url_to_page (classifications : list PC) (normalized : str)
  : option PC :=
  List.find (fun pc => str_eqb (PageClassification.normalized_url pc) normalized)
    (rev classifications).

Definition group_row (groups : list (str * list Row.t)) (row : RawRow)
    (classifications : list PC) (brand_name homepage_title : option str)
  : list (str * list Row.t) :=
  let query := lower (strip (raw_query row)) in
  let page_url := strip (raw_page row) in
  if (raw_impressions row <? MIN_IMPRESSIONS_THRESHOLD)%Z then groups
  else if is_branded_query query brand_name homepage_title then groups
  else
    let normalized := normalize_full_url page_url in
    match url_to_page classifications normalized with
    | None => groups
    | Some page_class =>
        dict_set query
          (default [] (dict_get query groups)
           ++ [Row.mk query page_url normalized page_class (raw_clicks row)
                 (raw_impressions row) (raw_position row)])
          groups
    end.

(** [sorted(rows, key=impressions, reverse=True)] *)
Definition by_impressions_desc (x y : Row.t) : bool :=
  (Row.impressions y <=? Row.impressions x)%Z.

(** The rows that pass the filters, grouped by query in the order in
    which the queries first occur. *)
Definition query_groups (classifications : list PC) (gsc_data : list RawRow)
    (brand_name homepage_title : option str) : list (str * list Row.t) :=
  fold_left
    (fun groups row =>
       group_row groups row classifications brand_name homepage_title)
    gsc_data [].

(** The analysis of one query: [winner = rows[0]] after the sort. *)
Definition analyze_query (classifications : list PC)
    (group : str * list Row.t) : option Issue.t :=
  let '(query, rows) := group in
  let rows := sort_by by_impressions_desc rows in
  match rows with
  | winner :: _ => _detect_wrong_winner query winner rows classifications
  | [] => None
  end.

Definition run_phase5 (classifications : list PC) (gsc_data : list RawRow)
    (brand_name homepage_title : option str) : list Issue.t :=
  match gsc_data with
  | [] => []
  | _ =>
      omap (analyze_query classifications)
        (query_groups classifications gsc_data brand_name homepage_title)
  end.

End Phase5.

(** ** Phase 4, traffic validation

    [phase4_gsc_validate.py] is not among the sources; its tests are.  The
    two functions that the tests call are modelled from the section of the
    specification on traffic validation, with exact shares. *)

Module Phase4.

(** A matched row together with its share of the impressions of its
    query. *)
Record SharedRow := mkShared {
  row : Row.t;
  share : Q
}.

Definition sum_Z (l : list Z) : Z := fold_right Z.add 0%Z l.

(** [x >= t] on exact shares *)
Definition at_least (t x : Q) : bool := Qle_bool t x.

(** Modelled from the spec: the severity rule of [phase4_gsc_validate.py],
    which is missing, read on the shares of the rows in their order: SEVERE
    if at least three rows have a share of 0.10 or more, else HIGH if the
    share of the second row is 0.35 or more, else MEDIUM if it lies in
    [0.15, 0.35), else LOW. *)
Definition _calculate_severity (shares : list Q) : str :=
  let secondary := List.nth 1 shares 0%Q in
  if 3 <=? length (List.filter (at_least (10 # 100)) shares) then "SEVERE"
  else if at_least (35 # 100) secondary then "HIGH"
  else if at_least (15 # 100) secondary then "MEDIUM"
  else "LOW".

(** Modelled from the spec: the shares of a query of the missing
    [phase4_gsc_validate.py].  Rows are sorted by impressions, largest
    first, and each share is the row's part of the impressions of the
    query. *)
Definition with_shares (rows : list Row.t) : list SharedRow :=
  let rows := sort_by by_impressions_desc rows in
  let total_impressions := sum_Z (map Row.impressions rows) in
  map (fun r =>
         mkShared r (inject_Z (Row.impressions r) / inject_Z total_impressions)%Q)
    rows.

(** Modelled from the spec: the noise filter of the missing
    [phase4_gsc_validate.py]: a row with a share below 0.05 and no click. *)
Definition is_noise (r : SharedRow) : bool :=
  negb (at_least (5 # 100) (share r)) && (Row.clicks (row r) =? 0)%Z.

(** Modelled from the spec: the rows of a query that survive the noise
    filter of the missing [phase4_gsc_validate.py]; the shares are not
    computed again. *)
Definition surviving (rows : list Row.t) : list SharedRow :=
  List.filter (fun r => negb (is_noise r)) (with_shares rows).

(** Modelled from the spec: the per-query analysis of the missing
    [phase4_gsc_validate.py].  With fewer than two surviving rows, or a top
    share of 0.85 or more, nothing is reported; otherwise a second share of
    0.15 or more gives a GSC_CONFIRMED issue over the surviving pages, with
    the query, the totals and the rows in its metadata. *)
Definition _analyze_query_group (query : str) (rows : list Row.t)
  : option Issue.t :=
  let survivors := surviving rows in
  let shares := map share survivors in
  if (length survivors <? 2) || at_least (85 # 100) (List.nth 0 shares 0%Q)
  then None
  else if at_least (15 # 100) (List.nth 1 shares 0%Q) then
    Some (Issue.mk "GSC_CONFIRMED"
            (Some (_calculate_severity shares))
            (map (fun r => Row.page_class (row r)) survivors)
            (Some (Metadata.mk None None None None (Some query)
                     (Some (sum_Z (map Row.impressions rows)))
                     (Some (sum_Z (map Row.clicks rows)))
                     (Some (map row survivors))
                     None None None None None None None None))
            false)
  else None.

End Phase4.

(** ** [pipeline.py]

    The run object is mutated while the phases execute and an exception
    leaves it as it was when raised: the body of [run_analysis] is written
    in a state-and-exception monad over the run.  Time stamps are kept as
    day numbers.  The modules of phases 3, 4 and 7 and the search-console
    integration are not among the sources: they are collaborators that
    return a value or raise. *)

Module Site.
Record t := mk {
  id : Z;
  name : str;
  brand_name : option str
}.
End Site.

Module ClusterResult.
Record t := mk {
  cluster_key : str;
  bucket : option str;
  badge : option str;
  conflict_type : option str;
  severity : option str;
  action_code : option str;
  priority_score : Z;
  page_count : nat;
  pages_json : list (Z * str * str * str * str);
  gsc_query : str;
  gsc_total_impressions : Z;
  gsc_total_clicks : Z;
  gsc_data_json : GscData.t;
  recommendation : str;
  suggested_canonical_url : str
}.
End ClusterResult.

Module AnalysisRun.
Record t := mk {
  site : Z;
  status : str;
  gsc_connected : bool;
  gsc_date_start : option Z;
  gsc_date_end : option Z;
  total_pages_analyzed : Z;
  total_clusters_found : Z;
  search_conflict_count : Z;
  site_duplication_count : Z;
  wrong_winner_count : Z;
  confirmed_count : Z;
  potential_count : Z;
  wrong_winner_badge_count : Z;
  error_message : str;
  clusters : list ClusterResult.t
}.

(** [AnalysisRun.objects.create(site=, status=, gsc_connected=)] *)
Definition create (site : Z) (status : str) (gsc_connected : bool) : t :=
  mk site status gsc_connected None None 0 0 0 0 0 0 0 0 [] [].

Definition mark_completed (r : t) : t :=
  mk (site r) "completed" (gsc_connected r) (gsc_date_start r)
     (gsc_date_end r) (total_pages_analyzed r) (total_clusters_found r)
     (search_conflict_count r) (site_duplication_count r)
     (wrong_winner_count r) (confirmed_count r) (potential_count r)
     (wrong_winner_badge_count r) (error_message r) (clusters r).

Definition mark_failed (error_msg : str) (r : t) : t :=
  mk (site r) "failed" (gsc_connected r) (gsc_date_start r)
     (gsc_date_end r) (total_pages_analyzed r) (total_clusters_found r)
     (search_conflict_count r) (site_duplication_count r)
     (wrong_winner_count r) (confirmed_count r) (potential_count r)
     (wrong_winner_badge_count r) error_msg (clusters r).

Definition set_total_pages (n : Z) (r : t) : t :=
  mk (site r) (status r) (gsc_connected r) (gsc_date_start r)
     (gsc_date_end r) n (total_clusters_found r)
     (search_conflict_count r) (site_duplication_count r)
     (wrong_winner_count r) (confirmed_count r) (potential_count r)
     (wrong_winner_badge_count r) (error_message r) (clusters r).

Definition set_gsc_dates (start_date end_date : Z) (r : t) : t :=
  mk (site r) (status r) (gsc_connected r) (Some start_date)
     (Some end_date) (total_pages_analyzed r) (total_clusters_found r)
     (search_conflict_count r) (site_duplication_count r)
     (wrong_winner_count r) (confirmed_count r) (potential_count r)
     (wrong_winner_badge_count r) (error_message r) (clusters r).

Definition set_results (cs : list ClusterResult.t) (sc sd ww cf pt wb : Z)
    (r : t) : t :=
  mk (site r) (status r) (gsc_connected r) (gsc_date_start r)
     (gsc_date_end r) (total_pages_analyzed r) (Z.of_nat (length cs))
     sc sd ww cf pt wb (error_message r) cs.
End AnalysisRun.

(** The search-console integration: the module may be missing
    ([ImportError]); the call returns rows or raises. *)
Inductive GscService :=
  | GscNotInstalled
  | GscInstalled (get_gsc_data : Site.t → Z → Z → result (list RawRow)).

Class Collaborators := {
  lookup_site : Z → option Site.t;
  page_objects : list Page.t;
  today : Z;
  gsc_service : GscService;
  run_phase3 : list PC → gset (gset Z) → result (list Issue.t);
  run_phase4 : list PC → list RawRow → str → str → result (list Issue.t);
  upgrade_static_issues : list Issue.t → list Issue.t → result (list Issue.t);
  run_phase7 : list Cluster.t → result unit;
  _suggest_canonical : list PC → Cluster.t → result (option PC)
}.

Inductive outcome :=
  | Returned (run : AnalysisRun.t)
  | Raises (msg : str) (run : option AnalysisRun.t).

Section Pipeline.
Context `{BracketCheck} `{Constants} `{Django} `{Collaborators}.

Definition M (A : Type) : Type := AnalysisRun.t → result A * AnalysisRun.t.

#[local] Instance M_ret : MRet M := fun A a r => (Ok a, r).
#[local] Instance M_bind : MBind M := fun A B k m r =>
  match m r with
  | (Ok a, r') => k a r'
  | (Raised msg, r') => (Raised msg, r')
  end.

Definition lift {A} (x : result A) : M A := fun r => (x, r).
Definition update (f : AnalysisRun.t → AnalysisRun.t) : M unit :=
  fun r => (Ok tt, f r).

Fixpoint mapM {A B} (f : A → M B) (l : list A) : M (list B) :=
  match l with
  | [] => mret []
  | x :: l' => y ← f x; ys ← mapM f l'; mret (y :: ys)
  end.

Definition _fetch_gsc_data (site : Site.t) (days : Z) : list RawRow :=
  match gsc_service with
  | GscNotInstalled => []
  | GscInstalled get_gsc_data =>
      let end_date := today in
      let start_date := (end_date - days)%Z in
      match get_gsc_data site start_date end_date with
      | Ok gsc_data => gsc_data
      | Raised _ => []
      end
  end.

Definition _get_brand_name (site : Site.t) : str :=
  match Site.brand_name site with
  | Some (b :: bn) => b :: bn
  | _ => Site.name site
  end.

(** [Page.objects.filter(site=site, is_homepage=True).first()] inside
    [try]: an exception is swallowed and the empty string returned. *)
Definition _get_homepage_title (site : Site.t) : str :=
  match keyword "is_homepage" (Page.VBool true),
        keyword "site" (Page.VInt (Site.id site)) with
  | Ok is_home, Ok of_site =>
      match List.find (fun pg => is_home pg && of_site pg) page_objects with
      | Some homepage => Page.title homepage
      | None => []
      end
  | _, _ => []
  end.

Definition count_where (f : Cluster.t → bool) (l : list Cluster.t) : Z :=
  Z.of_nat (length (List.filter f l)).

Definition has_bucket (b : str) (c : Cluster.t) : bool :=
  bool_decide (Cluster.bucket c = Some b).
Definition has_badge (b : str) (c : Cluster.t) : bool :=
  bool_decide (Cluster.badge c = Some b).

Definition cluster_object (cluster : Cluster.t) : M ClusterResult.t :=
  let pages_json :=
    map (fun page =>
           (PageClassification.page_id page, PageClassification.url page,
            PageClassification.title page,
            PageClassification.classified_type page,
            PageClassification.normalized_path page))
      (Cluster.pages cluster) in
  let '(gsc_query, gsc_total_imps, gsc_total_clicks, gsc_data_json) :=
    match Cluster.gsc_data cluster with
    | Some g =>
        (match GscData.queries g with
         | Some (q :: _) => q
         | _ => []
         end,
         default 0%Z (GscData.total_impressions g),
         default 0%Z (GscData.total_clicks g), g)
    | None => ([], 0%Z, 0%Z, GscData.empty)
    end in
  suggested_canonical ←
    (if bool_decide (Cluster.action_code cluster
                     = Some ("REDIRECT_TO_CANONICAL" : str))
        || bool_decide (Cluster.action_code cluster
                        = Some ("REDIRECT_OR_DIFFERENTIATE" : str))
     then
       canonical_page ← lift (_suggest_canonical (Cluster.pages cluster) cluster);
       mret (match canonical_page with
             | Some page => PageClassification.url page
             | None => []
             end)
     else mret []);
  mret (ClusterResult.mk (Cluster.cluster_key cluster) (Cluster.bucket cluster)
          (Cluster.badge cluster) (Cluster.conflict_type cluster)
          (Cluster.severity cluster) (Cluster.action_code cluster)
          (Cluster.priority_score cluster) (Cluster.page_count cluster)
          pages_json gsc_query gsc_total_imps gsc_total_clicks gsc_data_json
          (Cluster.recommendation cluster) suggested_canonical).

(** Phases 4 and 5: the static issues after the upgrade, the confirmed
    issues and the wrong-winner issues. *)
Definition gsc_phases (site : Site.t) (gsc_days : Z)
    (classifications : list PC) (static_issues : list Issue.t)
  : M (list Issue.t * list Issue.t * list Issue.t) :=
  let gsc_data := _fetch_gsc_data site gsc_days in
  match gsc_data with
  | [] => mret (static_issues, [], [])
  | _ =>
      let end_date := today in
      let start_date := (end_date - gsc_days)%Z in
      _ ← update (AnalysisRun.set_gsc_dates start_date end_date);
      let brand_name := _get_brand_name site in
      let homepage_title := _get_homepage_title site in
      gsc_issues ←
        lift (run_phase4 classifications gsc_data brand_name homepage_title);
      static_issues ← lift (upgrade_static_issues static_issues gsc_issues);
      let wrong_winner_issues :=
        run_phase5 classifications gsc_data (Some brand_name)
          (Some homepage_title) in
      mret (static_issues, gsc_issues, wrong_winner_issues)
  end.

(** The body of the [try] block; [phase1] is what the call of
    [run_phase1] returns or raises. *)
Definition try_block (phase1 : result (list PC)) (site : Site.t)
    (include_gsc : bool) (gsc_days : Z)
  : M unit :=
  classifications ← lift phase1;
  _ ← update (AnalysisRun.set_total_pages (Z.of_nat (length classifications)));
  match classifications with
  | [] => update (AnalysisRun.mark_failed "No pages found to analyze")
  | _ =>
      let safe_pairs := run_phase2 classifications in
      static_issues ← lift (run_phase3 classifications safe_pairs);
      '(static_issues, gsc_issues, wrong_winner_issues) ←
        (if include_gsc
         then gsc_phases site gsc_days classifications static_issues
         else mret (static_issues, [], []));
      let all_issues := static_issues ++ gsc_issues ++ wrong_winner_issues in
      let clustered_issues := run_phase6 all_issues in
      _ ← lift (run_phase7 clustered_issues);
      cluster_objects ← mapM cluster_object clustered_issues;
      _ ← update
            (AnalysisRun.set_results cluster_objects
               (count_where (has_bucket "SEARCH_CONFLICT") clustered_issues)
               (count_where (has_bucket "SITE_DUPLICATION") clustered_issues)
               (count_where (has_bucket "WRONG_WINNER") clustered_issues)
               (count_where (has_badge "CONFIRMED") clustered_issues)
               (count_where (has_badge "POTENTIAL") clustered_issues)
               (count_where (has_badge "WRONG_WINNER") clustered_issues));
      update AnalysisRun.mark_completed
  end.

(** The end of [run_analysis]: the run is returned, or the exception
    marks it as failed and is raised again. *)
Definition finish (body : M unit) (analysis_run : AnalysisRun.t) : outcome :=
  match body analysis_run with
  | (Ok _, analysis_run) => Returned analysis_run
  | (Raised e, analysis_run) =>
      Raises e (Some (AnalysisRun.mark_failed e analysis_run))
  end.

Definition run_analysis (site_id : Z) (include_gsc : bool) (gsc_days : Z)
  : outcome :=
  match lookup_site site_id with
  | None =>
      Raises ("Site with ID " ++ str_of_Z site_id ++ " not found") None
  | Some site =>
      let analysis_run :=
        AnalysisRun.create (Site.id site) "running" include_gsc in
      finish
        (try_block (run_phase1 page_objects (Site.id site)) site include_gsc
           gsc_days)
        analysis_run
  end.

End Pipeline.

(** ** Vocabulary of the statements *)

(** The date pattern as the specification words it: the first segment is a
    four-digit year and the second one a two-digit month. *)
Definition spec_year_month_prefix (parts : list str) : bool :=
  match parts with
  | year :: month :: _ =>
      isdigit year && (length year =? 4) && isdigit month && (length month =? 2)
  | _ => false
  end.

(** The test of the date rule as the classifier makes it. *)
Definition date_rule (parts : list str) : bool :=
  (3 <=? length parts) && isdigit (List.nth 0 parts [])
  && isdigit (List.nth 1 parts []).

(** The text before the first colon of [v] is a scheme name: it begins
    with a letter and holds letters, digits, [+], [-] and [.] only. *)
Definition begins_with_scheme (v : str) : bool :=
  match break_at ":" v with
  | Some (c :: pre, _) => is_alpha c && forallb scheme_chars (c :: pre)
  | _ => false
  end.

(** The text after the last slash of [v]. *)
Definition last_segment (v : str) : str :=
  rev (span_until (eqc "/") (rev v)).1.

(** The pages of a list that lie under the folder root [r], in order. *)
Definition under_root (r : str) (pages : list PC) : list PC :=
  List.filter (fun p => str_eqb (PageClassification.folder_root p) r) pages.

Definition group_of (r : str) (d : list (str * list PC)) : list PC :=
  default [] (dict_get r d).

(** What the claim says of one issue, given the winning row. *)
Definition winner_first (winner : Row.t) (issue : Issue.t) : Prop :=
  head (Issue.pages issue) = Some (Row.page_class winner)
  ∧ length (Issue.pages issue) ≤ 3
  ∧ (Issue.conflict_type issue = "PAGE_TYPE_MISMATCH"
     ∨ Issue.conflict_type issue = "GEOGRAPHIC_MISMATCH" →
     length (Issue.pages issue) = 2).

(** A computation that leaves the [gsc_connected] flag of the run alone. *)
Definition keeps_flag {A} (m : M A) : Prop :=
  ∀ r, AnalysisRun.gsc_connected (m r).2 = AnalysisRun.gsc_connected r.


(** ** Tables and data of the worked examples *)

(** Every bracketed host passes the check. *)
Definition any_bracketed_host : BracketCheck := fun _ => true.

(** The text of [FieldError] up to the list of choices that Django
    appends. *)
Definition field_error_text : Django := fun kw =>
  "Cannot resolve keyword '" ++ kw ++ "' into field.".

(** Modelled from the spec: the tables of [constants.py], which is
    missing.  These are the values that the specification states (scores,
    impression thresholds, the cap of 15 pages, the floor of 20
    impressions, intent markers) and the table entries that the
    specification, the doc comments and the tests name. *)
Definition spec_constants : Constants := {|
  SLUG_STOP_WORDS :=
    list_to_set [ "the" : str; "and" : str; "for" : str; "with" : str ];
  LEGACY_SUFFIXES :=
    [ "-old" : str; "-backup" : str; "-2" : str; "-copy" : str ];
  FOLDER_ROOTS := fun kind =>
    if str_eqb kind "location" then
      [ "service-area" : str; "service-areas" : str; "locations" : str;
        "location" : str; "city" : str; "cities" : str ]
    else if str_eqb kind "blog" then [ "blog" : str ]
    else if str_eqb kind "product_rentals" then [ "rentals" : str ]
    else if str_eqb kind "service" then
      [ "service" : str; "services" : str; "residential" : str;
        "commercial" : str ]
    else if str_eqb kind "portfolio" then [ "portfolio" : str ]
    else if str_eqb kind "utility" then
      [ "cart" : str; "checkout" : str; "my-account" : str; "wp-admin" : str ]
    else [];
  INTENT_MARKERS :=
    [ ("listicle" : str,
       [ "best" : str; "top" : str; "vs" : str; "review" : str;
         "compare" : str; "ranking" : str ]);
      ("informational" : str,
       [ "how" : str; "what" : str; "why" : str; "guide" : str; "tips" : str;
         "tutorial" : str; "ideas" : str ]);
      ("navigational" : str,
       [ "login" : str; "contact" : str; "about" : str; "hours" : str;
         "location" : str ]);
      ("transactional" : str,
       [ "buy" : str; "price" : str; "cost" : str; "near me" : str;
         "service" : str; "company" : str; "hire" : str ]) ];
  GEO_MODIFIERS := [ "near me" : str; "near " : str; " in " : str; "local" : str ];
  BRANDED_QUERY_INDICATORS :=
    [ " inc" : str; " llc" : str; " co." : str; "company" : str ];
  MIN_IMPRESSIONS_THRESHOLD := 20;
  BUCKET_SCORES := fun b =>
    dict_get b [ ("SEARCH_CONFLICT" : str, 50%Z); ("WRONG_WINNER" : str, 30%Z);
                 ("SITE_DUPLICATION" : str, 20%Z) ];
  SEVERITY_SCORES := fun s =>
    dict_get s [ ("SEVERE" : str, 30%Z); ("HIGH" : str, 22%Z);
                 ("MEDIUM" : str, 14%Z); ("LOW" : str, 6%Z) ];
  MAX_CLUSTER_SIZE := 15;
  IMPRESSION_THRESHOLD_HIGH := 10000;
  IMPRESSION_THRESHOLD_MEDIUM := 1000
|}.

Section WorkedData.
#[local] Existing Instance any_bracketed_host.
#[local] Existing Instance spec_constants.
Import Phase4.

(** A published page of site 1 with the given key and URL. *)
Definition page_of_url (id : Z) (url : str) : Page.t :=
  Page.mk id 1 id url "Page" [] [] [] "publish" None None None 0 [] [] []
    None 0 0 0.

Definition classified_as (url : str) : option str :=
  PageClassification.classified_type <$> classify_page (page_of_url 1 url).

Definition blank_pc (id : Z) (url : str) : PC :=
  PageClassification.mk id url [] [] [] [] false [] [] [] 0 [] [] [].

(** The classification that phase 1 gives to a published page. *)
Definition pc_of (id : Z) (url : str) : PC :=
  default (blank_pc id url) (classify_page (page_of_url id url)).

Definition keyword_meta (service_kw : str) : Metadata.t :=
  Metadata.mk None None None (Some service_kw) None None None None
    None None None None None None None None.

Definition catering_1 : PC := pc_of 1 "https://example.com/services/catering/".
Definition catering_2 : PC := pc_of 2 "https://example.com/residential/catering/".
Definition catering_3 : PC := pc_of 3 "https://example.com/commercial/catering/".

(** Two context duplicates of one service keyword; phase 4 validated the
    second one only. *)
Definition issue_plain : Issue.t :=
  Issue.mk "CONTEXT_DUPLICATE" (Some ("MEDIUM" : str))
    [catering_1; catering_2] (Some (keyword_meta "catering")) false.

Definition issue_validated : Issue.t :=
  Issue.mk "CONTEXT_DUPLICATE" (Some ("MEDIUM" : str))
    [catering_1; catering_3] (Some (keyword_meta "catering")) true.

Definition cluster_summary (c : Cluster.t)
  : str * option str * option str * nat :=
  (Cluster.cluster_key c, Cluster.bucket c, Cluster.badge c,
   Cluster.page_count c).

(** Seventeen pages: sixteen under [/a/] and one under [/b/]. *)
Definition page_under (root : str) (id : Z) : PC :=
  pc_of id ("https://example.com/" ++ root ++ "/p" ++ str_of_Z id ++ "/").

Definition sixteen_a : list PC :=
  map (page_under "a") [1; 2; 3; 4; 5; 6; 7; 8; 9; 10; 11; 12; 13; 14; 15; 16]%Z.

Definition one_b : PC := page_under "b" 17.

Definition seventeen_pages : list PC := sixteen_a ++ [one_b].

Definition big_issue : Issue.t :=
  Issue.mk "TAXONOMY_CLASH" (Some ("HIGH" : str)) seventeen_pages
    (Some (Metadata.mk None (Some ("p" : str)) None None None None None None
             None None None None None None None None))
    false.

Definition big_cluster : Cluster.t :=
  List.nth 0 (run_phase6 [big_issue]) (build_cluster [] Acc.fresh).

(** A shop with one category and one product; the product page gets the
    impressions of the plural query. *)
Definition shop_pages : list Page.t :=
  [ page_of_url 1 "https://example.com/shop/dance/";
    page_of_url 2 "https://example.com/shop/dance/jazz-shoes/" ].

(** The classifications that the loop of phase 1 makes of the pages. *)
Definition shop_classifications : list PC := omap classify_page shop_pages.

Definition shop_traffic : list RawRow :=
  [ mkRawRow "Dance Shoes" "https://www.example.com/shop/dance/jazz-shoes/?ref=1"
      20 150 (62 # 10);
    mkRawRow "dance shoes" "https://example.com/shop/dance/" 4 40 (9 # 1);
    mkRawRow "dance shoes" "https://example.com/shop/dance/" 0 5 (30 # 1) ].

Definition shop_issues : list Issue.t :=
  run_phase5 shop_classifications shop_traffic (Some ("Example" : str))
    (Some ("Example | Dance supplies" : str)).

Definition shop_issue : Issue.t :=
  List.nth 0 shop_issues (Issue.mk [] None [] None false).

Definition matched_row (query : str) (id : Z) (url : str)
    (clicks impressions : Z) (position : Q) : Row.t :=
  Row.mk query url (normalize_full_url url) (pc_of id url) clicks impressions
    position.

(** The query of the seed scenario: a location page with 600 impressions
    and a service page with 400. *)
Definition brooklyn_rows : list Row.t :=
  [ matched_row "event planning brooklyn" 2
      "https://example.com/services/event-planning/" 15 400 (83 # 10);
    matched_row "event planning brooklyn" 1
      "https://example.com/service-area/brooklyn/" 30 600 (41 # 10) ].

Definition brooklyn_issue : Issue.t :=
  default (Issue.mk [] None [] None false)
    (_analyze_query_group "event planning brooklyn" brooklyn_rows).

Definition example_site : Site.t := Site.mk 1 "Example" None.

(** A site with two pages, a search-console integration whose call raises,
    and phases 3, 4 and 7 that find nothing and do not fail. *)
Definition failing_traffic_source : Collaborators := {|
  lookup_site := fun id => if (id =? 1)%Z then Some example_site else None;
  page_objects := shop_pages;
  today := 20000;
  gsc_service := GscInstalled (fun _ _ _ => Raised "quota exceeded");
  run_phase3 := fun _ _ => Ok [];
  run_phase4 := fun _ _ _ _ => Ok [];
  upgrade_static_issues := fun static _ => Ok static;
  run_phase7 := fun _ => Ok tt;
  _suggest_canonical := fun _ _ => Ok None
|}.

(** The run that [run_analysis] returns or leaves behind. *)
Definition run_summary (o : outcome)
  : option (str * bool * option Z * Z * nat) :=
  match o with
  | Returned run | Raises _ (Some run) =>
      Some (AnalysisRun.status run, AnalysisRun.gsc_connected run,
            AnalysisRun.gsc_date_start run,
            AnalysisRun.total_pages_analyzed run,
            length (AnalysisRun.clusters run))
  | Raises _ None => None
  end.

End WorkedData.

(** ** Vocabulary of the further properties *)

(** A character that [urlsplit] neither removes nor reads as the start of
    a fragment or of a query. *)
Definition inert (c : ascii) : Prop :=
  is_unsafe c = false ∧ eqc "#" c = false ∧ eqc "?" c = false.

(** The classifications that phase 2 compares: the last one of each page
    id, in the order in which the ids first occur. *)
Definition page_table (classifications : list PC) : list PC :=
  map snd
    (fold_left (fun d pc => dict_set (PageClassification.page_id pc) pc d)
       classifications []).

Definition id_pair (a b : PC) : gset Z :=
  {[ PageClassification.page_id a; PageClassification.page_id b ]}.

(** One turn of the inner loop of [run_phase2]. *)
Definition add_safe (safe : PC → PC → bool) (safe_pairs : gset (gset Z))
    (p : PC * PC)
  : gset (gset Z) :=
  let '(page_a, page_b) := p in
  if safe page_a page_b then safe_pairs ∪ {[ id_pair page_a page_b ]}
  else safe_pairs.

(** The dictionary of phase 6 after the merging loop. *)
Definition cluster_map `{BracketCheck} `{Constants} (issues : list Issue.t)
  : list (str * Acc.t) :=
  fold_left cluster_step issues [].

(** The issues of a list that have the cluster key [k], in order. *)
Definition issues_of_key `{BracketCheck} `{Constants} (k : str)
    (issues : list Issue.t) : list Issue.t :=
  List.filter (fun i => str_eqb (_generate_cluster_key i) k) issues.

(** The accumulator after merging the issues of [m] in order. *)
Definition merged (m : list Issue.t) : Acc.t :=
  fold_left merge_issue m Acc.fresh.

(** [issue.get('severity', 'LOW')] *)
Definition issue_severity (i : Issue.t) : str :=
  default ("LOW" : str) (Issue.severity i).

(** [_severity_rank] of a severity that may be unset. *)
Definition rank_of (s : option str) : Z :=
  match s with
  | Some s => _severity_rank s
  | None => 0
  end.

(** A key of the metadata of an issue; an issue without metadata has no
    key. *)
Definition issue_meta {A} (f : Metadata.t → option A) (i : Issue.t)
  : option A :=
  Issue.metadata i ≫= f.

(** A dictionary entry that exists only once something was written to
    it. *)
Definition once_written {A B} (f : list A → B) (l : list A) : option B :=
  match l with
  | [] => None
  | _ => Some (f l)
  end.

(** [cluster['pages'][page.page_id] = page] *)
Definition set_page (d : list (Z * PC)) (page : PC) : list (Z * PC) :=
  dict_set (PageClassification.page_id page) page d.

(** ** Data of the further worked examples *)

Section FurtherData.
#[local] Existing Instance any_bracketed_host.
#[local] Existing Instance spec_constants.

(** Two context duplicates of one keyword around a validated conflict of
    one query. *)
Definition mixed_issues : list Issue.t :=
  [issue_plain; brooklyn_issue; issue_validated].

Definition cluster_at (n : nat) (issues : list Issue.t) : Cluster.t :=
  List.nth n (run_phase6 issues) (build_cluster [] Acc.fresh).

(** The rows of the plural query of the shop, as phase 5 groups them. *)
Definition shop_rows : list Row.t :=
  default []
    (dict_get ("dance shoes" : str)
       (query_groups shop_classifications shop_traffic
          (Some ("Example" : str)) (Some ("Example | Dance supplies" : str)))).

Definition brooklyn_cluster : Cluster.t := cluster_at 0 mixed_issues.

Definition catering_cluster : Cluster.t := cluster_at 1 mixed_issues.

(** A site whose traffic data come back, with two static issues from
    phase 3 and nothing from phase 4. *)
Definition shop_source : Collaborators := {|
  lookup_site := fun id => if (id =? 1)%Z then Some example_site else None;
  page_objects := shop_pages;
  today := 20000;
  gsc_service := GscInstalled (fun _ _ _ => Ok shop_traffic);
  run_phase3 := fun _ _ => Ok [issue_plain; big_issue];
  run_phase4 := fun _ _ _ _ => Ok [];
  upgrade_static_issues := fun static _ => Ok static;
  run_phase7 := fun _ => Ok tt;
  _suggest_canonical := fun _ _ => Ok None
|}.

Definition run_counts (o : outcome)
  : option (str * option Z * list str * list Z) :=
  match o with
  | Returned run =>
      Some (AnalysisRun.status run, AnalysisRun.gsc_date_start run,
            map ClusterResult.cluster_key (AnalysisRun.clusters run),
            [ AnalysisRun.total_clusters_found run;
              AnalysisRun.search_conflict_count run;
              AnalysisRun.site_duplication_count run;
              AnalysisRun.wrong_winner_count run ])
  | Raises _ _ => None
  end.

End FurtherData.

(** A stored cluster object that carries the key, the labels, the score
    and the pages of a cluster. *)
Definition stored_as (c : Cluster.t) (o : ClusterResult.t) : Prop :=
  ClusterResult.cluster_key o = Cluster.cluster_key c
  ∧ ClusterResult.bucket o = Cluster.bucket c
  ∧ ClusterResult.badge o = Cluster.badge c
  ∧ ClusterResult.priority_score o = Cluster.priority_score c
  ∧ ClusterResult.page_count o = Cluster.page_count c
  ∧ map (fun p => p.1.1.1.1) (ClusterResult.pages_json o)
    = map PageClassification.page_id (Cluster.pages c).

(** The run after the page count was written, with or without the dates
    of the traffic data. *)
Definition counted `{Collaborators} (n : nat) (days : Z)
    (r0 r : AnalysisRun.t) : Prop :=
  let r1 := AnalysisRun.set_total_pages (Z.of_nat n) r0 in
  r = r1 ∨ r = AnalysisRun.set_gsc_dates (today - days)%Z today r1.

(** The run after phase 4 and phase 5 were reached: the dates are written
    when traffic data were asked for and came back. *)
Definition dated `{Collaborators} (site : Site.t) (include_gsc : bool)
    (days : Z) (r : AnalysisRun.t) : AnalysisRun.t :=
  if include_gsc then
    match _fetch_gsc_data site days with
    | [] => r
    | _ => AnalysisRun.set_gsc_dates (today - days)%Z today r
    end
  else r.

(** The counts of a run agree: the number of clusters found is the number
    of stored clusters and the sum of the three bucket counts, and the
    count of each bucket is the count of its badge. *)
Definition counts_agree (run : AnalysisRun.t) : Prop :=
  AnalysisRun.total_clusters_found run
  = Z.of_nat (length (AnalysisRun.clusters run))
  ∧ (AnalysisRun.search_conflict_count run
     + AnalysisRun.site_duplication_count run
     + AnalysisRun.wrong_winner_count run
     = AnalysisRun.total_clusters_found run)%Z
  ∧ AnalysisRun.search_conflict_count run = AnalysisRun.confirmed_count run
  ∧ AnalysisRun.site_duplication_count run = AnalysisRun.potential_count run
  ∧ AnalysisRun.wrong_winner_count run
    = AnalysisRun.wrong_winner_badge_count run.

(** The run that [run_analysis] has created or left behind, if any. *)
Definition run_of (o : outcome) : option AnalysisRun.t :=
  match o with
  | Returned run | Raises _ (Some run) => Some run
  | Raises _ None => None
  end.

(** [analysis_run.save()] with the clusters and the six counts. *)
Definition with_results `{BracketCheck} `{Constants}
    (clustered : list Cluster.t) (objs : list ClusterResult.t)
    (r : AnalysisRun.t) : AnalysisRun.t :=
  AnalysisRun.set_results objs
    (count_where (has_bucket "SEARCH_CONFLICT") clustered)
    (count_where (has_bucket "SITE_DUPLICATION") clustered)
    (count_where (has_bucket "WRONG_WINNER") clustered)
    (count_where (has_badge "CONFIRMED") clustered)
    (count_where (has_badge "POTENTIAL") clustered)
    (count_where (has_badge "WRONG_WINNER") clustered) r.


(** ** Facts about the string primitives *)

Section StrFacts.

Ltac by_char c := destruct c as [[] [] [] [] [] [] [] []]; reflexivity.

Lemma lower_char_idem c : lower_char (lower_char c) = lower_char c.
Proof. by_char c. Qed.

Lemma isspace_lower_char c : isspace (lower_char c) = isspace c.
Proof. by_char c. Qed.

Lemma lower_idem s : lower (lower s) = lower s.
Proof.
  unfold lower. rewrite map_map. apply map_ext. intros; apply lower_char_idem.
Qed.

Lemma lower_fixed s :
  Forall (fun c => lower_char c = c) s → lower s = s.
Proof.
  induction 1 as [|c s Hc _ IH]; simpl; [done|]. by rewrite Hc, IH.
Qed.

Lemma lower_chars_fixed s : Forall (fun c => lower_char c = c) (lower s).
Proof.
  induction s as [|c s IH]; simpl; constructor; auto using lower_char_idem.
Qed.

Lemma lstrip_with_map P (f : ascii → ascii) s :
  (∀ c, P (f c) = P c) →
  lstrip_with P (map f s) = map f (lstrip_with P s).
Proof.
  intros Hf. induction s as [|c s IH]; simpl; [done|].
  rewrite Hf. destruct (P c); auto.
Qed.

Lemma rstrip_with_map P (f : ascii → ascii) s :
  (∀ c, P (f c) = P c) →
  rstrip_with P (map f s) = map f (rstrip_with P s).
Proof.
  intros Hf. unfold rstrip_with.
  by rewrite <- map_rev, lstrip_with_map, map_rev.
Qed.

Lemma strip_lower s : strip (lower s) = lower (strip s).
Proof.
  unfold strip, strip_with, lower.
  rewrite lstrip_with_map by apply isspace_lower_char.
  apply rstrip_with_map, isspace_lower_char.
Qed.

Lemma lstrip_with_head P s c t : lstrip_with P s = c :: t → P c = false.
Proof.
  induction s as [|a s IH]; simpl; [done|].
  destruct (P a) eqn:Ha; [done|]. intros [= -> _]. done.
Qed.

Lemma lstrip_with_fixed P s :
  (∀ c t, s = c :: t → P c = false) → lstrip_with P s = s.
Proof.
  destruct s as [|a s]; simpl; [done|]. intros Hs.
  by rewrite (Hs a s eq_refl).
Qed.

Lemma lstrip_with_idem P s :
  lstrip_with P (lstrip_with P s) = lstrip_with P s.
Proof.
  apply lstrip_with_fixed. intros c t. apply lstrip_with_head.
Qed.

Lemma rstrip_with_idem P s :
  rstrip_with P (rstrip_with P s) = rstrip_with P s.
Proof.
  unfold rstrip_with. by rewrite rev_involutive, lstrip_with_idem.
Qed.

Lemma lstrip_with_Forall (Q : ascii → Prop) P s :
  Forall Q s → Forall Q (lstrip_with P s).
Proof.
  induction 1 as [|c s Hc Hs IH]; simpl; [constructor|].
  destruct (P c); auto.
Qed.

Lemma rstrip_with_Forall (Q : ascii → Prop) P s :
  Forall Q s → Forall Q (rstrip_with P s).
Proof.
  intros Hs. unfold rstrip_with.
  apply List.Forall_rev, lstrip_with_Forall, List.Forall_rev, Hs.
Qed.

(** Stripping on the right keeps a prefix: its first character, if any, is
    the first character of the argument. *)
Lemma rstrip_with_prefix P s : ∃ t, s = rstrip_with P s ++ t.
Proof.
  unfold rstrip_with.
  assert (Hsuf : ∀ r, ∃ t, r = t ++ lstrip_with P r).
  { induction r as [|a r [t Ht]]; simpl; [by exists []|].
    destruct (P a); [|by exists []].
    exists (a :: t). simpl. by f_equal. }
  destruct (Hsuf (rev s)) as [t Ht].
  exists (rev t). rewrite <- rev_app_distr, <- Ht. by rewrite rev_involutive.
Qed.

Lemma lstrip_rstrip_fixed P Q s :
  lstrip_with P s = s → lstrip_with P (rstrip_with Q s) = rstrip_with Q s.
Proof.
  intros Hs. apply lstrip_with_fixed. intros c t Hc.
  destruct (rstrip_with_prefix Q s) as [t' Ht'].
  rewrite Hc in Ht'. simpl in Ht'.
  apply (lstrip_with_head P s c (t ++ t')). by rewrite Hs.
Qed.

Lemma strip_with_idem P s : strip_with P (strip_with P s) = strip_with P s.
Proof.
  unfold strip_with.
  rewrite (lstrip_rstrip_fixed P P) by apply lstrip_with_idem.
  apply rstrip_with_idem.
Qed.

Lemma strip_idem s : strip (strip s) = strip s.
Proof. apply strip_with_idem. Qed.

Lemma rstrip_with_app_fixed P d w :
  Forall (fun c => P c = false) d →
  rstrip_with P (d ++ rstrip_with P w) = d ++ rstrip_with P w.
Proof.
  intros Hd. unfold rstrip_with at 1.
  rewrite rev_app_distr. unfold rstrip_with. rewrite rev_involutive.
  rewrite lstrip_with_fixed.
  - by rewrite rev_app_distr, rev_involutive.
  - intros c t Hc. destruct (lstrip_with P (rev w)) as [|a l] eqn:Hl.
    + simpl in Hc. apply List.Forall_rev in Hd. rewrite Hc in Hd.
      by inversion Hd.
    + simpl in Hc. injection Hc as -> _. eapply lstrip_with_head, Hl.
Qed.

Lemma span_until_Forall (Q : ascii → Prop) P s :
  Forall Q s → Forall Q (span_until P s).1 ∧ Forall Q (span_until P s).2.
Proof.
  induction 1 as [|c s Hc Hs [IH1 IH2]]; simpl; [by split|].
  destruct (P c); simpl; [by split; [constructor | constructor]|].
  destruct (span_until P s) as [a b]; simpl in *. split; auto.
Qed.

Lemma span_until_fst P s : Forall (fun c => P c = false) (span_until P s).1.
Proof.
  induction s as [|c s IH]; simpl; [constructor|].
  destruct (P c) eqn:Hc; simpl; [constructor|].
  destruct (span_until P s) as [a b]; simpl in *. by constructor.
Qed.

Lemma span_until_none P s :
  Forall (fun c => P c = false) s → span_until P s = (s, []).
Proof.
  induction 1 as [|c s Hc _ IH]; simpl; [done|]. by rewrite Hc, IH.
Qed.

Lemma has_char_false c s :
  has_char c s = false ↔ Forall (fun x => eqc c x = false) s.
Proof.
  unfold has_char. induction s as [|a s IH]; simpl.
  - split; [constructor | done].
  - rewrite orb_false_iff, IH. split.
    + intros [? ?]. by constructor.
    + by inversion 1.
Qed.

Lemma break_at_none c s : has_char c s = false → break_at c s = None.
Proof.
  intros Hc. unfold break_at.
  by rewrite span_until_none by by apply has_char_false.
Qed.

Lemma break_at_Forall (Q : ascii → Prop) c s a b :
  break_at c s = Some (a, b) → Forall Q s →
  Forall Q a ∧ Forall Q b ∧ has_char c a = false.
Proof.
  unfold break_at. intros Hb Hs.
  pose proof (span_until_Forall Q (eqc c) s Hs) as [H1 H2].
  pose proof (span_until_fst (eqc c) s) as H3.
  destruct (span_until (eqc c) s) as [a' [|x b']]; [done|].
  injection Hb as -> ->. simpl in *. split; [done|]. split.
  - by inversion H2.
  - by apply has_char_false.
Qed.

Lemma cut_Forall (Q : ascii → Prop) c s :
  Forall Q s → Forall Q (cut c s).1 ∧ has_char c (cut c s).1 = false.
Proof.
  intros Hs. unfold cut. destruct (break_at c s) as [[a b]|] eqn:Hb; simpl.
  - destruct (break_at_Forall Q c s a b Hb Hs) as (? & _ & ?). done.
  - split; [done|]. unfold break_at in Hb.
    pose proof (span_until_fst (eqc c) s) as H3.
    pose proof (span_until_Forall (fun x => x ∈ s) (eqc c) s) as H4.
    destruct (span_until (eqc c) s) as [a' [|x b']] eqn:Hsp; [|done].
    apply has_char_false. clear Hb H4.
    revert a' Hsp H3. induction s as [|y s IH]; intros a' Hsp H3; [constructor|].
    simpl in Hsp. destruct (eqc c y) eqn:Hy; [done|].
    destruct (span_until (eqc c) s) as [a2 b2] eqn:Hsp2.
    injection Hsp as <- ->. inversion Hs; subst. constructor; [done|].
    eapply IH; eauto. by inversion H3.
Qed.

Lemma cut_none c s : has_char c s = false → cut c s = (s, []).
Proof. intros Hc. unfold cut. by rewrite break_at_none. Qed.

Lemma filter_fixed (f : ascii → bool) s :
  Forall (fun c => f c = true) s → List.filter f s = s.
Proof.
  induction 1 as [|c s Hc _ IH]; simpl; [done|]. by rewrite Hc, IH.
Qed.

Lemma filter_Forall (Q : ascii → Prop) (f : ascii → bool) s :
  Forall Q s → Forall Q (List.filter f s).
Proof.
  induction 1 as [|c s Hc _ IH]; simpl; [constructor|].
  destruct (f c); auto.
Qed.

Lemma filter_holds (f : ascii → bool) s :
  Forall (fun c => f c = true) (List.filter f s).
Proof.
  induction s as [|c s IH]; simpl; [constructor|].
  destruct (f c) eqn:Hc; auto.
Qed.

Lemma replace_from_Forall (Q : ascii → Prop) old new k s :
  Forall Q new → Forall Q s → Forall Q (replace_from old new k s).
Proof.
  intros Hnew Hs. revert k. induction Hs as [|c s Hc Hs IH]; intros k; simpl.
  - constructor.
  - destruct k; [|apply IH].
    destruct (startswith old (c :: s)).
    + apply Forall_app. split; [done | apply IH].
    + constructor; auto.
Qed.

End StrFacts.

(** ** Facts about [urlparse] *)

Section UrllibFacts.
Context `{BracketCheck}.

Lemma eqc_sym a b : eqc a b = eqc b a.
Proof. apply Ascii.eqb_sym. Qed.

Lemma split_scheme_Forall (Q : ascii → Prop) url :
  Forall Q url → Forall Q (split_scheme url).2.
Proof.
  intros Hu. unfold split_scheme.
  destruct (break_at ":" url) as [[[|c pre] post]|] eqn:Hb; try done.
  destruct (is_alpha c && forallb scheme_chars (c :: pre)); [|done].
  by destruct (break_at_Forall Q _ _ _ _ Hb Hu) as (_ & ? & _).
Qed.

Lemma split_scheme_plain url :
  has_char ":" url = false → split_scheme url = ([], url).
Proof. intros Hc. unfold split_scheme. by rewrite break_at_none. Qed.

Lemma split_netloc_Forall (Q : ascii → Prop) url :
  Forall Q url →
  Forall Q (split_netloc url).1 ∧ Forall Q (split_netloc url).2.
Proof.
  intros Hu. unfold split_netloc.
  destruct url as [|a [|b rest]]; simpl; try (split; [constructor | done]).
  destruct (eqc a "/" && eqc b "/"); simpl; [|split; [constructor | done]].
  apply span_until_Forall. inversion Hu as [|? ? _ Hu']; subst.
  by inversion Hu'.
Qed.

Lemma split_netloc_nodelim url :
  Forall (fun c => is_netloc_delim c = false) (split_netloc url).1.
Proof.
  unfold split_netloc.
  destruct url as [|a [|b rest]]; simpl; try constructor.
  destruct (eqc a "/" && eqc b "/"); simpl; [|constructor].
  apply span_until_fst.
Qed.

Lemma split_netloc_plain url :
  startswith "//" url = false → split_netloc url = ([], url).
Proof.
  unfold split_netloc. destruct url as [|a [|b rest]]; try done.
  intros Hs.
  destruct (eqc a "/") eqn:Ha; [|done].
  destruct (eqc b "/") eqn:Hb; [|done].
  apply Ascii.eqb_eq in Ha, Hb. by subst.
Qed.

Lemma splitparams_Forall (Q : ascii → Prop) url :
  Forall Q url → Forall Q (splitparams url).1.
Proof.
  intros Hu. unfold splitparams.
  pose proof (span_until_Forall Q (eqc "/") (rev url)
                (List.Forall_rev Hu)) as [H1 H2].
  destruct (span_until (eqc "/") (rev url)) as [rlast rhead]; simpl in *.
  destruct (break_at ";" (rev rlast)) as [[a b]|] eqn:Hb; simpl; [|done].
  apply Forall_app. split; [by apply List.Forall_rev|].
  by destruct (break_at_Forall Q _ _ _ _ Hb (List.Forall_rev H1)) as (? & _).
Qed.

(** Every character of the parsed host and path comes from the input, after
    the unsafe bytes were removed; the host holds no delimiter and the path
    neither a fragment nor a query mark. *)
Lemma urlparse_chars (Q : ascii → Prop) s p :
  urlparse s = Some p → Forall Q s →
  Forall (fun c => Q c ∧ is_unsafe c = false) (netloc p) ∧
  Forall (fun c => Q c ∧ is_unsafe c = false) (Urllib.path p) ∧
  Forall (fun c => is_netloc_delim c = false) (netloc p) ∧
  Forall (fun c => eqc "#" c = false ∧ eqc "?" c = false) (Urllib.path p).
Proof.
  intros Hp Hs. unfold urlparse, urlsplit in Hp.
  set (Q' := fun c => Q c ∧ is_unsafe c = false) in *.
  set (url1 := List.filter (fun c => negb (is_unsafe c))
                 (lstrip_with is_c0_or_space s)) in *.
  assert (H1 : Forall Q' url1).
  { apply Forall_and. split.
    - by apply filter_Forall, lstrip_with_Forall.
    - eapply Forall_impl; [apply filter_holds|].
      intros c Hc. simpl in Hc. by apply negb_true_iff. }
  pose proof (split_scheme_Forall Q' url1 H1) as H2.
  destruct (split_scheme url1) as [sch url2]; cbn [fst snd] in H2.
  pose proof (split_netloc_Forall Q' url2 H2) as [H3 H4].
  pose proof (split_netloc_nodelim url2) as H5.
  destruct (split_netloc url2) as [nl url3]; cbn [fst snd] in *.
  destruct (negb (netloc_ok nl)); [done|].
  pose proof (cut_Forall Q' "#" url3 H4) as [H6 H7].
  apply has_char_false in H7.
  assert (H67 : Forall (fun c => Q' c ∧ eqc "#" c = false) (cut "#" url3).1)
    by by apply Forall_and.
  destruct (cut "#" url3) as [url4 frag]; cbn [fst snd] in *.
  pose proof (cut_Forall _ "?" url4 H67) as [H8 H9].
  apply has_char_false in H9.
  assert (H89 : Forall (fun c => (Q' c ∧ eqc "#" c = false) ∧ eqc "?" c = false)
                  (cut "?" url4).1) by by apply Forall_and.
  destruct (cut "?" url4) as [url5 qry]; cbn [fst snd] in *.
  assert (Hfin : ∀ pth, Forall (fun c => (Q' c ∧ eqc "#" c = false)
                                          ∧ eqc "?" c = false) pth →
     Forall Q' pth ∧ Forall (fun c => eqc "#" c = false ∧ eqc "?" c = false) pth).
  { intros pth Hpth.
    split; (eapply Forall_impl; [exact Hpth|]); intros c [[? ?] ?]; auto. }
  destruct (mem sch uses_params && has_char ";" url5).
  - pose proof (splitparams_Forall _ url5 H89) as H10.
    destruct (splitparams url5) as [url6 prm]; cbn [fst snd] in *.
    injection Hp as <-; cbn. destruct (Hfin _ H10). done.
  - injection Hp as <-; cbn. destruct (Hfin _ H89). done.
Qed.

(** A text without scheme, host, query, fragment and parameters parses as
    a bare path. *)
Lemma urlparse_bare_path v :
  lstrip_with is_c0_or_space v = v →
  Forall (fun c => is_unsafe c = false) v →
  has_char ":" v = false → startswith "//" v = false →
  has_char "#" v = false → has_char "?" v = false →
  has_char ";" v = false →
  urlparse v = Some (mkParseResult [] [] v [] [] []).
Proof.
  intros Hl Hu Hc Hs Hf Hq Hp. unfold urlparse, urlsplit.
  rewrite Hl, filter_fixed.
  2:{ eapply Forall_impl; [exact Hu|]. intros c ->. done. }
  rewrite split_scheme_plain, split_netloc_plain by done. simpl.
  rewrite !cut_none by done. by rewrite Hp.
Qed.

End UrllibFacts.

(** ** [normalize_full_url] applied to its own output *)

Section NormalizeFacts.
Context `{BracketCheck}.

Lemma lstrip_with_length P s : length (lstrip_with P s) ≤ length s.
Proof. induction s as [|a s IH]; simpl; [lia|]. destruct (P a); simpl; lia. Qed.

Lemma lstrip_with_same_length P s :
  length (lstrip_with P s) = length s → lstrip_with P s = s.
Proof.
  destruct s as [|a s]; simpl; [done|]. destruct (P a); [|done].
  pose proof (lstrip_with_length P s). lia.
Qed.

Lemma rstrip_with_length P s : length (rstrip_with P s) ≤ length s.
Proof.
  unfold rstrip_with. rewrite length_rev, <- (length_rev s).
  apply lstrip_with_length.
Qed.

Lemma rstrip_with_same_length P s :
  length (rstrip_with P s) = length s → rstrip_with P s = s.
Proof.
  unfold rstrip_with. rewrite length_rev, <- (length_rev s). intros Hl.
  by rewrite (lstrip_with_same_length _ _ Hl), rev_involutive.
Qed.

Lemma strip_with_length P s : length (strip_with P s) ≤ length s.
Proof.
  unfold strip_with. pose proof (rstrip_with_length P (lstrip_with P s)).
  pose proof (lstrip_with_length P s). lia.
Qed.

Lemma strip_with_same_length P s :
  length (strip_with P s) = length s → strip_with P s = s.
Proof.
  unfold strip_with. intros Hl.
  pose proof (rstrip_with_length P (lstrip_with P s)).
  pose proof (lstrip_with_length P s).
  assert (Hs : lstrip_with P s = s) by (apply lstrip_with_same_length; lia).
  rewrite Hs in *. by apply rstrip_with_same_length.
Qed.

Lemma filter_same_length (f : ascii → bool) s :
  length (List.filter f s) = length s → List.filter f s = s.
Proof.
  induction s as [|a s IH]; simpl; [done|].
  pose proof (List.filter_length_le f s). destruct (f a); simpl; intros Hl.
  - f_equal. apply IH. lia.
  - lia.
Qed.

Lemma span_until_app P s : s = (span_until P s).1 ++ (span_until P s).2.
Proof.
  induction s as [|c s IH]; simpl; [done|].
  destruct (P c); [done|].
  destruct (span_until P s) as [a b]; simpl in *. by f_equal.
Qed.

Lemma break_at_app c s a b : break_at c s = Some (a, b) → s = a ++ c :: b.
Proof.
  unfold break_at. intros Hb.
  pose proof (span_until_app (eqc c) s) as Hs.
  destruct (span_until (eqc c) s) as [a' [|x b']] eqn:Hsp; [done|].
  injection Hb as -> ->. simpl in Hs. rewrite Hs. do 2 f_equal.
  assert (Hx : eqc c x = true).
  { clear Hs. revert a Hsp. induction s as [|y s IH]; intros a Hsp; [done|].
    simpl in Hsp. destruct (eqc c y) eqn:Hy.
    - by injection Hsp as <- <- <-.
    - destruct (span_until (eqc c) s) as [a2 b2].
      injection Hsp as _ ->. by eapply IH. }
  symmetry. by apply Ascii.eqb_eq.
Qed.

Lemma break_at_found c s :
  break_at c s = None → has_char c s = false.
Proof.
  unfold break_at. intros Hb.
  pose proof (span_until_app (eqc c) s) as Hs.
  pose proof (span_until_fst (eqc c) s) as Hf.
  destruct (span_until (eqc c) s) as [a [|x b]]; [|done].
  simpl in *. rewrite app_nil_r in Hs. subst a. by apply has_char_false.
Qed.

(** The scheme and its colon are taken off the front, or nothing is. *)
Lemma split_scheme_length url :
  if begins_with_scheme url
  then length (split_scheme url).2 < length url
  else split_scheme url = ([], url).
Proof.
  unfold begins_with_scheme, split_scheme.
  destruct (break_at ":" url) as [[[|c pre] post]|] eqn:Hb; try done.
  destruct (is_alpha c && forallb scheme_chars (c :: pre)); [|done].
  apply break_at_app in Hb. rewrite Hb. cbn [snd].
  rewrite length_app. simpl. lia.
Qed.

Lemma split_netloc_length url :
  if startswith "//" url
  then length (split_netloc url).1 + length (split_netloc url).2 + 2
       = length url
  else split_netloc url = ([], url).
Proof.
  destruct (startswith "//" url) eqn:Hs; [|by apply split_netloc_plain].
  change (list_ascii_of_string "//") with ["/"%char; "/"%char] in Hs.
  unfold split_netloc. destruct url as [|a [|b rest]]; cbn [startswith] in Hs.
  { done. }
  { by rewrite andb_false_r in Hs. }
  apply andb_true_iff in Hs as [Ha Hb].
  apply andb_true_iff in Hb as [Hb _].
  rewrite (eqc_sym "/") in Ha, Hb. rewrite Ha, Hb. cbn [andb fst snd length].
  pose proof (span_until_app is_netloc_delim rest) as Hr.
  apply (f_equal (@length ascii)) in Hr. rewrite length_app in Hr. lia.
Qed.

Lemma cut_length c s : length (cut c s).1 ≤ length s.
Proof.
  unfold cut. destruct (break_at c s) as [[a b]|] eqn:Hb; simpl; [|lia].
  apply break_at_app in Hb. rewrite Hb, length_app. lia.
Qed.

Lemma cut_same_length c s :
  length (cut c s).1 = length s → cut c s = (s, []).
Proof.
  unfold cut. destruct (break_at c s) as [[a b]|] eqn:Hb; simpl; [|done].
  apply break_at_app in Hb. rewrite Hb, length_app. simpl. lia.
Qed.

(** The parameters are split off the last segment, or nothing is. *)
Lemma splitparams_length url :
  if has_char ";" (last_segment url)
  then length (splitparams url).1 < length url
  else splitparams url = (url, []).
Proof.
  unfold last_segment, splitparams.
  pose proof (span_until_app (eqc "/") (rev url)) as Hs.
  destruct (span_until (eqc "/") (rev url)) as [rlast rhead]; cbn [fst snd] in *.
  destruct (break_at ";" (rev rlast)) as [[a b]|] eqn:Hb.
  - assert (Hc : has_char ";" (rev rlast) = true).
    { apply break_at_app in Hb. rewrite Hb. unfold has_char.
      rewrite existsb_app. simpl. apply orb_true_r. }
    rewrite Hc. cbn [fst].
    apply break_at_app in Hb.
    apply (f_equal (@length ascii)) in Hs, Hb.
    rewrite length_rev, length_app in Hs. rewrite length_rev, length_app in Hb.
    rewrite length_app, length_rev. simpl in Hb. lia.
  - by rewrite (break_at_found _ _ Hb).
Qed.

Lemma replace_from_length old k s :
  length (replace_from old [] k s) ≤ length s.
Proof.
  revert k. induction s as [|c s IH]; intros k; simpl; [lia|].
  destruct k.
  - destruct (startswith old (c :: s)); simpl.
    + specialize (IH (length old - 1)). lia.
    + specialize (IH 0). lia.
  - specialize (IH k). lia.
Qed.

(** What [urlparse] makes of a text that holds no unsafe character: host
    and path are never longer than the text, and they are as long only if
    the text is read as a bare path. *)
Lemma urlparse_length s q :
  urlparse s = Some q →
  length (netloc q) + length (Urllib.path q) ≤ length s
  ∧ (length (netloc q) + length (Urllib.path q) = length s →
     lstrip_with is_c0_or_space s = s
     ∧ begins_with_scheme s = false
     ∧ startswith "//" s = false
     ∧ has_char ";" (last_segment s) = false).
Proof.
  unfold urlparse, urlsplit.
  pose proof (lstrip_with_length is_c0_or_space s) as H1.
  pose proof (lstrip_with_same_length is_c0_or_space s) as H1'.
  set (url1 := lstrip_with is_c0_or_space s) in *.
  pose proof (List.filter_length_le (fun c => negb (is_unsafe c)) url1) as H2.
  pose proof (filter_same_length (fun c => negb (is_unsafe c)) url1) as H2'.
  set (url2 := List.filter (fun c => negb (is_unsafe c)) url1) in *.
  pose proof (split_scheme_length url2) as H3.
  destruct (split_scheme url2) as [sch url3] eqn:Esch; cbn [snd] in H3.
  pose proof (split_netloc_length url3) as H4.
  destruct (split_netloc url3) as [nl url4] eqn:Enl; cbn [fst snd] in H4.
  destruct (negb (netloc_ok nl)); [done|].
  pose proof (cut_length "#" url4) as H5.
  pose proof (cut_same_length "#" url4) as H5'.
  destruct (cut "#" url4) as [url5 frag]; cbn [fst] in *.
  pose proof (cut_length "?" url5) as H6.
  pose proof (cut_same_length "?" url5) as H6'.
  destruct (cut "?" url5) as [url6 qry]; cbn [fst] in *.
  pose proof (splitparams_length url6) as H7.
  assert (Hlen34 : length nl + length url4 ≤ length url3
                   ∧ (length nl + length url4 = length url3 →
                      startswith "//" url3 = false ∧ nl = [] ∧ url4 = url3)).
  { destruct (startswith "//" url3); [split; lia|].
    injection H4 as -> ->. by split. }
  assert (Hlen23 : length url3 ≤ length url2
                   ∧ (length url3 = length url2 →
                      begins_with_scheme url2 = false ∧ sch = [] ∧ url3 = url2)).
  { destruct (begins_with_scheme url2); [split; lia|].
    injection H3 as -> ->. by split. }
  destruct Hlen34 as [L34 E34]. destruct Hlen23 as [L23 E23].
  intros Hq.
  assert (Hpath : length (Urllib.path q) ≤ length url6
                  ∧ netloc q = nl
                  ∧ (length (Urllib.path q) = length url6 →
                     sch = [] → has_char ";" (last_segment url6) = false)).
  { destruct (mem sch uses_params && has_char ";" url6) eqn:Huse.
    - destruct (splitparams url6) as [url7 prm] eqn:Esp.
      injection Hq as <-. cbn [Urllib.path netloc]. cbn [fst] in H7.
      destruct (has_char ";" (last_segment url6)).
      + split; [lia|]. split; [done|]. lia.
      + injection H7 as -> ->. by split.
    - injection Hq as <-. cbn [Urllib.path netloc].
      split; [lia|]. split; [done|]. intros _ ->.
      change (mem [] uses_params) with true in Huse. simpl in Huse.
      unfold last_segment.
      pose proof (span_until_Forall (fun x => eqc ";" x = false) (eqc "/")
                    (rev url6)) as [Hf _].
      { apply List.Forall_rev. by apply has_char_false. }
      apply has_char_false. by apply List.Forall_rev. }
  destruct Hpath as (L7 & -> & E7).
  split; [lia|]. intros Heq.
  assert (Hs1 : url1 = s) by (apply H1'; lia).
  assert (Hs2 : url2 = url1) by (apply H2'; lia).
  destruct E23 as (Hsch & -> & ->); [lia|].
  destruct E34 as (Hnet & -> & ->); [simpl in *; lia|].
  simpl in Heq.
  assert (Hs5 : url5 = url2).
  { assert (Hc : (url5, frag) = (url2, [])) by (apply H5'; lia).
    by injection Hc. }
  subst url5.
  assert (Hs6 : url6 = url2).
  { assert (Hc : (url6, qry) = (url2, [])) by (apply H6'; lia).
    by injection Hc. }
  subst url6. rewrite Hs2, Hs1 in *.
  split; [done|]. split; [done|]. split; [done|]. apply E7; [lia | done].
Qed.

(** A text that is read as a bare path. *)
Lemma urlparse_reads_path v :
  lstrip_with is_c0_or_space v = v →
  Forall (fun c => is_unsafe c = false) v →
  begins_with_scheme v = false → startswith "//" v = false →
  has_char "#" v = false → has_char "?" v = false →
  has_char ";" (last_segment v) = false →
  urlparse v = Some (mkParseResult [] [] v [] [] []).
Proof.
  intros Hl Hu Hc Hs Hf Hq Hp. unfold urlparse, urlsplit.
  rewrite Hl, filter_fixed.
  2:{ eapply Forall_impl; [exact Hu|]. intros c ->. done. }
  pose proof (split_scheme_length v) as Hsch. rewrite Hc in Hsch.
  rewrite Hsch, split_netloc_plain by done. simpl.
  rewrite !cut_none by done.
  pose proof (splitparams_length v) as Hsp. rewrite Hp in Hsp.
  rewrite Hsp. by destruct (has_char ";" v).
Qed.

Lemma strip_lower_twice u : strip (lower (strip (lower u))) = strip (lower u).
Proof. by rewrite (strip_lower (strip _)), strip_idem, <- strip_lower, lower_idem. Qed.

(** When parsing fails the lowered, trimmed text is returned, and it fails
    to parse again. *)
Lemma normalize_full_url_unparsed u :
  urlparse (strip (lower u)) = None →
  normalize_full_url (normalize_full_url u) = normalize_full_url u.
Proof.
  intros Hp. unfold normalize_full_url at 2 3.
  destruct u as [|a u]; [done|]. rewrite Hp.
  pose proof (strip_lower_twice (a :: u)) as Hk.
  remember (strip (lower (a :: u))) as s eqn:Es. clear Es.
  unfold normalize_full_url. destruct s as [|b s]; [done|].
  by rewrite Hk, Hp.
Qed.

Lemma normalize_full_url_shape u p :
  urlparse (strip (lower u)) = Some p →
  let v := replace "www." [] (netloc p)
           ++ rstrip_with is_slash (Urllib.path p) in
  lower v = v ∧
  Forall (fun c => is_unsafe c = false) v ∧
  has_char "#" v = false ∧ has_char "?" v = false ∧
  rstrip_with is_slash v = v.
Proof.
  intros Hp v.
  assert (Hs : Forall (fun c => lower_char c = c) (strip (lower u))).
  { apply rstrip_with_Forall, lstrip_with_Forall, lower_chars_fixed. }
  destruct (urlparse_chars _ _ _ Hp Hs) as (Hn & Hq & Hd & Hf).
  apply Forall_and in Hn as [Hn1 Hn2]. apply Forall_and in Hq as [Hq1 Hq2].
  apply Forall_and in Hf as [Hf1 Hf2].
  assert (Hrep : ∀ Q : ascii → Prop, Forall Q (netloc p) →
            Forall Q (replace "www." [] (netloc p))).
  { intros Q HQ. by apply replace_from_Forall. }
  assert (Hdel : ∀ c, is_netloc_delim c = false →
            eqc "/" c = false ∧ eqc "?" c = false ∧ eqc "#" c = false).
  { intros c. unfold is_netloc_delim.
    rewrite !orb_false_iff, !(eqc_sym c). tauto. }
  repeat split.
  - apply lower_fixed, Forall_app. split; [by apply Hrep|].
    by apply rstrip_with_Forall.
  - apply Forall_app. split; [by apply Hrep|]. by apply rstrip_with_Forall.
  - apply has_char_false, Forall_app. split.
    + apply Hrep. eapply Forall_impl; [exact Hd|]. intros c Hc.
      by destruct (Hdel c Hc) as (_ & _ & ?).
    + by apply rstrip_with_Forall.
  - apply has_char_false, Forall_app. split.
    + apply Hrep. eapply Forall_impl; [exact Hd|]. intros c Hc.
      by destruct (Hdel c Hc) as (_ & ? & _).
    + by apply rstrip_with_Forall.
  - apply rstrip_with_app_fixed, Hrep.
    eapply Forall_impl; [exact Hd|]. intros c Hc.
    by destruct (Hdel c Hc) as (? & _ & _).
Qed.

(** The second normalization of a text [v] that is lowered and free of
    unsafe characters, fragment and query marks and a final slash, as every
    result of the first one is. *)
Lemma normalize_full_url_fixed_iff v :
  lower v = v →
  Forall (fun c => is_unsafe c = false) v →
  has_char "#" v = false → has_char "?" v = false →
  rstrip_with is_slash v = v →
  normalize_full_url v = v
  ↔ strip v = v
    ∧ (urlparse v = None
       ∨ (lstrip_with is_c0_or_space v = v
          ∧ begins_with_scheme v = false
          ∧ startswith "//" v = false
          ∧ has_char ";" (last_segment v) = false)).
Proof.
  intros Hlow Hsafe Hfrag Hqry Hend.
  destruct v as [|b w]; [by split; [split; [|right]|]|].
  unfold normalize_full_url. rewrite Hlow.
  remember (b :: w) as v eqn:Ev. clear Ev b w.
  pose proof (strip_with_length isspace v) as Hsl.
  pose proof (strip_with_same_length isspace v) as Hse.
  fold strip in Hsl, Hse.
  split.
  - destruct (urlparse (strip v)) as [q|] eqn:Hq.
    + intros Hv.
      destruct (urlparse_length _ _ Hq) as [Hle Hbare].
      pose proof (replace_from_length "www." 0 (netloc q)) as Hrep.
      fold (replace "www." [] (netloc q)) in Hrep.
      pose proof (rstrip_with_length is_slash (Urllib.path q)) as Hrs.
      apply (f_equal (@length ascii)) in Hv. rewrite length_app in Hv.
      assert (Hs : strip v = v) by (apply Hse; lia).
      split; [done|]. right. rewrite Hs in *. apply Hbare. lia.
    + intros Hv. rewrite Hv in Hq. by split; [|left].
  - intros [Hs [Hnone | (Hl & Hsch & Hslash & Hprm)]]; rewrite Hs.
    + by rewrite Hnone.
    + rewrite urlparse_reads_path by done. cbn [netloc Urllib.path]. done.
Qed.

(** C1 (amended): let [v] be a normalized URL.  A second normalization
    returns [v] exactly when [v] has no blank at either end and either makes
    [urlparse] raise, so that the text itself is returned, or is read by
    [urlparse] as a bare path: it does not begin with a control character
    or a blank, nor with a scheme name and a colon, nor with a double
    slash, and its last segment holds no semicolon. *)
Theorem normalize_full_url_twice (u : str) :
  let v := normalize_full_url u in
  normalize_full_url v = v
  ↔ strip v = v
    ∧ (urlparse v = None
       ∨ (lstrip_with is_c0_or_space v = v
          ∧ begins_with_scheme v = false
          ∧ startswith "//" v = false
          ∧ has_char ";" (last_segment v) = false)).
Proof.
  cbv zeta.
  destruct (urlparse (strip (lower u))) as [p|] eqn:Hp.
  - assert (Hv : normalize_full_url u
                 = replace "www." [] (netloc p)
                   ++ rstrip_with is_slash (Urllib.path p)).
    { unfold normalize_full_url. destruct u as [|a u]; [|by rewrite Hp].
      revert Hp. cbn. intros [= <-]. done. }
    destruct (normalize_full_url_shape u p Hp)
      as (Hlow & Hsafe & Hfrag & Hqry & Hend).
    rewrite <- Hv in Hlow, Hsafe, Hfrag, Hqry, Hend.
    by apply normalize_full_url_fixed_iff.
  - split; [|intros _; by apply normalize_full_url_unparsed].
    intros _. destruct u as [|a u]; [by revert Hp; cbn|].
    unfold normalize_full_url. rewrite Hp.
    split; [|by left].
    rewrite <- (strip_lower_twice (a :: u)) at 2.
    by rewrite strip_lower, lower_idem.
Qed.

End NormalizeFacts.

(** ** C1: normalization twice *)

Section C1.
#[local] Existing Instance any_bracketed_host.

(** C1 (counterexample): a URL with a port.  Its normalized form
    [example.com:8080/page] is read as scheme [example.com] and path
    [8080/page] by the second normalization. *)
Lemma normalize_full_url_not_idempotent :
  normalize_full_url "http://example.com:8080/page" = "example.com:8080/page"
  ∧ normalize_full_url (normalize_full_url "http://example.com:8080/page")
    = "8080/page"
  ∧ normalize_full_url (normalize_full_url "http://example.com:8080/page")
    ≠ normalize_full_url "http://example.com:8080/page".
Proof.
  split; [reflexivity|]. split; [reflexivity|]. vm_compute. discriminate.
Qed.

Example normalize_full_url_doc :
  normalize_full_url "https://www.example.com/page/?utm=123#section"
  = "example.com/page".
Proof. reflexivity. Qed.

Example get_path_parts_doc :
  get_path_parts "/service-area/event-planner/brooklyn/"
  = [ "service-area" : str; "event-planner" : str; "brooklyn" : str ].
Proof. reflexivity. Qed.

(** The other ways in which a second normalization changes the result. *)
Example normalize_twice_double_slash :
  normalize_full_url "http:////x" = "//x" ∧ normalize_full_url "//x" = "x".
Proof. split; reflexivity. Qed.

Example normalize_twice_params :
  normalize_full_url "http://a.com/b;c/;d" = "a.com/b;c"
  ∧ normalize_full_url "a.com/b;c" = "a.com/b".
Proof. split; reflexivity. Qed.

Example normalize_twice_blank :
  normalize_full_url "http://a.com/b /" = "a.com/b "
  ∧ normalize_full_url "a.com/b " = "a.com/b".
Proof. split; reflexivity. Qed.

(** A colon after the first slash and a semicolon before the last one do
    no harm, and a text on which [urlparse] raises is returned as it is. *)
Example normalize_twice_fixed :
  normalize_full_url "example.com/a:b" = "example.com/a:b"
  ∧ normalize_full_url "a.com/b;c/d" = "a.com/b;c/d"
  ∧ normalize_full_url "http:////[" = "//["
  ∧ normalize_full_url "//[" = "//[".
Proof. repeat split; reflexivity. Qed.

End C1.

(** ** C9: stripping the legacy suffix twice *)

Section C9.
Context `{BracketCheck} `{Constants}.

Lemma existsb_false_find {A} (f : A → bool) l :
  existsb f l = false → List.find f l = None.
Proof.
  induction l as [|x l IH]; simpl; [done|].
  destruct (f x); [done | exact IH].
Qed.

(** A URL that is not a legacy variant is returned as it is. *)
Lemma strip_legacy_suffix_not_legacy v :
  is_legacy_variant v = false → strip_legacy_suffix v = v.
Proof.
  unfold is_legacy_variant, strip_legacy_suffix, get_slug_last.
  destruct v as [|a v]; [done|]. intros Hv.
  destruct (get_path_parts (a :: v)) as [|p ps]; [done|].
  by rewrite (existsb_false_find _ _ Hv).
Qed.

End C9.

Section C9Examples.
#[local] Existing Instance any_bracketed_host.
#[local] Existing Instance spec_constants.


Example strip_legacy_suffix_tests :
  strip_legacy_suffix "/services/event-planning-old/" = "/services/event-planning"
  ∧ strip_legacy_suffix "/page-2/" = "/page"
  ∧ strip_legacy_suffix "/normal-page/" = "/normal-page/".
Proof. repeat split; reflexivity. Qed.

End C9Examples.

(** ** C8: the safe-pair decision does not depend on the order of a pair *)

Lemma tokens_inter_comm (a b : gset str) : a ∩ b = b ∩ a.
Proof. apply intersection_comm_L. Qed.

Lemma tokens_union_comm (a b : gset str) : a ∪ b = b ∪ a.
Proof. apply union_comm_L. Qed.

Section C8.
Context `{BracketCheck} `{Constants}.

Import PageClassification.

Lemma str_eqb_sym (a b : str) : str_eqb a b = str_eqb b a.
Proof. unfold str_eqb. apply bool_decide_ext. split; congruence. Qed.

Lemma slug_similarity_sym url1 url2 :
  slug_similarity url1 url2 = slug_similarity url2 url1.
Proof.
  unfold slug_similarity.
  set (t1 := extract_slug_tokens url1 true).
  set (t2 := extract_slug_tokens url2 true).
  rewrite (andb_comm (bool_decide (t1 = ∅))).
  by rewrite (tokens_inter_comm t2 t1), (tokens_union_comm t2 t1).
Qed.

Lemma _is_legacy_pair_sym path_a path_b :
  _is_legacy_pair path_a path_b = _is_legacy_pair path_b path_a.
Proof.
  unfold _is_legacy_pair.
  by rewrite (str_eqb_sym (strip_legacy_suffix path_a)), (str_eqb_sym path_a).
Qed.

Lemma _are_product_siblings_sym page_a page_b :
  _are_product_siblings page_a page_b = _are_product_siblings page_b page_a.
Proof.
  unfold _are_product_siblings.
  rewrite (str_eqb_sym (parent_path page_b)), (str_eqb_sym (slug_last page_b)).
  rewrite (_is_legacy_pair_sym (normalized_path page_b)).
  rewrite (slug_similarity_sym (normalized_path page_b)).
  destruct (str_eqb (classified_type page_a) "product"),
    (str_eqb (classified_type page_b) "product"),
    (is_legacy_variant page_a), (is_legacy_variant page_b); reflexivity.
Qed.

Lemma _are_parent_child_sym page_a page_b :
  _are_parent_child page_a page_b = _are_parent_child page_b page_a.
Proof.
  unfold _are_parent_child.
  destruct (is_direct_parent (normalized_path page_a) (normalized_path page_b)
            && has_distinct_subtopic (normalized_path page_b)
                 (normalized_path page_a)),
    (is_direct_parent (normalized_path page_b) (normalized_path page_a)
     && has_distinct_subtopic (normalized_path page_a)
          (normalized_path page_b)); reflexivity.
Qed.

Lemma _are_geographic_variants_sym page_a page_b :
  _are_geographic_variants page_a page_b
  = _are_geographic_variants page_b page_a.
Proof.
  unfold _are_geographic_variants.
  rewrite (str_eqb_sym (normalize_geo (geo_node page_b))).
  destruct (str_eqb (classified_type page_a) "location"),
    (str_eqb (classified_type page_b) "location"),
    (nonempty (geo_node page_a)), (nonempty (geo_node page_b)); reflexivity.
Qed.

(** C8: for all classifications [a] and [b], the pair [(a, b)] is judged
    safe exactly when [(b, a)] is; each of the three filters (product
    siblings, direct parent and child, geographic variants) is symmetric. *)
Theorem is_safe_pair_symmetric (page_a page_b : PC) :
  (_is_safe_pair page_a page_b = true ↔ _is_safe_pair page_b page_a = true)
  ∧ _are_product_siblings page_a page_b = _are_product_siblings page_b page_a
  ∧ _are_parent_child page_a page_b = _are_parent_child page_b page_a
  ∧ _are_geographic_variants page_a page_b
    = _are_geographic_variants page_b page_a.
Proof.
  split; [|auto using _are_product_siblings_sym, _are_parent_child_sym,
             _are_geographic_variants_sym].
  unfold _is_safe_pair.
  by rewrite (_are_product_siblings_sym page_b), (_are_parent_child_sym page_b),
       (_are_geographic_variants_sym page_b).
Qed.

End C8.

(** ** C2: the date rule of the classifier *)

Section C2.
Context `{BracketCheck} `{Constants}.

(** C2 (amended): for a page that the homepage and location rules do not
    match, the date rule fires exactly when the path has at least three
    segments and its first two segments are made of digits; such a page is
    classified [blog], and without the date rule only the blog folders give
    [blog]. *)
Theorem classify_blog_by_date_rule (path : str) (parts : list str) (depth : Z)
    (folder_root : str) (post_type : option str) (is_homepage_flag : bool) :
  str_eqb path "/" || is_homepage_flag = false →
  mem folder_root (FOLDER_ROOTS "location") = false →
  (date_rule parts = true →
   _classify_page_type path parts depth folder_root post_type is_homepage_flag
   = "blog")
  ∧ (date_rule parts = false →
     (_classify_page_type path parts depth folder_root post_type
        is_homepage_flag = "blog"
      ↔ mem folder_root (FOLDER_ROOTS "blog") = true)).
Proof.
  intros Hhome Hloc. unfold _classify_page_type, date_rule.
  rewrite Hhome, Hloc. split; intros Hdate; rewrite Hdate; [done|].
  destruct (mem folder_root (FOLDER_ROOTS "blog")); [done|].
  split; [|done].
  repeat match goal with
         | |- context [if ?c then _ else _] => destruct c
         end; discriminate.
Qed.

End C2.

Section C2Examples.
#[local] Existing Instance any_bracketed_host.
#[local] Existing Instance spec_constants.

(** C2 (counterexample): a monthly archive begins with a year and a month
    and is not classified [blog]; a path of three segments that begins
    with two one-digit segments is, by the date rule. *)
Lemma date_rule_differs_from_year_month :
  (spec_year_month_prefix (get_path_parts "https://example.com/2024/02/") = true
   ∧ date_rule (get_path_parts "https://example.com/2024/02/") = false
   ∧ classified_as "https://example.com/2024/02/" = Some ("uncategorized" : str))
  ∧ (spec_year_month_prefix (get_path_parts "https://example.com/1/2/x/") = false
     ∧ date_rule (get_path_parts "https://example.com/1/2/x/") = true
     ∧ classified_as "https://example.com/1/2/x/" = Some ("blog" : str)).
Proof. repeat split; vm_compute; reflexivity. Qed.

Lemma classify_blog_by_date_rule_witness :
  (date_rule [ "2024" : str; "02" : str; "post-title" : str ] = true →
   _classify_page_type "/2024/02/post-title"
     [ "2024" : str; "02" : str; "post-title" : str ] 3 "2024" None false
   = "blog")
  ∧ (date_rule [ "2024" : str; "02" : str; "post-title" : str ] = false →
     (_classify_page_type "/2024/02/post-title"
        [ "2024" : str; "02" : str; "post-title" : str ] 3 "2024" None false
      = "blog"
      ↔ mem "2024" (FOLDER_ROOTS "blog") = true)).
Proof.
  apply (classify_blog_by_date_rule "/2024/02/post-title"
           [ "2024" : str; "02" : str; "post-title" : str ] 3 "2024" None false);
    reflexivity.
Defined.

Example classify_page_type_tests :
  _classify_page_type "/" [] 0 [] None false = "homepage"
  ∧ _classify_page_type "/locations/manhattan/"
      [ "locations" : str; "manhattan" : str ] 2 "locations" None false
    = "location"
  ∧ _classify_page_type "/shop/dance/" [ "shop" : str; "dance" : str ] 2 "shop"
      None false = "category_shop"
  ∧ _classify_page_type "/product-category/dance/jazz/"
      [ "product-category" : str; "dance" : str; "jazz" : str ] 3
      "product-category" None false = "product"
  ∧ _classify_page_type "/my-account/orders/"
      [ "my-account" : str; "orders" : str ] 2 "my-account" None false
    = "utility".
Proof. repeat split; reflexivity. Qed.

End C2Examples.

(** ** Dictionaries and sorting *)

Section DictFacts.
Context {K V : Type} `{EqDecision K}.
Implicit Types (d : list (K * V)) (k : K) (v : V).

Lemma dict_get_set_eq k v d : dict_get k (dict_set k v d) = Some v.
Proof.
  induction d as [|[k' v'] d IH]; simpl.
  - by rewrite decide_True.
  - destruct (decide (k = k')) as [->|Hne]; simpl.
    + by rewrite decide_True.
    + by rewrite decide_False.
Qed.

Lemma dict_get_set_ne k k' v d :
  k ≠ k' → dict_get k' (dict_set k v d) = dict_get k' d.
Proof.
  intros Hne. induction d as [|[k0 v0] d IH]; simpl.
  - by rewrite decide_False by congruence.
  - destruct (decide (k = k0)) as [->|Hk]; simpl.
    + by rewrite !decide_False by congruence.
    + destruct (decide (k' = k0)); [done | exact IH].
Qed.

Lemma dict_get_elem k v d : dict_get k d = Some v → (k, v) ∈ d.
Proof.
  induction d as [|[k0 v0] d IH]; simpl; [done|].
  destruct (decide (k = k0)) as [->|Hk].
  - intros [= ->]. left.
  - intros Hd. right. auto.
Qed.

Lemma dict_set_elem k v k0 v0 d :
  (k, v) ∈ dict_set k0 v0 d → (k = k0 ∧ v = v0) ∨ (k, v) ∈ d.
Proof.
  induction d as [|[k1 v1] d IH]; simpl.
  - intros Hin. apply list_elem_of_singleton in Hin. injection Hin. auto.
  - destruct (decide (k0 = k1)) as [->|Hk]; intros Hin;
      apply elem_of_cons in Hin as [Heq|Hin].
    + injection Heq. auto.
    + right. by right.
    + right. rewrite Heq. left.
    + destruct (IH Hin) as [?|?]; [by left|]. right. by right.
Qed.

End DictFacts.

Section SortFacts.
Context {A : Type} (le : A → A → bool).

Lemma insert_by_elem x y l : x ∈ insert_by le y l ↔ x = y ∨ x ∈ l.
Proof.
  induction l as [|z l IH]; simpl.
  - rewrite list_elem_of_singleton, elem_of_nil. tauto.
  - destruct (le y z).
    + by rewrite elem_of_cons.
    + rewrite !elem_of_cons, IH. tauto.
Qed.

Lemma sort_by_elem x l : x ∈ sort_by le l ↔ x ∈ l.
Proof.
  induction l as [|y l IH]; simpl; [done|].
  by rewrite insert_by_elem, elem_of_cons, IH.
Qed.

Lemma insert_by_length x l : length (insert_by le x l) = S (length l).
Proof.
  induction l as [|y l IH]; simpl; [done|].
  destruct (le x y); simpl; by rewrite ?IH.
Qed.

Lemma sort_by_length l : length (sort_by le l) = length l.
Proof.
  induction l as [|y l IH]; simpl; [done|].
  by rewrite insert_by_length, IH.
Qed.

End SortFacts.

(** ** C6: the size cap of a cluster *)

Section C6.
Context `{BracketCheck} `{Constants}.

Lemma split_large_cluster_length pages key :
  length (_split_large_cluster pages key) ≤ MAX_CLUSTER_SIZE.
Proof.
  unfold _split_large_cluster.
  destruct ((1 <? length (folder_groups pages))
            && (length (max_by_len (map snd (folder_groups pages)))
                <=? MAX_CLUSTER_SIZE));
    rewrite length_take; lia.
Qed.

Lemma build_cluster_cap key acc :
  Cluster.page_count (build_cluster key acc) ≤ MAX_CLUSTER_SIZE
  ∧ length (Cluster.pages (build_cluster key acc))
    = Cluster.page_count (build_cluster key acc).
Proof.
  unfold build_cluster. cbn [Cluster.page_count Cluster.pages].
  split; [|done].
  destruct (MAX_CLUSTER_SIZE <? length (map snd (Acc.pages acc))) eqn:Hlt.
  - apply split_large_cluster_length.
  - by apply Nat.ltb_ge in Hlt.
Qed.

Lemma run_phase6_built issues c :
  c ∈ run_phase6 issues → ∃ key acc, c = build_cluster key acc.
Proof.
  unfold run_phase6. destruct issues as [|i issues]; [by rewrite elem_of_nil|].
  rewrite sort_by_elem, list_elem_of_fmap. intros [[k a] [-> _]]. eauto.
Qed.

(** C6: for every cluster that phase 6 emits, on all inputs, the number of
    pages is at most 15, whether the merged page set was within the cap or
    was cut down by [_split_large_cluster]. *)
Theorem cluster_size_cap (issues : list Issue.t) (c : Cluster.t) :
  MAX_CLUSTER_SIZE = 15 →
  c ∈ run_phase6 issues →
  Cluster.page_count c ≤ 15
  ∧ length (Cluster.pages c) = Cluster.page_count c.
Proof.
  intros Hmax Hc. destruct (run_phase6_built _ _ Hc) as (key & acc & ->).
  rewrite <- Hmax. apply build_cluster_cap.
Qed.

End C6.

(** ** C7: what [_split_large_cluster] keeps *)

Section C7.
Context `{BracketCheck} `{Constants}.

Lemma group_append_of r d page :
  group_of r (group_append d page)
  = group_of r d ++ under_root r [page].
Proof.
  unfold group_append, group_of, under_root, str_eqb. simpl.
  destruct (decide (PageClassification.folder_root page = r)) as [<-|Hne].
  - rewrite dict_get_set_eq, bool_decide_true by done. done.
  - rewrite dict_get_set_ne, bool_decide_false by done.
    by rewrite app_nil_r.
Qed.

Lemma under_root_app r l1 l2 :
  under_root r (l1 ++ l2) = under_root r l1 ++ under_root r l2.
Proof. apply List.filter_app. Qed.

Lemma fold_group_of r pages d :
  group_of r (fold_left group_append pages d)
  = group_of r d ++ under_root r pages.
Proof.
  revert d. induction pages as [|p pages IH]; intros d; cbn [fold_left].
  - unfold under_root. simpl. by rewrite app_nil_r.
  - rewrite IH, group_append_of.
    change (p :: pages) with ([p] ++ pages).
    by rewrite under_root_app, app_assoc.
Qed.

Lemma folder_groups_of r pages :
  group_of r (folder_groups pages) = under_root r pages.
Proof. unfold folder_groups. by rewrite fold_group_of. Qed.

(** The keys of a dictionary built by assignments are distinct, so each
    entry is the one that a lookup finds. *)
Lemma dict_set_keys {V} (k : str) (v : V) d :
  NoDup (map fst d) → NoDup (map fst (dict_set k v d)).
Proof.
  induction d as [|[k' v'] d IH]; simpl; intros Hd.
  - apply NoDup_singleton.
  - destruct (decide (k = k')) as [->|Hne]; simpl; [done|].
    apply NoDup_cons in Hd as [Hk' Hd]. apply NoDup_cons. split; [|auto].
    intros Hin. apply Hk'.
    apply list_elem_of_fmap in Hin as [[k1 v1] [-> Hin]].
    apply dict_set_elem in Hin as [[-> _]|Hin]; [done|].
    apply list_elem_of_fmap. by exists (k1, v1).
Qed.

Lemma dict_elem_get {V} (k : str) (v : V) d :
  NoDup (map fst d) → (k, v) ∈ d → dict_get k d = Some v.
Proof.
  induction d as [|[k' v'] d IH]; simpl; intros Hd Hin.
  - by apply elem_of_nil in Hin.
  - apply NoDup_cons in Hd as [Hk' Hd].
    apply elem_of_cons in Hin as [[= -> ->]|Hin].
    + by rewrite decide_True.
    + rewrite decide_False; [auto|]. intros ->. apply Hk'.
      apply list_elem_of_fmap. by exists (k', v).
Qed.

Lemma folder_groups_keys pages : NoDup (map fst (folder_groups pages)).
Proof.
  unfold folder_groups.
  assert (Hgen : ∀ d, NoDup (map fst d) →
            NoDup (map fst (fold_left group_append pages d))).
  { induction pages as [|p pages IH]; intros d Hd; simpl; [done|].
    apply IH. by apply dict_set_keys. }
  apply Hgen. constructor.
Qed.

Lemma folder_groups_values g pages :
  g ∈ map snd (folder_groups pages) → ∃ r, g = under_root r pages.
Proof.
  intros Hg. apply list_elem_of_fmap in Hg as [[r g'] [-> Hin]].
  exists r. simpl.
  apply dict_elem_get in Hin; [|apply folder_groups_keys].
  pose proof (folder_groups_of r pages) as Hr.
  unfold group_of in Hr. by rewrite Hin in Hr.
Qed.

Lemma folder_groups_nonempty p pages : folder_groups (p :: pages) ≠ [].
Proof.
  pose proof (folder_groups_of (PageClassification.folder_root p) (p :: pages))
    as Hr.
  intros Hnil. rewrite Hnil in Hr. unfold group_of, under_root in Hr.
  simpl in Hr. unfold str_eqb in Hr. by rewrite bool_decide_true in Hr.
Qed.

Lemma max_by_len_spec (g : list PC) gs :
  max_by_len (g :: gs) ∈ g :: gs
  ∧ ∀ g', g' ∈ g :: gs → length g' ≤ length (max_by_len (g :: gs)).
Proof.
  simpl. revert g. induction gs as [|x gs IH]; intros g; simpl.
  - split; [left|]. intros g' Hg'. apply list_elem_of_singleton in Hg'.
    by subst.
  - destruct (IH (if length g <? length x then x else g)) as [Hin Hmax].
    split.
    + apply elem_of_cons in Hin as [Heq|Hin].
      * rewrite Heq. destruct (length g <? length x); [right; left | left].
      * right. by right.
    + intros g' Hg'.
      assert (Hx : length x ≤ length (fold_left
                (fun best g'0 => if length best <? length g'0 then g'0 else best)
                gs (if length g <? length x then x else g))).
      { destruct (length g <? length x) eqn:Hlt.
        - apply Hmax. left.
        - apply Nat.ltb_ge in Hlt. etrans; [|apply Hmax; left]. done. }
      assert (Hgl : length g ≤ length (fold_left
                (fun best g'0 => if length best <? length g'0 then g'0 else best)
                gs (if length g <? length x then x else g))).
      { destruct (length g <? length x) eqn:Hlt.
        - apply Nat.ltb_lt in Hlt. lia.
        - apply Hmax. left. }
      apply elem_of_cons in Hg' as [->|Hg']; [done|].
      apply elem_of_cons in Hg' as [->|Hg']; [done|].
      apply Hmax. by right.
Qed.

(** C7 (amended): the group that the split considers is a largest
    folder-root sub-group of the pages, whatever its size.  With at least
    two sub-groups and that largest one within the cap, the cluster keeps
    it; in every other case, also when a smaller sub-group would fit, the
    first [MAX_CLUSTER_SIZE] pages in their order are kept. *)
Theorem split_large_cluster_largest_group (pages : list PC) (key : str) :
  let groups := folder_groups pages in
  let largest := max_by_len (map snd groups) in
  (pages ≠ [] → ∃ r, largest = under_root r pages)
  ∧ (∀ r, length (under_root r pages) ≤ length largest)
  ∧ _split_large_cluster pages key
    = if (1 <? length groups) && (length largest <=? MAX_CLUSTER_SIZE)
      then largest else take MAX_CLUSTER_SIZE pages.
Proof.
  cbv zeta. split; [|split].
  - destruct pages as [|p pages]; [done|]. intros _.
    pose proof (folder_groups_nonempty p pages) as Hne.
    destruct (folder_groups (p :: pages)) as [|[r g] d] eqn:Hd; [done|].
    destruct (max_by_len_spec g (map snd d)) as [Hin _].
    apply (folder_groups_values _ (p :: pages)). by rewrite Hd.
  - intros r. destruct (under_root r pages) as [|q qs] eqn:Hr; [simpl; lia|].
    pose proof (folder_groups_of r pages) as Hg. unfold group_of in Hg.
    destruct (dict_get r (folder_groups pages)) as [g|] eqn:Hget;
      [|by rewrite Hr in Hg].
    simpl in Hg. subst g. apply dict_get_elem in Hget.
    destruct (folder_groups pages) as [|[r0 g0] d]; [by apply elem_of_nil in Hget|].
    destruct (max_by_len_spec g0 (map snd d)) as [_ Hmax].
    rewrite <- Hr. apply Hmax.
    change (g0 :: map snd d) with (map snd ((r0, g0) :: d)).
    apply list_elem_of_fmap. by exists (r, under_root r pages).
  - unfold _split_large_cluster.
    destruct (1 <? length (folder_groups pages)); [|done]. simpl.
    destruct (length (max_by_len (map snd (folder_groups pages)))
              <=? MAX_CLUSTER_SIZE) eqn:Hle; [|done].
    apply Nat.leb_le in Hle. by rewrite take_ge.
Qed.

End C7.

(** ** Phase 6 on concrete issues *)

Section Phase6Examples.
#[local] Existing Instance any_bracketed_host.
#[local] Existing Instance spec_constants.

(** C3 (the code at the failing input): the bucket and the badge of a
    cluster are those of the first issue that was merged into it.  With a
    validated issue in second place the cluster stays a potential site
    duplication; with the two issues swapped it is a confirmed search
    conflict. *)
Theorem cluster_bucket_follows_first_issue :
  map cluster_summary (run_phase6 [issue_plain; issue_validated])
  = [ ("CONTEXT_DUPLICATE:catering" : str, Some ("SITE_DUPLICATION" : str),
       Some ("POTENTIAL" : str), 3) ]
  ∧ map cluster_summary (run_phase6 [issue_validated; issue_plain])
    = [ ("CONTEXT_DUPLICATE:catering" : str, Some ("SEARCH_CONFLICT" : str),
         Some ("CONFIRMED" : str), 3) ].
Proof. split; vm_compute; reflexivity. Qed.

(** C7 (counterexample): the sub-group under [/b/] has one page and fits,
    yet the cluster keeps the first fifteen pages, all of them under
    [/a/]. *)
Lemma split_large_cluster_skips_fitting_group :
  under_root "b" seventeen_pages = [one_b]
  ∧ length (under_root "a" seventeen_pages) = 16
  ∧ _split_large_cluster seventeen_pages "TAXONOMY_CLASH:p" = take 15 sixteen_a
  ∧ _split_large_cluster seventeen_pages "TAXONOMY_CLASH:p" ≠ [one_b].
Proof.
  split; [vm_compute; reflexivity|]. split; [vm_compute; reflexivity|].
  split; [vm_compute; reflexivity|]. vm_compute. discriminate.
Qed.

Lemma cluster_size_cap_witness :
  Cluster.page_count big_cluster ≤ 15
  ∧ length (Cluster.pages big_cluster) = Cluster.page_count big_cluster.
Proof.
  apply (cluster_size_cap [big_issue] big_cluster).
  - reflexivity.
  - vm_compute. left.
Defined.

Example big_cluster_summary :
  cluster_summary big_cluster
  = ("TAXONOMY_CLASH:p" : str, Some ("SITE_DUPLICATION" : str),
     Some ("POTENTIAL" : str), 15).
Proof. vm_compute. reflexivity. Qed.

End Phase6Examples.

(** ** C10: the pages of a wrong-winner issue *)

Section C10.
Context `{BracketCheck} `{Constants}.

Lemma take_2_length {A} (l : list A) : length (take 2 l) ≤ 2.
Proof. rewrite length_take. lia. Qed.

Lemma detect_intent_mismatch_pages query winner cls issue :
  detect_intent_mismatch query winner cls = Some issue →
  winner_first winner issue.
Proof.
  unfold detect_intent_mismatch.
  destruct (str_eqb _ _ && type_in _ _); [|done].
  destruct (List.filter _ cls) as [|b bs]; [done|].
  intros [= <-]. unfold winner_first. cbn [Issue.pages Issue.conflict_type].
  split; [done|]. split.
  - pose proof (take_2_length (b :: bs)). simpl in *. lia.
  - intros [Heq|Heq]; discriminate Heq.
Qed.

Lemma detect_page_type_mismatch_pages query winner cls issue :
  detect_page_type_mismatch query winner cls = Some issue →
  winner_first winner issue.
Proof.
  unfold detect_page_type_mismatch.
  destruct (is_plural_query _ && str_eqb _ _); [|done].
  destruct (List.filter _ cls) as [|b bs]; [done|].
  intros [= <-]. unfold winner_first. cbn [Issue.pages Issue.conflict_type].
  simpl. split; [done|]. split; [lia|done].
Qed.

Lemma detect_homepage_hoarding_pages query winner cls issue :
  detect_homepage_hoarding query winner cls = Some issue →
  winner_first winner issue.
Proof.
  unfold detect_homepage_hoarding.
  destruct (str_eqb _ _); [|done].
  destruct (List.filter _ cls) as [|b bs]; [done|].
  intros [= <-]. unfold winner_first. cbn [Issue.pages Issue.conflict_type].
  split; [done|]. split.
  - pose proof (take_2_length (b :: bs)). simpl in *. lia.
  - intros [Heq|Heq]; discriminate Heq.
Qed.

Lemma detect_geographic_mismatch_pages query winner cls issue :
  detect_geographic_mismatch query winner cls = Some issue →
  winner_first winner issue.
Proof.
  unfold detect_geographic_mismatch.
  destruct (_ && str_eqb _ _); [|done].
  destruct (_extract_city_from_query query) as [[|q qc]|]; [done| |done].
  destruct (nonempty _ && nonempty _ && negb _); [|done].
  destruct (List.filter _ cls) as [|b bs]; [done|].
  intros [= <-]. unfold winner_first. cbn [Issue.pages Issue.conflict_type].
  simpl. split; [done|]. split; [lia|done].
Qed.

Lemma detect_wrong_winner_pages query winner rows cls issue :
  _detect_wrong_winner query winner rows cls = Some issue →
  winner_first winner issue.
Proof.
  unfold _detect_wrong_winner.
  destruct (detect_intent_mismatch query winner cls) as [i1|] eqn:H1.
  { intros [= <-]. eauto using detect_intent_mismatch_pages. }
  destruct (detect_page_type_mismatch query winner cls) as [i2|] eqn:H2.
  { intros [= <-]. eauto using detect_page_type_mismatch_pages. }
  destruct (detect_homepage_hoarding query winner cls) as [i3|] eqn:H3.
  { intros [= <-]. eauto using detect_homepage_hoarding_pages. }
  apply detect_geographic_mismatch_pages.
Qed.

(** The first row after the sort has the most impressions. *)
Lemma sorted_head_most_impressions rows winner rest :
  sort_by by_impressions_desc rows = winner :: rest →
  ∀ r, r ∈ rows → (Row.impressions r ≤ Row.impressions winner)%Z.
Proof.
  revert winner rest. induction rows as [|x rows IH]; intros winner rest Hs r Hr.
  - by apply elem_of_nil in Hr.
  - simpl in Hs.
    destruct (sort_by by_impressions_desc rows) as [|w ws] eqn:Hsorted.
    + simpl in Hs. injection Hs as <- <-.
      assert (rows = []) as ->.
      { destruct rows as [|y rows']; [done|].
        pose proof (sort_by_length by_impressions_desc (y :: rows')) as Hl.
        rewrite Hsorted in Hl. done. }
      apply list_elem_of_singleton in Hr. subst. done.
    + specialize (IH w ws eq_refl). simpl in Hs.
      unfold by_impressions_desc at 1 in Hs.
      destruct (Row.impressions w <=? Row.impressions x)%Z eqn:Hle.
      * injection Hs as <- <-. apply Z.leb_le in Hle.
        apply elem_of_cons in Hr as [->|Hr]; [done|].
        specialize (IH r Hr). lia.
      * injection Hs as <- <-. apply Z.leb_gt in Hle.
        apply elem_of_cons in Hr as [->|Hr]; [lia|]. by apply IH.
Qed.

(** The issues of phase 5 come from the analysis of one query group. *)
Lemma run_phase5_inv cls data brand title issue :
  issue ∈ run_phase5 cls data brand title →
  ∃ query rows winner,
    (query, rows) ∈ query_groups cls data brand title
    ∧ head (sort_by by_impressions_desc rows) = Some winner
    ∧ winner ∈ rows
    ∧ (∀ r, r ∈ rows → (Row.impressions r ≤ Row.impressions winner)%Z)
    ∧ _detect_wrong_winner query winner
        (sort_by by_impressions_desc rows) cls = Some issue.
Proof.
  unfold run_phase5. destruct data as [|row0 data]; [by rewrite elem_of_nil|].
  rewrite list_elem_of_omap. intros ([query rows] & Hin & Hissue).
  unfold analyze_query in Hissue.
  destruct (sort_by by_impressions_desc rows) as [|winner rest] eqn:Hsorted;
    [done|].
  exists query, rows, winner. split; [done|]. split; [by rewrite Hsorted|].
  split.
  { apply (sort_by_elem by_impressions_desc). rewrite Hsorted. left. }
  split; [by eapply sorted_head_most_impressions | by rewrite Hsorted].
Qed.

Lemma detect_wrong_winner_query query winner rows cls issue :
  _detect_wrong_winner query winner rows cls = Some issue →
  issue_meta Metadata.query issue = Some query.
Proof.
  unfold _detect_wrong_winner.
  destruct (detect_intent_mismatch query winner cls) as [i1|] eqn:H1.
  { intros [= <-]. revert H1. unfold detect_intent_mismatch.
    destruct (str_eqb _ _ && type_in _ _); [|done].
    destruct (List.filter _ cls) as [|b bs]; [done|]. by intros [= <-]. }
  destruct (detect_page_type_mismatch query winner cls) as [i2|] eqn:H2.
  { intros [= <-]. revert H2. unfold detect_page_type_mismatch.
    destruct (is_plural_query _ && str_eqb _ _); [|done].
    destruct (List.filter _ cls) as [|b bs]; [done|]. by intros [= <-]. }
  destruct (detect_homepage_hoarding query winner cls) as [i3|] eqn:H3.
  { intros [= <-]. revert H3. unfold detect_homepage_hoarding.
    destruct (str_eqb _ _); [|done].
    destruct (List.filter _ cls) as [|b bs]; [done|]. by intros [= <-]. }
  unfold detect_geographic_mismatch.
  destruct (_ && str_eqb _ _); [|done].
  destruct (_extract_city_from_query query) as [[|q qc]|]; [done| |done].
  destruct (nonempty _ && nonempty _ && negb _); [|done].
  destruct (List.filter _ cls) as [|b bs]; [done|]. by intros [= <-].
Qed.

(** C10: every issue that wrong-winner detection emits was raised for
    the query that it records, by [_detect_wrong_winner] on the rows of
    that query; the winning row is the first of these rows in the order
    of descending impressions, so no row of the query has more
    impressions; the first of the pages of the issue is the page of the
    winning row; the issue lists three pages at most, and exactly two for
    PAGE_TYPE_MISMATCH and GEOGRAPHIC_MISMATCH. *)
Theorem wrong_winner_pages (classifications : list PC)
    (gsc_data : list RawRow) (brand_name homepage_title : option str)
    (issue : Issue.t) :
  issue ∈ run_phase5 classifications gsc_data brand_name homepage_title →
  ∃ query rows winner,
    issue_meta Metadata.query issue = Some query
    ∧ (query, rows)
      ∈ query_groups classifications gsc_data brand_name homepage_title
    ∧ head (sort_by by_impressions_desc rows) = Some winner
    ∧ _detect_wrong_winner query winner (sort_by by_impressions_desc rows)
        classifications = Some issue
    ∧ winner ∈ rows
    ∧ (∀ r, r ∈ rows → (Row.impressions r ≤ Row.impressions winner)%Z)
    ∧ head (Issue.pages issue) = Some (Row.page_class winner)
    ∧ length (Issue.pages issue) ≤ 3
    ∧ (Issue.conflict_type issue = "PAGE_TYPE_MISMATCH"
       ∨ Issue.conflict_type issue = "GEOGRAPHIC_MISMATCH" →
       length (Issue.pages issue) = 2).
Proof.
  intros Hin.
  apply run_phase5_inv in Hin as (query & rows & winner & Hg & Hh & Hw & Hm & Hd).
  exists query, rows, winner.
  split; [by eapply detect_wrong_winner_query|].
  repeat (split; [done|]).
  by apply detect_wrong_winner_pages in Hd.
Qed.

End C10.

Section Phase5Examples.
#[local] Existing Instance any_bracketed_host.
#[local] Existing Instance spec_constants.

Example shop_issue_summary :
  map (fun i => (Issue.conflict_type i,
                 map PageClassification.page_id (Issue.pages i))) shop_issues
  = [ ("PAGE_TYPE_MISMATCH" : str, [2; 1]%Z) ].
Proof. vm_compute. reflexivity. Qed.

Lemma wrong_winner_pages_witness :
  ∃ query rows winner,
    issue_meta Metadata.query shop_issue = Some query
    ∧ (query, rows)
      ∈ query_groups shop_classifications shop_traffic
          (Some ("Example" : str)) (Some ("Example | Dance supplies" : str))
    ∧ head (sort_by by_impressions_desc rows) = Some winner
    ∧ _detect_wrong_winner query winner (sort_by by_impressions_desc rows)
        shop_classifications = Some shop_issue
    ∧ winner ∈ rows
    ∧ (∀ r, r ∈ rows → (Row.impressions r ≤ Row.impressions winner)%Z)
    ∧ head (Issue.pages shop_issue) = Some (Row.page_class winner)
    ∧ length (Issue.pages shop_issue) ≤ 3
    ∧ (Issue.conflict_type shop_issue = "PAGE_TYPE_MISMATCH"
       ∨ Issue.conflict_type shop_issue = "GEOGRAPHIC_MISMATCH" →
       length (Issue.pages shop_issue) = 2).
Proof.
  apply (wrong_winner_pages shop_classifications shop_traffic
           (Some ("Example" : str)) (Some ("Example | Dance supplies" : str))
           shop_issue).
  vm_compute. left.
Defined.

Example query_helpers_tests :
  (classify_query_intent "hire event planner").1 = "transactional"
  ∧ (classify_query_intent "event planning guide").1 = "informational"
  ∧ (classify_query_intent "top event planning companies").1 = "listicle"
  ∧ is_plural_query "dance shoes" = true
  ∧ is_plural_query "jazz shoe model x" = false
  ∧ is_plural_query "glass" = false
  ∧ is_plural_query "canvas" = true
  ∧ _extract_city_from_query "event planner in new york" = Some ("new york" : str)
  ∧ _extract_city_from_query "cabin rentals near brooklyn" = Some ("brooklyn" : str)
  ∧ _extract_city_from_query "cabin rentals" = None.
Proof. repeat split; vm_compute; reflexivity. Qed.

End Phase5Examples.

(** ** C4: the severity of a confirmed conflict *)

Section C4.
Import Phase4.

Lemma at_least_true t x : at_least t x = true ↔ (t <= x)%Q.
Proof. apply Qle_bool_iff. Qed.

Lemma at_least_false t x : at_least t x = false ↔ (x < t)%Q.
Proof.
  unfold at_least. split.
  - intros Hf. apply Qnot_le_lt. intros Hle.
    apply Qle_bool_iff in Hle. congruence.
  - intros Hlt. destruct (Qle_bool t x) eqn:Hb; [|done].
    apply Qle_bool_iff in Hb. by apply Qlt_not_le in Hlt.
Qed.

(** The rule on any list of shares. *)
Lemma calculate_severity_cases (shares : list Q) :
  let strong := length (List.filter (at_least (10 # 100)) shares) in
  let secondary := List.nth 1 shares 0%Q in
  (3 ≤ strong → _calculate_severity shares = "SEVERE")
  ∧ (strong < 3 → (35 # 100 <= secondary)%Q →
     _calculate_severity shares = "HIGH")
  ∧ (strong < 3 → (15 # 100 <= secondary)%Q → (secondary < 35 # 100)%Q →
     _calculate_severity shares = "MEDIUM")
  ∧ (strong < 3 → (secondary < 15 # 100)%Q →
     _calculate_severity shares = "LOW").
Proof.
  cbv zeta. unfold _calculate_severity.
  generalize (List.nth 1 shares 0%Q). intros s.
  destruct (3 <=? length (List.filter (at_least (10 # 100)) shares)) eqn:Hs.
  { apply Nat.leb_le in Hs. repeat split; intros; (done || lia). }
  apply Nat.leb_gt in Hs. split; [lia|].
  destruct (at_least (35 # 100) s) eqn:Hh;
    [apply at_least_true in Hh | apply at_least_false in Hh];
    (destruct (at_least (15 # 100) s) eqn:Hm;
     [apply at_least_true in Hm | apply at_least_false in Hm]);
    repeat split; intros; try reflexivity; exfalso;
    unfold Qle, Qlt in *; simpl in *; lia.
Qed.

(** C4: a GSC_CONFIRMED issue of phase 4 carries the severity that the
    shares of the surviving rows determine: SEVERE with at least three
    shares of 0.10 or more; otherwise HIGH with a second share of 0.35 or
    more, MEDIUM with a second share in [0.15, 0.35), LOW below. *)
Theorem gsc_confirmed_severity (query : str) (rows : list Row.t)
    (issue : Issue.t) :
  _analyze_query_group query rows = Some issue →
  let shares := map share (surviving rows) in
  let strong := length (List.filter (at_least (10 # 100)) shares) in
  let secondary := List.nth 1 shares 0%Q in
  Issue.conflict_type issue = "GSC_CONFIRMED"
  ∧ (3 ≤ strong → Issue.severity issue = Some ("SEVERE" : str))
  ∧ (strong < 3 → (35 # 100 <= secondary)%Q →
     Issue.severity issue = Some ("HIGH" : str))
  ∧ (strong < 3 → (15 # 100 <= secondary)%Q → (secondary < 35 # 100)%Q →
     Issue.severity issue = Some ("MEDIUM" : str))
  ∧ (strong < 3 → (secondary < 15 # 100)%Q →
     Issue.severity issue = Some ("LOW" : str)).
Proof.
  unfold _analyze_query_group.
  destruct ((length (surviving rows) <? 2) || _); [done|].
  destruct (at_least (15 # 100) _); [|done].
  intros [= <-]. cbv zeta. cbn [Issue.conflict_type Issue.severity].
  destruct (calculate_severity_cases (map share (surviving rows)))
    as (H1 & H2 & H3 & H4).
  split; [done|]. repeat split; intros; f_equal; auto.
Qed.

(** The cases of [TestSeverityCalculation]. *)
Example calculate_severity_tests :
  _calculate_severity [40 # 100; 30 # 100; 20 # 100; 10 # 100]%Q = "SEVERE"
  ∧ _calculate_severity [60 # 100; 40 # 100]%Q = "HIGH"
  ∧ _calculate_severity [75 # 100; 25 # 100]%Q = "MEDIUM"
  ∧ _calculate_severity [90 # 100; 10 # 100]%Q = "LOW".
Proof. repeat split; reflexivity. Qed.

End C4.

Section C4Examples.
#[local] Existing Instance any_bracketed_host.
#[local] Existing Instance spec_constants.
Import Phase4.

Example brooklyn_issue_summary :
  Issue.conflict_type brooklyn_issue = "GSC_CONFIRMED"
  ∧ Issue.severity brooklyn_issue = Some ("HIGH" : str)
  ∧ map PageClassification.page_id (Issue.pages brooklyn_issue) = [1; 2]%Z
  ∧ map cluster_summary (run_phase6 [brooklyn_issue])
    = [ ("GSC_CONFIRMED:event planning brooklyn" : str,
         Some ("SEARCH_CONFLICT" : str), Some ("CONFIRMED" : str), 2) ]
  ∧ map Cluster.priority_score (run_phase6 [brooklyn_issue]) = [82%Z].
Proof. repeat split; vm_compute; reflexivity. Qed.

Lemma gsc_confirmed_severity_witness :
  let shares := map share (surviving brooklyn_rows) in
  let strong := length (List.filter (at_least (10 # 100)) shares) in
  let secondary := List.nth 1 shares 0%Q in
  Issue.conflict_type brooklyn_issue = "GSC_CONFIRMED"
  ∧ (3 ≤ strong → Issue.severity brooklyn_issue = Some ("SEVERE" : str))
  ∧ (strong < 3 → (35 # 100 <= secondary)%Q →
     Issue.severity brooklyn_issue = Some ("HIGH" : str))
  ∧ (strong < 3 → (15 # 100 <= secondary)%Q → (secondary < 35 # 100)%Q →
     Issue.severity brooklyn_issue = Some ("MEDIUM" : str))
  ∧ (strong < 3 → (secondary < 15 # 100)%Q →
     Issue.severity brooklyn_issue = Some ("LOW" : str)).
Proof.
  apply (gsc_confirmed_severity "event planning brooklyn" brooklyn_rows
           brooklyn_issue).
  vm_compute. reflexivity.
Defined.

(** The cases of [TestImpressionShareCalculation]. *)
Example analyze_query_group_tests :
  _analyze_query_group "event planning"
    [ matched_row "event planning" 1
        "https://example.com/services/event-planning/" 50 900 (32 # 10);
      matched_row "event planning" 2
        "https://example.com/blog/event-planning-tips/" 5 100 (125 # 10) ]
  = None
  ∧ (length ∘ Issue.pages)
      <$> _analyze_query_group "dance shoes"
            [ matched_row "dance shoes" 1 "https://example.com/shop/dance/"
                80 800 (25 # 10);
              matched_row "dance shoes" 2
                "https://example.com/product/jazz-shoe/" 20 150 (62 # 10);
              matched_row "dance shoes" 3
                "https://example.com/blog/best-dance-shoes/" 0 30 (187 # 10) ]
    = Some 2.
Proof. split; vm_compute; reflexivity. Qed.

End C4Examples.

(** ** C5: a failing traffic source *)

Section C5.
Context `{BracketCheck} `{Constants} `{Django} `{Collaborators}.

Lemma keeps_flag_ret {A} (a : A) : keeps_flag (M_ret A a).
Proof. by intros r. Qed.

Lemma keeps_flag_lift {A} (x : result A) : keeps_flag (lift x).
Proof. by intros r. Qed.

Lemma keeps_flag_bind {A B} (m : M A) (k : A → M B) :
  keeps_flag m → (∀ a, keeps_flag (k a)) → keeps_flag (M_bind A B k m).
Proof.
  intros Hm Hk r. unfold M_bind. specialize (Hm r).
  destruct (m r) as [[a|msg] r']; simpl in *; [|done].
  by rewrite Hk.
Qed.

Lemma keeps_flag_update f :
  (∀ r, AnalysisRun.gsc_connected (f r) = AnalysisRun.gsc_connected r) →
  keeps_flag (update f).
Proof. intros Hf r. apply Hf. Qed.

Lemma keeps_flag_mapM {A B} (f : A → M B) l :
  (∀ a, keeps_flag (f a)) → keeps_flag (mapM f l).
Proof.
  intros Hf. induction l as [|x l IH]; simpl; [apply keeps_flag_ret|].
  apply keeps_flag_bind; [done|]. intros y.
  apply keeps_flag_bind; [done|]. intros ys. apply keeps_flag_ret.
Qed.

Lemma keeps_flag_cluster_object c : keeps_flag (cluster_object c).
Proof.
  unfold cluster_object. destruct (Cluster.gsc_data c);
    (apply keeps_flag_bind; [|intros; apply keeps_flag_ret]);
    (destruct (_ || _);
     [apply keeps_flag_bind; [apply keeps_flag_lift|intros; apply keeps_flag_ret]
     |apply keeps_flag_ret]).
Qed.

Lemma keeps_flag_gsc_phases site days cls static :
  keeps_flag (gsc_phases site days cls static).
Proof.
  unfold gsc_phases. destruct (_fetch_gsc_data site days); [apply keeps_flag_ret|].
  apply keeps_flag_bind; [by apply keeps_flag_update|]. intros _.
  apply keeps_flag_bind; [apply keeps_flag_lift|]. intros ?.
  apply keeps_flag_bind; [apply keeps_flag_lift|]. intros ?.
  apply keeps_flag_ret.
Qed.

Lemma keeps_flag_try_block phase1 site include_gsc days :
  keeps_flag (try_block phase1 site include_gsc days).
Proof.
  unfold try_block.
  apply keeps_flag_bind; [apply keeps_flag_lift|]. intros cls.
  apply keeps_flag_bind; [by apply keeps_flag_update|]. intros _.
  destruct cls; [by apply keeps_flag_update|].
  apply keeps_flag_bind; [apply keeps_flag_lift|]. intros static.
  apply keeps_flag_bind.
  { destruct include_gsc; [apply keeps_flag_gsc_phases | apply keeps_flag_ret]. }
  intros [[s g] w].
  apply keeps_flag_bind; [apply keeps_flag_lift|]. intros _.
  apply keeps_flag_bind; [apply keeps_flag_mapM, keeps_flag_cluster_object|].
  intros objs.
  apply keeps_flag_bind; [by apply keeps_flag_update|]. intros _.
  by apply keeps_flag_update.
Qed.

(** C5 (the code): the [gsc_connected] flag is written once, when the run
    is created, with the value of [include_gsc].  No step of the [try]
    block changes it, whatever phase 1 returns or raises and whatever the
    traffic source does; so the run that [run_analysis] returns, or leaves
    behind when it raises, has the flag equal to [include_gsc].  A traffic
    source that raises makes [_fetch_gsc_data] return no rows, and the
    flag is not touched then either. *)
Theorem gsc_connected_never_reset (site_id : Z) (include_gsc : bool)
    (gsc_days : Z) :
  match run_analysis site_id include_gsc gsc_days with
  | Returned run | Raises _ (Some run) =>
      AnalysisRun.gsc_connected run = include_gsc
  | Raises _ None => True
  end
  ∧ (∀ phase1 site run,
       AnalysisRun.gsc_connected
         (try_block phase1 site include_gsc gsc_days run).2
       = AnalysisRun.gsc_connected run)
  ∧ (∀ get_gsc_data site,
       gsc_service = GscInstalled get_gsc_data →
       (∀ start_date end_date,
          ∃ msg, get_gsc_data site start_date end_date = Raised msg) →
       _fetch_gsc_data site gsc_days = []).
Proof.
  split; [|split].
  - unfold run_analysis, finish.
    destruct (lookup_site site_id) as [site|]; [|done].
    pose proof (keeps_flag_try_block
                  (run_phase1 page_objects (Site.id site)) site include_gsc
                  gsc_days
                  (AnalysisRun.create (Site.id site) "running" include_gsc))
      as Hk.
    destruct (try_block _ _ _ _ _) as [[[]|msg] run]; simpl in *; done.
  - intros phase1 site run. apply keeps_flag_try_block.
  - intros get site Hs Hraise. unfold _fetch_gsc_data. rewrite Hs.
    destruct (Hraise (today - gsc_days)%Z today) as [msg ->]. done.
Qed.

End C5.

Section C5Examples.
#[local] Existing Instance any_bracketed_host.
#[local] Existing Instance spec_constants.
#[local] Existing Instance field_error_text.
#[local] Existing Instance failing_traffic_source.

(** C5 (the code at the failing input): the source of the traffic data
    raises.  On the pages of the repository phase 1 raises before the
    traffic data are asked for, and the run is left failed with the flag
    still true.  Had phase 1 returned the classifications of the two
    pages, the run would have completed without issues of phases 4 and 5,
    again with the flag still true. *)
Example failing_traffic_source_run :
  _fetch_gsc_data example_site 90 = []
  ∧ run_summary (run_analysis 1 true 90)
    = Some ("failed" : str, true, None, 0%Z, 0)
  ∧ run_summary
      (finish (try_block (Ok shop_classifications) example_site true 90)
         (AnalysisRun.create 1 "running" true))
    = Some ("completed" : str, true, None, 2%Z, 0).
Proof. repeat split; vm_compute; reflexivity. Qed.

End C5Examples.

(** * Further properties of the code *)

(** ** More facts about the string primitives *)

Section MoreStrFacts.

Lemma split_on_nonempty P s : split_on P s ≠ [].
Proof.
  induction s as [|c s IH]; simpl; [done|].
  destruct (split_on P s) as [|w ws]; [done|]. by destruct (P c).
Qed.

Lemma split_on_fields (Q : ascii → Prop) P s :
  Forall Q s →
  Forall (fun w => Forall (fun c => Q c ∧ P c = false) w) (split_on P s).
Proof.
  induction 1 as [|c s Hc Hs IH]; simpl; [by repeat constructor|].
  pose proof (split_on_nonempty P s) as Hne.
  destruct (split_on P s) as [|w ws]; [done|].
  apply Forall_cons in IH as [Hw Hws].
  destruct (P c) eqn:HP; repeat constructor; auto.
Qed.

Lemma strip_with_Forall (Q : ascii → Prop) P s :
  Forall Q s → Forall Q (strip_with P s).
Proof. intros Hs. by apply rstrip_with_Forall, lstrip_with_Forall. Qed.

Lemma strip_with_clean P s :
  Forall (fun c => P c = false) s → strip_with P s = s.
Proof.
  intros Hs. unfold strip_with, rstrip_with.
  rewrite (lstrip_with_fixed P s).
  2:{ intros c t ->. by inversion Hs. }
  rewrite lstrip_with_fixed; [apply rev_involutive|].
  intros c t Hc. apply List.Forall_rev in Hs. rewrite Hc in Hs. by inversion Hs.
Qed.

(** The last character decides [endswith] for a one-character suffix. *)
Lemma endswith_char_rev c s :
  endswith [c] s = match rev s with x :: _ => eqc c x | [] => false end.
Proof.
  unfold endswith. simpl. destruct (rev s) as [|x t]; [done|].
  apply andb_true_r.
Qed.

Lemma endswith_char_rstrip c s :
  endswith [c] (rstrip_with (eqc c) s) = false.
Proof.
  rewrite endswith_char_rev. unfold rstrip_with. rewrite rev_involutive.
  destruct (lstrip_with (eqc c) (rev s)) as [|x t] eqn:Hl; [done|].
  by apply lstrip_with_head in Hl.
Qed.

Lemma endswith_char_app c s1 s2 :
  s2 ≠ [] → endswith [c] (s1 ++ s2) = endswith [c] s2.
Proof.
  intros Hne. rewrite !endswith_char_rev, rev_app_distr.
  destruct (rev s2) as [|x t] eqn:Hr; [|done].
  apply (f_equal (@rev ascii)) in Hr. rewrite rev_involutive in Hr. done.
Qed.

Lemma startswith_char c x s : startswith [c] (x :: s) = eqc c x.
Proof. simpl. apply andb_true_r. Qed.

Lemma eqc_true a b : eqc a b = true ↔ a = b.
Proof. apply Ascii.eqb_eq. Qed.

End MoreStrFacts.

(** ** [normalize_path] and [get_path_parts] *)

Section PathFacts.
Context `{BracketCheck}.

Lemma slash_lower : Forall (fun c => lower_char c = c) ("/" : str).
Proof. by repeat constructor. Qed.

Lemma normalize_path_lowered url :
  Forall (fun c => lower_char c = c) (normalize_path url).
Proof.
  unfold normalize_path. destruct url as [|a url]; [apply slash_lower|].
  destruct (urlparse (strip (a :: url))) as [parsed|]; [|apply slash_lower].
  cbv zeta.
  assert (Hp : Forall (fun c => lower_char c = c)
                 (if endswith "/" (lower (Urllib.path parsed))
                     && (1 <? length (lower (Urllib.path parsed)))
                  then rstrip_with is_slash (lower (Urllib.path parsed))
                  else lower (Urllib.path parsed))).
  { destruct (_ && _); [apply rstrip_with_Forall|]; apply lower_chars_fixed. }
  destruct (startswith "/" _); [done|].
  apply Forall_app. split; [apply slash_lower | done].
Qed.

(** X1: the normalized path always begins with a slash, holds no capital
    letter, and ends with a slash only when it is the root. *)
Theorem normalize_path_shape (url : str) :
  startswith "/" (normalize_path url) = true
  ∧ lower (normalize_path url) = normalize_path url
  ∧ (normalize_path url = "/" ∨ endswith "/" (normalize_path url) = false).
Proof.
  split; [|split; [apply lower_fixed, normalize_path_lowered|]];
    unfold normalize_path; destruct url as [|a url]; try done; try by left.
  - destruct (urlparse (strip (a :: url))) as [parsed|]; [|done].
    cbv zeta. set (p := lower (Urllib.path parsed)).
    set (q := if endswith "/" p && (1 <? length p)
              then rstrip_with is_slash p else p).
    destruct (startswith "/" q) eqn:Hs; [exact Hs | reflexivity].
  - destruct (urlparse (strip (a :: url))) as [parsed|]; [|by left].
    cbv zeta. generalize (lower (Urllib.path parsed)). intros p.
    change (list_ascii_of_string "/") with ["/"%char].
    destruct (endswith ["/"%char] p && (1 <? length p)) eqn:Hcut.
    + pose proof (endswith_char_rstrip "/" p) as Hend.
      change (eqc "/") with is_slash in Hend.
      destruct (rstrip_with is_slash p) as [|x q] eqn:Hq.
      * by left.
      * rewrite startswith_char.
        destruct (eqc "/" x); right; [done|].
        by rewrite endswith_char_app.
    + destruct p as [|x q]; [by left|].
      rewrite startswith_char. destruct (eqc "/" x) eqn:Hx.
      * apply eqc_true in Hx as <-.
        apply andb_false_iff in Hcut as [Hend|Hlen]; [by right|].
        apply Nat.ltb_ge in Hlen. destruct q; [by left | simpl in Hlen; lia].
      * right. rewrite endswith_char_app by done.
        apply andb_false_iff in Hcut as [Hend|Hlen]; [done|].
        apply Nat.ltb_ge in Hlen. destruct q; [|simpl in Hlen; lia].
        rewrite endswith_char_rev. simpl. done.
Qed.

(** X2: every path part is non-empty, holds no slash and no capital
    letter. *)
Theorem get_path_parts_clean (url : str) :
  Forall (fun part => part ≠ []
                      ∧ has_char "/" part = false
                      ∧ lower part = part)
    (get_path_parts url).
Proof.
  unfold get_path_parts.
  pose proof (split_on_fields _ is_slash _
                (strip_with_Forall _ is_slash _ (normalize_path_lowered url)))
    as Hf.
  induction Hf as [|w ws Hw _ IH]; simpl; [constructor|].
  destruct (nonempty w) eqn:Hne; [|done].
  constructor; [|done]. apply Forall_and in Hw as [Hlow Hsl].
  split; [by destruct w|]. split.
  - by apply has_char_false.
  - by apply lower_fixed.
Qed.

End PathFacts.

(** ** [normalize_path] applied to its own output *)

Section PathTwice.
Context `{BracketCheck}.

Lemma lower_char_inert c : inert c → inert (lower_char c).
Proof.
  unfold inert. destruct c as [[] [] [] [] [] [] [] []]; cbn; tauto.
Qed.

Lemma slash_inert : Forall inert ("/" : str).
Proof. by repeat constructor. Qed.

Lemma normalize_path_inert url : Forall inert (normalize_path url).
Proof.
  unfold normalize_path. destruct url as [|a url]; [apply slash_inert|].
  destruct (urlparse (strip (a :: url))) as [parsed|] eqn:Hp;
    [|apply slash_inert].
  destruct (urlparse_chars (fun _ => True) _ _ Hp) as (_ & Hq & _ & Hf).
  { by apply Forall_true. }
  assert (Hpath : Forall inert (lower (Urllib.path parsed))).
  { unfold lower. apply Forall_fmap.
    assert (Hall : Forall (fun c => (True ∧ is_unsafe c = false)
                                    ∧ (eqc "#" c = false ∧ eqc "?" c = false))
                     (Urllib.path parsed)) by by apply Forall_and.
    eapply Forall_impl; [exact Hall|]. intros c [[_ ?] [? ?]].
    by apply lower_char_inert. }
  cbv zeta.
  set (q := if endswith "/" (lower (Urllib.path parsed))
               && (1 <? length (lower (Urllib.path parsed)))
            then rstrip_with is_slash (lower (Urllib.path parsed))
            else lower (Urllib.path parsed)).
  assert (Hq' : Forall inert q).
  { subst q. destruct (_ && _); [by apply rstrip_with_Forall | done]. }
  destruct (startswith "/" q); [done|].
  apply Forall_app. split; [apply slash_inert | done].
Qed.

Lemma span_until_head P s x a b :
  span_until P s = (x :: a, b) → ∃ t, s = x :: t.
Proof.
  destruct s as [|c s]; simpl; [done|].
  destruct (P c); [done|]. destruct (span_until P s). intros [= -> _ _]. eauto.
Qed.

Lemma split_scheme_rooted w : split_scheme ("/"%char :: w) = ([], "/"%char :: w).
Proof.
  unfold split_scheme, break_at.
  destruct (span_until (eqc ":") ("/"%char :: w)) as [[|c pre] [|x post]] eqn:Hs;
    try done.
  apply span_until_head in Hs as [t [= <- _]]. done.
Qed.

(** A text that begins with one slash and holds no fragment, query or
    parameter mark parses as a bare path. *)
Lemma urlparse_rooted_path w :
  let v := "/"%char :: w in
  Forall inert v → startswith "//" v = false → has_char ";" v = false →
  urlparse v = Some (mkParseResult [] [] v [] [] []).
Proof.
  cbv zeta. intros Hin Hs Hp. unfold urlparse, urlsplit.
  change (lstrip_with is_c0_or_space ("/"%char :: w)) with ("/"%char :: w).
  rewrite filter_fixed.
  2:{ eapply Forall_impl; [exact Hin|]. intros c [-> _]. done. }
  rewrite split_scheme_rooted, split_netloc_plain by done. simpl negb.
  cbn match.
  rewrite !cut_none.
  - by rewrite Hp.
  - apply has_char_false. eapply Forall_impl; [exact Hin|]. by intros c (_ & _ & ?).
  - apply has_char_false. eapply Forall_impl; [exact Hin|]. by intros c (_ & ? & _).
Qed.

(** X3: a normalized path that does not begin with a double slash, holds
    no semicolon and does not end with a blank is left unchanged by a
    second normalization, and its parts are those of the URL it came from;
    this is the situation of [classify_page], which takes the parts of the
    path that it has already normalized. *)
Theorem normalize_path_idempotent_on_plain (url : str) :
  let v := normalize_path url in
  startswith "//" v = false →
  has_char ";" v = false →
  rstrip_with isspace v = v →
  normalize_path v = v ∧ get_path_parts v = get_path_parts url.
Proof.
  cbv zeta. intros Hs Hp Hr.
  assert (Hv : normalize_path (normalize_path url) = normalize_path url).
  { destruct (normalize_path_shape url) as (Hstart & Hlow & Hend).
    pose proof (normalize_path_inert url) as Hin.
    remember (normalize_path url) as v eqn:Ev. clear Ev.
    destruct v as [|x w]; [done|].
    change (list_ascii_of_string "/") with ["/"%char] in Hstart.
    rewrite startswith_char in Hstart. apply eqc_true in Hstart as <-.
    unfold normalize_path.
    assert (Hstrip : strip ("/"%char :: w) = "/"%char :: w).
    { unfold strip, strip_with. exact Hr. }
    rewrite Hstrip, urlparse_rooted_path by done.
    cbn [Urllib.path]. cbv zeta. rewrite Hlow.
    destruct Hend as [Hroot|Hend]; [by rewrite Hroot|].
    rewrite Hend. done. }
  split; [done|]. unfold get_path_parts. by rewrite Hv.
Qed.

End PathTwice.

Section PathTwiceExamples.
#[local] Existing Instance any_bracketed_host.

Lemma normalize_path_idempotent_on_plain_witness :
  normalize_path (normalize_path "https://Example.com/Blog/Post-Title/?page=2")
  = normalize_path "https://Example.com/Blog/Post-Title/?page=2"
  ∧ get_path_parts (normalize_path "https://Example.com/Blog/Post-Title/?page=2")
    = get_path_parts "https://Example.com/Blog/Post-Title/?page=2".
Proof.
  apply (normalize_path_idempotent_on_plain
           "https://Example.com/Blog/Post-Title/?page=2"); reflexivity.
Defined.

(** Outside these conditions the second normalization differs. *)
Example normalize_path_twice_differs :
  normalize_path "https://example.com//a/b" = "//a/b"
  ∧ normalize_path "//a/b" = "/b"
  ∧ normalize_path "https://example.com/a/b;c" = "/a/b"
  ∧ normalize_path "https://example.com/a;x/b" = "/a;x/b".
Proof. repeat split; reflexivity. Qed.

End PathTwiceExamples.

(** ** C9: stripping the legacy suffix twice *)

Section LegacyTwice.
Context `{BracketCheck} `{Constants}.
















Lemma drop_tail_shorter n (s : str) : s ≠ [] → drop_tail n s ≠ s.
Proof.
  intros Hne. destruct n; simpl; [by destruct s|].
  intros Heq. apply (f_equal (@length ascii)) in Heq.
  rewrite length_take in Heq. destruct s; [done|]. simpl in Heq. lia.
Qed.



End LegacyTwice.

Section LegacyTwiceExamples.
#[local] Existing Instance any_bracketed_host.
#[local] Existing Instance spec_constants.


(** A suffix behind a suffix: what remains after the first call still ends
    with a legacy suffix, and the second call cuts it off. *)
Example strip_legacy_suffix_stacked :
  strip_legacy_suffix "/top-2--old/" = "/top-2"
  ∧ strip_legacy_suffix "/top-2" = "/top".
Proof. split; reflexivity. Qed.

End LegacyTwiceExamples.

(** ** Slug tokens and their similarity *)

Lemma tokens_filter_elem (P : str → Prop) `{∀ x, Decision (P x)}
    (X : gset str) (t : str) :
  t ∈ filter P X ↔ P t ∧ t ∈ X.
Proof. apply elem_of_filter. Qed.

Lemma tokens_of_list_elem (l : list str) (t : str) :
  t ∈ (list_to_set l : gset str) ↔ t ∈ l.
Proof. apply elem_of_list_to_set. Qed.

Lemma tokens_difference_elem (X Y : gset str) (t : str) :
  t ∈ X ∖ Y ↔ t ∈ X ∧ t ∉ Y.
Proof. apply elem_of_difference. Qed.

Lemma tokens_inter_size (X Y : gset str) : size (X ∩ Y) ≤ size (X ∪ Y).
Proof.
  apply subseteq_size.
  etrans; [apply intersection_subseteq_l | apply union_subseteq_l].
Qed.

Lemma tokens_inter_self (X : gset str) : X ∩ X = X.
Proof. apply (idemp_L (∩)). Qed.

Lemma tokens_union_self (X : gset str) : X ∪ X = X.
Proof. apply (idemp_L (∪)). Qed.

Lemma tokens_size_pos (X : gset str) : X ≠ ∅ → 0 < size X.
Proof.
  intros Hne. destruct (size X) eqn:Hs; [|lia].
  apply size_empty_iff in Hs. exfalso. apply Hne. by apply leibniz_equiv.
Qed.

Section TokenFacts.
Context `{BracketCheck} `{Constants}.

Lemma get_path_parts_chars url :
  Forall (Forall (fun c => lower_char c = c ∧ is_slash c = false))
    (get_path_parts url).
Proof.
  unfold get_path_parts.
  pose proof (split_on_fields _ is_slash _
                (strip_with_Forall _ is_slash _ (normalize_path_lowered url)))
    as Hf.
  induction Hf as [|w ws Hw _ IH]; simpl; [constructor|].
  destruct (nonempty w); [by constructor | done].
Qed.

(** X4: every slug token has three characters at least, is not a year
    from 2015 to 2030, holds no hyphen, underscore, slash or capital
    letter, and is no stop word when stop words are removed. *)
Theorem extract_slug_tokens_clean (url : str) (remove_stop_words : bool)
    (t : str) :
  t ∈ extract_slug_tokens url remove_stop_words →
  3 ≤ length t
  ∧ is_year_token t = false
  ∧ (remove_stop_words = true → t ∉ SLUG_STOP_WORDS)
  ∧ has_char "-" t = false ∧ has_char "_" t = false
  ∧ has_char "/" t = false
  ∧ lower t = t.
Proof.
  unfold extract_slug_tokens. cbv zeta. intros Ht.
  assert (Hcore :
    t ∈ filter (fun t => 3 ≤ length t)
          (filter (fun t => is_year_token t = false)
             (list_to_set
                (concat (map (fun part => split_on is_sep (lower part))
                           (get_path_parts (normalize_path url))))
              : gset str))
    ∧ (remove_stop_words = true → t ∉ SLUG_STOP_WORDS)).
  { destruct remove_stop_words.
    - apply tokens_difference_elem in Ht as [? ?]. auto.
    - split; [done | discriminate]. }
  clear Ht. destruct Hcore as [Ht Hstop].
  apply tokens_filter_elem in Ht as [Hlen Ht].
  apply tokens_filter_elem in Ht as [Hyear Ht].
  apply tokens_of_list_elem, list_elem_of_In, in_concat in Ht
    as (fields & Hfields & Hin).
  apply in_map_iff in Hfields as (part & <- & Hpart).
  pose proof (get_path_parts_chars (normalize_path url)) as Hparts.
  rewrite Forall_forall in Hparts.
  specialize (Hparts part (proj2 (list_elem_of_In _ _) Hpart)).
  assert (Hlow : Forall (fun c => lower_char c = c ∧ is_slash c = false)
                   (lower part)).
  { rewrite lower_fixed; [done|]. eapply Forall_impl; [exact Hparts|].
    by intros c [? _]. }
  pose proof (split_on_fields _ is_sep _ Hlow) as Hf.
  rewrite Forall_forall in Hf.
  specialize (Hf t (proj2 (list_elem_of_In _ _) Hin)).
  repeat split; try done.
  - apply has_char_false. eapply Forall_impl; [exact Hf|].
    intros c [_ Hsep]. unfold is_sep in Hsep.
    apply orb_false_iff in Hsep as [Hd _]. by rewrite eqc_sym.
  - apply has_char_false. eapply Forall_impl; [exact Hf|].
    intros c [_ Hsep]. unfold is_sep in Hsep.
    apply orb_false_iff in Hsep as [_ Hu]. by rewrite eqc_sym.
  - apply has_char_false. eapply Forall_impl; [exact Hf|].
    by intros c [[_ ?] _].
  - apply lower_fixed. eapply Forall_impl; [exact Hf|]. by intros c [[? _] _].
Qed.

(** X5: the slug similarity lies between 0 and 1; of a URL with itself it
    is 1 when the URL has a token and 0 when it has none. *)
Theorem slug_similarity_bounds (url1 url2 : str) :
  (0 <= slug_similarity url1 url2)%Q
  ∧ (slug_similarity url1 url2 <= 1)%Q
  ∧ (extract_slug_tokens url1 true ≠ ∅ → (slug_similarity url1 url1 == 1)%Q)
  ∧ (extract_slug_tokens url1 true = ∅ → slug_similarity url1 url1 = 0%Q).
Proof.
  unfold slug_similarity.
  set (t1 := extract_slug_tokens url1 true).
  set (t2 := extract_slug_tokens url2 true).
  assert (Hpos : ∀ n, 0 < n → Z.pos (Pos.of_nat n) = Z.of_nat n).
  { intros n Hn. rewrite <- positive_nat_Z, Nat2Pos.id by lia. done. }
  split; [|split; [|split]].
  - destruct (_ && _); [done|]. destruct (bool_decide (t1 ∪ t2 = ∅)); [done|].
    unfold Qle. simpl. lia.
  - destruct (_ && _); [done|].
    destruct (bool_decide (t1 ∪ t2 = ∅)) eqn:Hu; [done|].
    apply bool_decide_eq_false in Hu.
    unfold Qle. simpl. rewrite Hpos by by apply tokens_size_pos.
    pose proof (tokens_inter_size t1 t2). lia.
  - intros Hne. rewrite tokens_inter_self, tokens_union_self.
    rewrite !bool_decide_false by done. simpl.
    unfold Qeq. simpl. rewrite Hpos by by apply tokens_size_pos. lia.
  - intros ->. by rewrite bool_decide_true.
Qed.

End TokenFacts.

(** ** Geography, parents and safe pairs *)

Section GeoFacts.

Lemma filter_lstrip_with (f P : ascii → bool) s :
  (∀ c, P c = true → f c = false) →
  List.filter f (lstrip_with P s) = List.filter f s.
Proof.
  intros Hf. induction s as [|c s IH]; simpl; [done|].
  destruct (P c) eqn:Hc; [|done]. by rewrite (Hf c Hc).
Qed.

Lemma filter_rstrip_with (f P : ascii → bool) s :
  (∀ c, P c = true → f c = false) →
  List.filter f (rstrip_with P s) = List.filter f s.
Proof.
  intros Hf. unfold rstrip_with.
  rewrite List.filter_rev, filter_lstrip_with by done.
  by rewrite List.filter_rev, rev_involutive.
Qed.

Lemma geo_filler_lower c : is_geo_filler (lower_char c) = is_geo_filler c.
Proof. destruct c as [[] [] [] [] [] [] [] []]; reflexivity. Qed.

Lemma filter_map_commute (f : ascii → bool) (g : ascii → ascii) s :
  (∀ c, f (g c) = f c) →
  List.filter f (map g s) = map g (List.filter f s).
Proof.
  intros Hfg. induction s as [|c s IH]; simpl; [done|].
  rewrite Hfg. destruct (f c); simpl; by rewrite IH.
Qed.

(** Trimming is absorbed by the removal of the fillers. *)
Lemma normalize_geo_filter slug :
  normalize_geo slug
  = List.filter (fun c => negb (is_geo_filler c)) (lower slug).
Proof.
  unfold normalize_geo. destruct slug as [|a slug]; [done|].
  unfold strip, strip_with.
  assert (Hsp : ∀ c, isspace c = true → negb (is_geo_filler c) = false).
  { intros c Hc. unfold is_geo_filler. rewrite Hc. by destruct (eqc c "-"). }
  by rewrite filter_rstrip_with, filter_lstrip_with.
Qed.

(** X6: the normalized geography holds no hyphen, underscore, blank or
    capital letter; normalizing is idempotent and does not see the case
    of its argument. *)
Theorem normalize_geo_canonical (slug : str) :
  Forall (fun c => is_geo_filler c = false ∧ lower_char c = c)
    (normalize_geo slug)
  ∧ normalize_geo (normalize_geo slug) = normalize_geo slug
  ∧ normalize_geo (lower slug) = normalize_geo slug.
Proof.
  assert (Hclean : Forall (fun c => is_geo_filler c = false ∧ lower_char c = c)
                     (normalize_geo slug)).
  { rewrite normalize_geo_filter. apply Forall_and. split.
    - eapply Forall_impl; [apply filter_holds|]. intros c Hc.
      simpl in Hc. by apply negb_true_iff.
    - apply filter_Forall, lower_chars_fixed. }
  split; [done|]. split.
  - rewrite (normalize_geo_filter (normalize_geo slug)).
    apply Forall_and in Hclean as [Hfill Hlow].
    rewrite lower_fixed by done. apply filter_fixed.
    eapply Forall_impl; [exact Hfill|]. intros c ->. done.
  - by rewrite !normalize_geo_filter, lower_idem.
Qed.

End GeoFacts.

Section ParentFacts.
Context `{BracketCheck} `{Constants}.

Import PageClassification.

Lemma is_direct_parent_parts parent_url child_url :
  is_direct_parent parent_url child_url = true →
  ∃ slug, get_path_parts child_url = get_path_parts parent_url ++ [slug].
Proof.
  unfold is_direct_parent.
  generalize (get_path_parts parent_url) (get_path_parts child_url).
  intros pp cp.
  destruct (length cp =? length pp + 1) eqn:Hlen; [|done].
  simpl. intros Heq. apply bool_decide_eq_true in Heq.
  apply Nat.eqb_eq in Hlen.
  pose proof (take_drop (length pp) cp) as Htd. rewrite <- Heq in Htd.
  pose proof (length_drop cp (length pp)) as Hd.
  destruct (drop (length pp) cp) as [|slug [|y rest]]; simpl in Hd; try lia.
  by exists slug.
Qed.

Lemma is_direct_parent_irrefl url : is_direct_parent url url = false.
Proof.
  unfold is_direct_parent.
  destruct (length (get_path_parts url) =? length (get_path_parts url) + 1)
    eqn:Hlen; [|done].
  apply Nat.eqb_eq in Hlen. lia.
Qed.

(** X7: when [parent_url] is the direct parent of [child_url], the parts
    of the child are those of the parent followed by one slug, the parent
    path of the child is the path of these parts, and the child is not the
    direct parent of the parent; no URL is its own direct parent. *)
Theorem is_direct_parent_spec (parent_url child_url : str) :
  is_direct_parent parent_url child_url = true →
  get_path_parts child_url
  = get_path_parts parent_url ++ [get_slug_last child_url]
  ∧ get_parent_path child_url
    = match get_path_parts parent_url with
      | [] => "/"
      | parts => "/" ++ join "/" parts
      end
  ∧ is_direct_parent child_url parent_url = false
  ∧ is_direct_parent parent_url parent_url = false.
Proof.
  intros Hp. destruct (is_direct_parent_parts _ _ Hp) as [slug Hparts].
  split; [|split; [|split]].
  - unfold get_slug_last. rewrite Hparts at 1. f_equal.
    rewrite Hparts. by rewrite last_last.
  - unfold get_parent_path. rewrite Hparts, length_app, removelast_last.
    simpl length.
    destruct (get_path_parts parent_url) as [|p ps]; [done|].
    simpl length. destruct (S (length ps) + 1 <=? 1) eqn:Hle; [|done].
    apply Nat.leb_le in Hle. lia.
  - unfold is_direct_parent. rewrite Hparts, length_app. simpl length.
    destruct (length (get_path_parts parent_url)
              =? length (get_path_parts parent_url) + 1 + 1) eqn:Hlen; [|done].
    apply Nat.eqb_eq in Hlen. lia.
  - apply is_direct_parent_irrefl.
Qed.

Lemma str_eqb_refl (a : str) : str_eqb a a = true.
Proof. unfold str_eqb. by apply bool_decide_eq_true. Qed.

(** X8: no page forms a safe pair with itself, whichever filter is
    asked. *)
Theorem is_safe_pair_irreflexive (page : PC) :
  _is_safe_pair page page = false
  ∧ _are_product_siblings page page = false
  ∧ _are_parent_child page page = false
  ∧ _are_geographic_variants page page = false.
Proof.
  assert (Hs : _are_product_siblings page page = false).
  { unfold _are_product_siblings. rewrite !str_eqb_refl.
    by destruct (str_eqb (classified_type page) "product"). }
  assert (Hp : _are_parent_child page page = false).
  { unfold _are_parent_child. by rewrite !is_direct_parent_irrefl. }
  assert (Hg : _are_geographic_variants page page = false).
  { unfold _are_geographic_variants. rewrite str_eqb_refl.
    by destruct (str_eqb (classified_type page) "location"),
         (nonempty (geo_node page)). }
  split; [|done]. unfold _is_safe_pair. by rewrite Hs, Hp, Hg.
Qed.

End ParentFacts.

Section ParentExamples.
#[local] Existing Instance any_bracketed_host.

Lemma is_direct_parent_spec_witness :
  get_path_parts "/services/event-planning/"
  = get_path_parts "/services/" ++ [get_slug_last "/services/event-planning/"]
  ∧ get_parent_path "/services/event-planning/"
    = match get_path_parts "/services/" with
      | [] => "/"
      | parts => "/" ++ join "/" parts
      end
  ∧ is_direct_parent "/services/event-planning/" "/services/" = false
  ∧ is_direct_parent "/services/" "/services/" = false.
Proof.
  apply (is_direct_parent_spec "/services/" "/services/event-planning/").
  reflexivity.
Defined.

End ParentExamples.

(** ** Phase 1: what a classification holds *)

Section Phase1Facts.
Context `{BracketCheck} `{Constants}.

(** X9: the type that the rule chain returns is one of the fourteen page
    types, whatever the tables of folder roots hold. *)
Theorem classify_page_type_range (path : str) (parts : list str) (depth : Z)
    (folder_root : str) (post_type : option str) (is_homepage_flag : bool) :
  _classify_page_type path parts depth folder_root post_type is_homepage_flag
  ∈ [ "homepage" : str; "location" : str; "blog" : str; "product" : str;
      "category_woo" : str; "shop_root" : str; "category_shop" : str;
      "product_index" : str; "category_custom" : str; "service_hub" : str;
      "service_spoke" : str; "portfolio" : str; "utility" : str;
      "uncategorized" : str ].
Proof.
  unfold _classify_page_type.
  repeat match goal with
         | |- context [if ?c then _ else _] => destruct c
         end;
    repeat (first [apply list_elem_of_here | apply list_elem_of_further]).
Qed.

(** X10: a page without URL gets no classification.  The classification
    of any other page carries the id and the URL of the page, the path,
    the number of parts and the legacy flag that the utilities compute,
    and a geo node only if it is a location page of two parts at least,
    whose last slug the geo node then is. *)
Theorem classify_page_fields (page : Page.t) :
  match classify_page page with
  | None => Page.url page = []
  | Some pc =>
      Page.url page ≠ []
      ∧ PageClassification.page_id pc = Page.id page
      ∧ PageClassification.url pc = Page.url page
      ∧ PageClassification.normalized_path pc = normalize_path (Page.url page)
      ∧ PageClassification.depth pc
        = Z.of_nat (length (get_path_parts (normalize_path (Page.url page))))
      ∧ PageClassification.is_legacy_variant pc
        = is_legacy_variant (normalize_path (Page.url page))
      ∧ (PageClassification.geo_node pc ≠ [] →
         PageClassification.classified_type pc = "location"
         ∧ PageClassification.geo_node pc = PageClassification.slug_last pc
         ∧ (2 <= PageClassification.depth pc)%Z)
  end.
Proof.
  unfold classify_page. destruct (Page.url page) as [|a u]; [done|].
  cbv zeta. cbn [PageClassification.page_id PageClassification.url
    PageClassification.normalized_path PageClassification.depth
    PageClassification.is_legacy_variant PageClassification.geo_node
    PageClassification.classified_type PageClassification.slug_last].
  repeat (split; [done|]).
  set (path := normalize_path (a :: u)).
  destruct (str_eqb (_classify_page_type _ _ _ _ _ _) "location") eqn:Hty.
  2:{ intros Hne. exfalso. by apply Hne. }
  apply bool_decide_eq_true in Hty. intros Hgeo.
  unfold extract_geo_node, get_slug_last in *.
  destruct ((2 <=? length (get_path_parts path)) && _) eqn:Hc; [|done].
  apply andb_true_iff in Hc as [Hlen _]. apply Nat.leb_le in Hlen.
  split; [done|]. split; [done|]. lia.
Qed.

Lemma classify_page_id pg :
  match Page.url pg with
  | [] => classify_page pg = None
  | _ => ∃ pc, classify_page pg = Some pc
               ∧ PageClassification.page_id pc = Page.id pg
  end.
Proof.
  unfold classify_page. destruct (Page.url pg); [done|]. eauto.
Qed.

(** X11: phase 1 raises [FieldError] for every table of pages and every
    site: its query excludes on [is_noindex], which names no field of
    [class Page], so that no page is classified.  The loop that follows
    the query gives, for any pages, one classification per page that has a
    URL, in the order of the pages and with the key of each page. *)
Theorem run_phase1_raises_field_error `{Django} (page_objects : list Page.t)
    (site : Z) :
  run_phase1 page_objects site = Raised (field_error "is_noindex")
  ∧ ∀ pages,
      map PageClassification.page_id (omap classify_page pages)
      = map Page.id (List.filter (fun pg => nonempty (Page.url pg)) pages).
Proof.
  split; [reflexivity|].
  induction pages as [|pg pages IH]; [done|]. cbn [List.filter].
  pose proof (classify_page_id pg) as Hf. cbn [omap list_omap].
  destruct (Page.url pg) as [|a u].
  - rewrite Hf. exact IH.
  - destruct Hf as (pc & -> & Hid).
    change (nonempty (a :: u)) with true. cbn [map].
    f_equal; [exact Hid | exact IH].
Qed.

End Phase1Facts.

(** ** Phase 2: the set of safe pairs *)

Lemma id_pair_comm a b : id_pair a b = id_pair b a.
Proof. unfold id_pair. apply union_comm_L. Qed.

Section PairFacts.
Context (safe : PC → PC → bool).

Lemma fold_add_safe_elem ps acc s :
  s ∈ fold_left (add_safe safe) ps acc
  ↔ s ∈ acc ∨ ∃ a b, (a, b) ∈ ps ∧ safe a b = true ∧ s = id_pair a b.
Proof.
  revert acc. induction ps as [|[a b] ps IH]; intros acc; simpl.
  - split; [by left|]. intros [?|(a & b & Hin & _)]; [done|].
    by apply elem_of_nil in Hin.
  - rewrite IH. destruct (safe a b) eqn:Hab.
    + rewrite elem_of_union, elem_of_singleton. split.
      * intros [[? | ->] | (a' & b' & Hin & ? & ?)]; [by left| |].
        -- right. exists a, b. split; [left|done].
        -- right. exists a', b'. split; [by right|done].
      * intros [?|(a' & b' & Hin & Hs & ->)]; [by left; left|].
        apply elem_of_cons in Hin as [[= -> ->]|Hin]; [by left; right|].
        right. by exists a', b'.
    + split.
      * intros [?|(a' & b' & Hin & ? & ?)]; [by left|].
        right. exists a', b'. split; [by right|done].
      * intros [?|(a' & b' & Hin & Hs & ->)]; [by left|].
        apply elem_of_cons in Hin as [[= -> ->]|Hin]; [congruence|].
        right. by exists a', b'.
Qed.

End PairFacts.

Section PairsOf.
Context {A B : Type} (f : A → B).

Lemma pairs_of_elem (l : list A) a b :
  NoDup (map f l) → (a, b) ∈ pairs_of l → a ∈ l ∧ b ∈ l ∧ f a ≠ f b.
Proof.
  induction l as [|x l IH]; simpl; intros Hnd Hin.
  - by apply elem_of_nil in Hin.
  - apply NoDup_cons in Hnd as [Hx Hnd].
    apply elem_of_app in Hin as [Hin|Hin].
    + apply list_elem_of_fmap in Hin as (y & [= -> ->] & Hy).
      split; [left|]. split; [by right|].
      intros Heq. apply Hx. rewrite Heq. apply list_elem_of_fmap. eauto.
    + destruct (IH Hnd Hin) as (? & ? & ?).
      split; [by right|]. split; [by right | done].
Qed.

Lemma pairs_of_complete (l : list A) a b :
  a ∈ l → b ∈ l → f a ≠ f b → (a, b) ∈ pairs_of l ∨ (b, a) ∈ pairs_of l.
Proof.
  induction l as [|x l IH]; simpl; intros Ha Hb Hne.
  - by apply elem_of_nil in Ha.
  - apply elem_of_cons in Ha as [->|Ha]; apply elem_of_cons in Hb as [->|Hb].
    + done.
    + left. apply elem_of_app. left. apply list_elem_of_fmap. eauto.
    + right. apply elem_of_app. left. apply list_elem_of_fmap. eauto.
    + destruct (IH Ha Hb Hne) as [?|?]; [left | right];
        apply elem_of_app; by right.
Qed.

End PairsOf.

Section TableFacts.
Context {K V : Type} `{EqDecision K} (key : V → K).

Lemma dict_set_keys_distinct (k : K) (v : V) d :
  NoDup (map fst d) → NoDup (map fst (dict_set k v d)).
Proof.
  induction d as [|[k' v'] d IH]; simpl; intros Hd.
  - apply NoDup_singleton.
  - destruct (decide (k = k')) as [->|Hne]; simpl; [done|].
    apply NoDup_cons in Hd as [Hk' Hd]. apply NoDup_cons. split; [|auto].
    intros Hin. apply Hk'.
    apply list_elem_of_fmap in Hin as [[k1 v1] [-> Hin]].
    apply dict_set_elem in Hin as [[-> _]|Hin]; [done|].
    apply list_elem_of_fmap. by exists (k1, v1).
Qed.

(** A table that is filled by [d[key(v)] = v]: its keys are distinct and
    each entry holds a value of the list under its own key. *)
Lemma fold_dict_set_table (l : list V) d :
  NoDup (map fst d) →
  (∀ k v, (k, v) ∈ d → k = key v) →
  let d' := fold_left (fun d v => dict_set (key v) v d) l d in
  NoDup (map fst d')
  ∧ (∀ k v, (k, v) ∈ d' → k = key v ∧ ((k, v) ∈ d ∨ v ∈ l)).
Proof.
  revert d. induction l as [|x l IH]; intros d Hnd Hkey; simpl.
  - split; [done|]. intros k v Hin. split; [auto | by left].
  - destruct (IH (dict_set (key x) x d)) as [Hnd' Hkey'].
    + by apply dict_set_keys_distinct.
    + intros k v Hin. apply dict_set_elem in Hin as [[-> ->]|Hin]; auto.
    + split; [done|]. intros k v Hin. destruct (Hkey' k v Hin) as [-> Hor].
      split; [done|]. destruct Hor as [Hd|Hl]; [|right; by right].
      apply dict_set_elem in Hd as [[_ ->]|Hd]; [right; left | by left].
Qed.

End TableFacts.

Section Phase2Facts.
Context `{BracketCheck} `{Constants}.

Lemma page_table_spec classifications :
  NoDup (map PageClassification.page_id (page_table classifications))
  ∧ ∀ pc, pc ∈ page_table classifications → pc ∈ classifications.
Proof.
  unfold page_table.
  destruct (fold_dict_set_table PageClassification.page_id classifications [])
    as [Hnd Hkey]; [constructor | by intros k v ?%elem_of_nil |].
  set (d := fold_left _ classifications []) in *. split.
  - assert (Hmap : map PageClassification.page_id (map snd d) = map fst d).
    { rewrite map_map. apply map_ext_in. intros [k v] Hin. simpl.
      apply list_elem_of_In in Hin. by destruct (Hkey k v Hin) as [-> _]. }
    by rewrite Hmap.
  - intros pc Hin. apply list_elem_of_fmap in Hin as ([k v] & -> & Hin).
    destruct (Hkey k v Hin) as [_ [Hd|Hl]]; [by apply elem_of_nil in Hd | done].
Qed.

Lemma _is_safe_pair_comm page_a page_b :
  _is_safe_pair page_a page_b = _is_safe_pair page_b page_a.
Proof.
  unfold _is_safe_pair.
  by rewrite (_are_product_siblings_sym page_b), (_are_parent_child_sym page_b),
       (_are_geographic_variants_sym page_b).
Qed.

Lemma run_phase2_fold classifications :
  run_phase2 classifications
  = fold_left (add_safe _is_safe_pair) (pairs_of (page_table classifications)) ∅.
Proof. reflexivity. Qed.

(** X12: a set of page ids is in the result of phase 2 exactly when it
    is the pair of ids of two compared classifications with different ids
    that [_is_safe_pair] judges safe; the compared classifications are
    classifications of the input with pairwise different ids. *)
Theorem run_phase2_spec (classifications : list PC) (s : gset Z) :
  (s ∈ run_phase2 classifications
   ↔ ∃ a b, a ∈ page_table classifications
            ∧ b ∈ page_table classifications
            ∧ PageClassification.page_id a ≠ PageClassification.page_id b
            ∧ _is_safe_pair a b = true
            ∧ s = id_pair a b)
  ∧ NoDup (map PageClassification.page_id (page_table classifications))
  ∧ (∀ pc, pc ∈ page_table classifications → pc ∈ classifications).
Proof.
  destruct (page_table_spec classifications) as [Hnd Hsub].
  split; [|done]. rewrite run_phase2_fold, fold_add_safe_elem. split.
  - intros [Hin|(a & b & Hin & Hsafe & ->)]; [by apply elem_of_empty in Hin|].
    destruct (pairs_of_elem PageClassification.page_id _ a b Hnd Hin)
      as (? & ? & ?).
    by exists a, b.
  - intros (a & b & Ha & Hb & Hne & Hsafe & ->). right.
    destruct (pairs_of_complete PageClassification.page_id _ a b Ha Hb Hne)
      as [Hin|Hin].
    + by exists a, b.
    + exists b, a. rewrite _is_safe_pair_comm, id_pair_comm. done.
Qed.

End Phase2Facts.

(** ** Phase 6: how issues are grouped *)

Section GroupFacts.
Context `{BracketCheck} `{Constants}.

Lemma cluster_map_snoc issues issue :
  cluster_map (issues ++ [issue]) = cluster_step (cluster_map issues) issue.
Proof. unfold cluster_map. by rewrite fold_left_app. Qed.

Lemma issues_of_key_snoc k issues issue :
  issues_of_key k (issues ++ [issue])
  = issues_of_key k issues
    ++ (if str_eqb (_generate_cluster_key issue) k then [issue] else []).
Proof. unfold issues_of_key. by rewrite List.filter_app. Qed.

Lemma merged_snoc m issue : merged (m ++ [issue]) = merge_issue (merged m) issue.
Proof. unfold merged. by rewrite fold_left_app. Qed.

(** The cluster of a key is the merge of the issues of that key, in the
    order of the input; a key without issue has no cluster. *)
Lemma cluster_map_get k issues :
  dict_get k (cluster_map issues)
  = match issues_of_key k issues with
    | [] => None
    | m => Some (merged m)
    end.
Proof.
  induction issues as [|issue issues IH] using rev_ind; [done|].
  rewrite cluster_map_snoc, issues_of_key_snoc. unfold cluster_step.
  unfold str_eqb.
  destruct (decide (_generate_cluster_key issue = k)) as [<-|Hne].
  - rewrite bool_decide_true, dict_get_set_eq by done. rewrite IH.
    destruct (issues_of_key (_generate_cluster_key issue) issues) as [|i m].
    + done.
    + change ((i :: m) ++ [issue]) with (i :: (m ++ [issue])).
      cbv iota beta.
      change (i :: (m ++ [issue])) with ((i :: m) ++ [issue]).
      by rewrite merged_snoc.
  - rewrite bool_decide_false, dict_get_set_ne by done.
    by rewrite app_nil_r.
Qed.

Lemma cluster_map_keys issues : NoDup (map fst (cluster_map issues)).
Proof.
  induction issues as [|issue issues IH] using rev_ind; [constructor|].
  rewrite cluster_map_snoc. by apply dict_set_keys.
Qed.

Lemma cluster_map_elem k acc issues :
  (k, acc) ∈ cluster_map issues
  ↔ issues_of_key k issues ≠ [] ∧ acc = merged (issues_of_key k issues).
Proof.
  split.
  - intros Hin. apply dict_elem_get in Hin; [|apply cluster_map_keys].
    rewrite cluster_map_get in Hin.
    destruct (issues_of_key k issues); [done|]. by injection Hin as <-.
  - intros [Hne ->]. apply dict_get_elem. rewrite cluster_map_get.
    by destruct (issues_of_key k issues).
Qed.

Lemma run_phase6_elem issues c :
  c ∈ run_phase6 issues
  ↔ ∃ k acc, (k, acc) ∈ cluster_map issues ∧ c = build_cluster k acc.
Proof.
  unfold run_phase6. destruct issues as [|i issues].
  - rewrite elem_of_nil. split; [done|].
    intros (k & acc & Hin & _). by apply elem_of_nil in Hin.
  - rewrite sort_by_elem, list_elem_of_fmap. split.
    + intros ([k acc] & -> & Hin). eauto.
    + intros (k & acc & Hin & ->). by exists (k, acc).
Qed.

(** X13: phase 6 gives one cluster per cluster key that occurs among the
    issues.  A cluster is built from the merge of exactly the issues that
    have its key, taken in their order; every issue is merged into the
    cluster of its key. *)
Theorem run_phase6_groups_by_key (issues : list Issue.t) :
  (∀ c, c ∈ run_phase6 issues →
        issues_of_key (Cluster.cluster_key c) issues ≠ []
        ∧ c = build_cluster (Cluster.cluster_key c)
                (merged (issues_of_key (Cluster.cluster_key c) issues)))
  ∧ (∀ issue, issue ∈ issues →
        ∃ c, c ∈ run_phase6 issues
             ∧ Cluster.cluster_key c = _generate_cluster_key issue
             ∧ issue ∈ Acc.issues
                         (merged (issues_of_key (Cluster.cluster_key c) issues))).
Proof.
  split.
  - intros c Hc. apply run_phase6_elem in Hc as (k & acc & Hin & ->).
    apply cluster_map_elem in Hin as [Hne ->]. done.
  - intros issue Hin.
    set (k := _generate_cluster_key issue).
    assert (Hk : issue ∈ issues_of_key k issues).
    { unfold issues_of_key. apply list_elem_of_In, List.filter_In.
      split; [by apply list_elem_of_In | apply str_eqb_refl]. }
    exists (build_cluster k (merged (issues_of_key k issues))).
    split; [|split; [done|]].
    + apply run_phase6_elem. exists k, (merged (issues_of_key k issues)).
      split; [|done]. apply cluster_map_elem. split; [|done].
      intros Hnil. rewrite Hnil in Hk. by apply elem_of_nil in Hk.
    + cbn [Cluster.cluster_key build_cluster].
      assert (Hiss : ∀ m acc, Acc.issues (fold_left merge_issue m acc)
                              = Acc.issues acc ++ m).
      { induction m as [|x m IHm]; intros acc; simpl; [by rewrite app_nil_r|].
        rewrite IHm. cbn [Acc.issues merge_issue].
        unfold merge_issue. destruct (Acc.conflict_type acc);
          cbn [Acc.issues]; by rewrite <- app_assoc. }
      unfold merged. by rewrite Hiss.
Qed.

End GroupFacts.

(** ** Phase 6: what a cluster takes from its issues *)

Section MergeFacts.
Context `{BracketCheck} `{Constants}.

Lemma merge_issue_labels acc issue :
  (Acc.conflict_type (merge_issue acc issue),
   Acc.bucket (merge_issue acc issue),
   Acc.badge (merge_issue acc issue),
   Acc.action_code (merge_issue acc issue))
  = match Acc.conflict_type acc with
    | None =>
        (Some (Issue.conflict_type issue), Some (_get_bucket issue),
         Some (_get_badge issue), Some (_get_action_code issue))
    | Some _ =>
        (Acc.conflict_type acc, Acc.bucket acc, Acc.badge acc,
         Acc.action_code acc)
    end.
Proof. unfold merge_issue. by destruct (Acc.conflict_type acc). Qed.

Lemma fold_merge_labels m acc t :
  Acc.conflict_type acc = Some t →
  let acc' := fold_left merge_issue m acc in
  Acc.conflict_type acc' = Acc.conflict_type acc
  ∧ Acc.bucket acc' = Acc.bucket acc
  ∧ Acc.badge acc' = Acc.badge acc
  ∧ Acc.action_code acc' = Acc.action_code acc.
Proof.
  revert acc. induction m as [|i m IH]; intros acc Ht; simpl; [done|].
  pose proof (merge_issue_labels acc i) as Hl. rewrite Ht in Hl.
  pose proof (f_equal (fun p => p.1.1.1) Hl) as Hc.
  pose proof (f_equal (fun p => p.1.1.2) Hl) as Hb.
  pose proof (f_equal (fun p => p.1.2) Hl) as Hg.
  pose proof (f_equal (fun p => p.2) Hl) as Ha.
  cbn [fst snd] in Hc, Hb, Hg, Ha.
  destruct (IH (merge_issue acc i)) as (-> & -> & -> & ->); [congruence|].
  by rewrite Hc, Hb, Hg, Ha.
Qed.

Lemma merged_labels first rest :
  Acc.conflict_type (merged (first :: rest)) = Some (Issue.conflict_type first)
  ∧ Acc.bucket (merged (first :: rest)) = Some (_get_bucket first)
  ∧ Acc.badge (merged (first :: rest)) = Some (_get_badge first)
  ∧ Acc.action_code (merged (first :: rest)) = Some (_get_action_code first).
Proof.
  unfold merged. simpl.
  pose proof (merge_issue_labels Acc.fresh first) as Hl.
  cbn [Acc.conflict_type Acc.fresh] in Hl.
  pose proof (f_equal (fun p => p.1.1.1) Hl) as Hc.
  pose proof (f_equal (fun p => p.1.1.2) Hl) as Hb.
  pose proof (f_equal (fun p => p.1.2) Hl) as Hg.
  pose proof (f_equal (fun p => p.2) Hl) as Ha.
  cbn [fst snd] in Hc, Hb, Hg, Ha.
  destruct (fold_merge_labels rest (merge_issue Acc.fresh first)
              (Issue.conflict_type first) Hc) as (-> & -> & -> & ->).
  done.
Qed.

Lemma bucket_badge_pairs issue :
  (_get_bucket issue, _get_badge issue)
  ∈ [ ("SEARCH_CONFLICT" : str, "CONFIRMED" : str);
      ("WRONG_WINNER" : str, "WRONG_WINNER" : str);
      ("SITE_DUPLICATION" : str, "POTENTIAL" : str) ].
Proof.
  unfold _get_badge, _get_bucket.
  destruct (Issue.gsc_validated issue || _).
  - left.
  - destruct (mem (Issue.conflict_type issue) wrong_winner_types).
    + right. left.
    + right. right. left.
Qed.

(** X14: the conflict type, the action code, the bucket and the badge of
    a cluster are those of the first issue of its key; the bucket and the
    badge always go together as SEARCH_CONFLICT with CONFIRMED,
    WRONG_WINNER with WRONG_WINNER, or SITE_DUPLICATION with POTENTIAL. *)
Theorem cluster_labels_from_first_issue (issues : list Issue.t)
    (c : Cluster.t) :
  c ∈ run_phase6 issues →
  ∃ first rest,
    issues_of_key (Cluster.cluster_key c) issues = first :: rest
    ∧ Cluster.conflict_type c = Some (Issue.conflict_type first)
    ∧ Cluster.action_code c = Some (_get_action_code first)
    ∧ Cluster.bucket c = Some (_get_bucket first)
    ∧ Cluster.badge c = Some (_get_badge first)
    ∧ (_get_bucket first, _get_badge first)
      ∈ [ ("SEARCH_CONFLICT" : str, "CONFIRMED" : str);
          ("WRONG_WINNER" : str, "WRONG_WINNER" : str);
          ("SITE_DUPLICATION" : str, "POTENTIAL" : str) ].
Proof.
  intros Hc. apply run_phase6_elem in Hc as (k & acc & Hin & ->).
  apply cluster_map_elem in Hin as [Hne ->].
  cbn [Cluster.cluster_key Cluster.conflict_type Cluster.action_code
         Cluster.bucket Cluster.badge build_cluster].
  destruct (issues_of_key k issues) as [|first rest]; [done|].
  exists first, rest. destruct (merged_labels first rest) as (Hc & Hb & Hg & Ha).
  repeat (split; [done|]). apply bucket_badge_pairs.
Qed.

Lemma merge_issue_severity acc issue :
  Acc.severity (merge_issue acc issue)
  = match Acc.severity acc with
    | None => Some (issue_severity issue)
    | Some s =>
        if (_severity_rank s <? _severity_rank (issue_severity issue))%Z
        then Some (issue_severity issue) else Some s
    end.
Proof. unfold merge_issue. by destruct (Acc.conflict_type acc). Qed.

(** The severity after a merge is that of a merged issue or the one that
    was there, and it ranks highest among them. *)
Lemma fold_merge_severity m acc :
  let acc' := fold_left merge_issue m acc in
  ((Acc.severity acc' = Acc.severity acc ∧ (m = [] ∨ Acc.severity acc ≠ None))
   ∨ ∃ i, i ∈ m ∧ Acc.severity acc' = Some (issue_severity i))
  ∧ (rank_of (Acc.severity acc) <= rank_of (Acc.severity acc'))%Z
  ∧ ∀ i, i ∈ m →
         (_severity_rank (issue_severity i) <= rank_of (Acc.severity acc'))%Z.
Proof.
  revert acc. induction m as [|x m IH]; intros acc; simpl.
  - split; [left; split; [done | by left]|]. split; [lia|].
    intros i Hi. by apply elem_of_nil in Hi.
  - destruct (IH (merge_issue acc x)) as (Hsrc & Hge & Hall).
    pose proof (merge_issue_severity acc x) as Hx.
    assert (Hstep : (rank_of (Acc.severity acc)
                     <= rank_of (Acc.severity (merge_issue acc x)))%Z
                    ∧ (_severity_rank (issue_severity x)
                       <= rank_of (Acc.severity (merge_issue acc x)))%Z
                    ∧ (Acc.severity (merge_issue acc x) = Acc.severity acc
                       ∧ Acc.severity acc ≠ None
                       ∨ Acc.severity (merge_issue acc x)
                         = Some (issue_severity x))).
    { rewrite Hx. destruct (Acc.severity acc) as [s|]; simpl.
      - destruct (_severity_rank s <? _severity_rank (issue_severity x))%Z
          eqn:Hlt; simpl.
        + apply Z.ltb_lt in Hlt. split; [lia|]. split; [lia | by right].
        + apply Z.ltb_ge in Hlt. split; [lia|]. split; [lia | by left].
      - split; [|split; [lia | by right]].
        unfold _severity_rank.
        repeat (cbn [dict_get]; destruct (decide _); [simpl; lia|]).
        simpl. lia. }
    destruct Hstep as (H1 & H2 & H3). split; [|split].
    + destruct Hsrc as [[Heq _]|(i & Hi & Heq)].
      * rewrite Heq. destruct H3 as [[-> Hne] | ->].
        -- left. split; [done | by right].
        -- right. exists x. split; [left | done].
      * right. exists i. split; [by right | done].
    + lia.
    + intros i Hi. apply elem_of_cons in Hi as [-> | Hi]; [lia | auto].
Qed.

(** X15: the severity of a cluster is the severity of one of the issues
    of its key (LOW for an issue without severity), and no issue of that
    key has a severity of higher rank. *)
Theorem cluster_severity_is_highest (issues : list Issue.t) (c : Cluster.t) :
  c ∈ run_phase6 issues →
  let group := issues_of_key (Cluster.cluster_key c) issues in
  (∃ i, i ∈ group ∧ Cluster.severity c = Some (issue_severity i))
  ∧ ∀ i, i ∈ group →
         (_severity_rank (issue_severity i) <= rank_of (Cluster.severity c))%Z.
Proof.
  intros Hc. apply run_phase6_elem in Hc as (k & acc & Hin & ->).
  apply cluster_map_elem in Hin as [Hne ->].
  cbn [Cluster.cluster_key Cluster.severity build_cluster]. cbv zeta.
  destruct (fold_merge_severity (issues_of_key k issues) Acc.fresh)
    as (Hsrc & _ & Hall).
  split; [|exact Hall].
  destruct Hsrc as [[_ [Hnil|Hne']]|Hex]; [done | done | exact Hex].
Qed.

End MergeFacts.

(** ** Phase 6: traffic data and pages of a cluster *)

Section ClusterContent.
Context `{BracketCheck} `{Constants}.

Lemma merge_gsc_fields g meta :
  GscData.total_impressions (merge_gsc g meta)
  = match Metadata.total_impressions meta with
    | Some n => Some (default 0 (GscData.total_impressions g) + n)%Z
    | None => GscData.total_impressions g
    end
  ∧ GscData.total_clicks (merge_gsc g meta)
    = match Metadata.total_clicks meta with
      | Some n => Some (default 0 (GscData.total_clicks g) + n)%Z
      | None => GscData.total_clicks g
      end
  ∧ GscData.gsc_rows (merge_gsc g meta)
    = match Metadata.gsc_rows meta with
      | Some rows => Some (default [] (GscData.gsc_rows g) ++ rows)
      | None => GscData.gsc_rows g
      end
  ∧ GscData.queries (merge_gsc g meta)
    = match Metadata.query meta with
      | Some q => Some (default [] (GscData.queries g) ++ [q])
      | None => GscData.queries g
      end.
Proof.
  unfold merge_gsc.
  destruct (Metadata.total_impressions meta), (Metadata.total_clicks meta),
    (Metadata.gsc_rows meta), (Metadata.query meta); done.
Qed.

Lemma merge_issue_gsc acc issue :
  Acc.gsc_data (merge_issue acc issue)
  = match Issue.metadata issue with
    | Some meta => merge_gsc (Acc.gsc_data acc) meta
    | None => Acc.gsc_data acc
    end.
Proof. unfold merge_issue. by destruct (Acc.conflict_type acc). Qed.

Lemma sum_Z_snoc l n : Phase4.sum_Z (l ++ [n]) = (Phase4.sum_Z l + n)%Z.
Proof. induction l as [|x l IH]; simpl; [lia|]. rewrite IH. lia. Qed.

Lemma once_written_default {A} (f : list A → Z) l :
  f [] = 0%Z → default 0%Z (once_written f l) = f l.
Proof. by destruct l. Qed.

Lemma once_written_default_list {A B} (f : list A → list B) l :
  f [] = [] → default [] (once_written f l) = f l.
Proof. by destruct l. Qed.

Lemma once_written_snoc {A B} (f : list A → B) l x :
  once_written f (l ++ [x]) = Some (f (l ++ [x])).
Proof. by destruct l. Qed.

Lemma omap_snoc {A B} (f : A → option B) l x :
  omap f (l ++ [x]) = omap f l ++ match f x with Some y => [y] | None => [] end.
Proof. rewrite omap_app. simpl. by destruct (f x). Qed.

Lemma merged_gsc m :
  let g := Acc.gsc_data (merged m) in
  GscData.total_impressions g
  = once_written Phase4.sum_Z (omap (issue_meta Metadata.total_impressions) m)
  ∧ GscData.total_clicks g
    = once_written Phase4.sum_Z (omap (issue_meta Metadata.total_clicks) m)
  ∧ GscData.gsc_rows g
    = once_written (@concat Row.t) (omap (issue_meta Metadata.gsc_rows) m)
  ∧ GscData.queries g
    = once_written id (omap (issue_meta Metadata.query) m).
Proof.
  induction m as [|i m IH] using rev_ind; [done|].
  cbv zeta in *. rewrite merged_snoc, merge_issue_gsc, !omap_snoc.
  destruct IH as (Hi & Hc & Hr & Hq). unfold issue_meta at 2 4 6 8.
  destruct (Issue.metadata i) as [meta|]; simpl.
  2:{ by rewrite !app_nil_r. }
  destruct (merge_gsc_fields (Acc.gsc_data (merged m)) meta)
    as (-> & -> & -> & ->).
  rewrite Hi, Hc, Hr, Hq.
  rewrite !once_written_default by done.
  rewrite (once_written_default_list (@concat Row.t)) by done.
  rewrite (once_written_default_list id) by done.
  repeat split.
  - destruct (Metadata.total_impressions meta);
      [by rewrite once_written_snoc, sum_Z_snoc | by rewrite app_nil_r].
  - destruct (Metadata.total_clicks meta);
      [by rewrite once_written_snoc, sum_Z_snoc | by rewrite app_nil_r].
  - destruct (Metadata.gsc_rows meta);
      [|by rewrite app_nil_r].
    rewrite once_written_snoc, concat_app. simpl. by rewrite app_nil_r.
  - destruct (Metadata.query meta);
      [by rewrite once_written_snoc | by rewrite app_nil_r].
Qed.

(** X16: the traffic data of a cluster add up those of the issues of its
    key: impressions and clicks are the sums of the totals that the issues
    carry, the rows are the rows of the issues one after the other, the
    queries are their queries in order; each entry exists only if some
    issue carries the key, and the cluster has no traffic data when no
    entry exists. *)
Theorem cluster_gsc_data_accumulates (issues : list Issue.t) (c : Cluster.t) :
  c ∈ run_phase6 issues →
  let group := issues_of_key (Cluster.cluster_key c) issues in
  let g := default GscData.empty (Cluster.gsc_data c) in
  GscData.total_impressions g
  = once_written Phase4.sum_Z
      (omap (issue_meta Metadata.total_impressions) group)
  ∧ GscData.total_clicks g
    = once_written Phase4.sum_Z (omap (issue_meta Metadata.total_clicks) group)
  ∧ GscData.gsc_rows g
    = once_written (@concat Row.t) (omap (issue_meta Metadata.gsc_rows) group)
  ∧ GscData.queries g
    = once_written id (omap (issue_meta Metadata.query) group)
  ∧ (Cluster.gsc_data c = None ↔ g = GscData.empty).
Proof.
  intros Hc. apply run_phase6_elem in Hc as (k & acc & Hin & ->).
  apply cluster_map_elem in Hin as [Hne ->].
  cbn [Cluster.cluster_key Cluster.gsc_data build_cluster]. cbv zeta.
  pose proof (merged_gsc (issues_of_key k issues)) as Hg. cbv zeta in Hg.
  destruct (Acc.gsc_data (merged (issues_of_key k issues)))
    as [[ti|] [tc|] [gr|] [qs|]] eqn:Eg; simpl in *;
    destruct Hg as (? & ? & ? & ?); repeat split; try done.
Qed.

Lemma merge_issue_pages acc issue :
  Acc.pages (merge_issue acc issue)
  = fold_left set_page (Issue.pages issue) (Acc.pages acc).
Proof. unfold merge_issue. by destruct (Acc.conflict_type acc). Qed.

Lemma fold_merge_pages m acc :
  Acc.pages (fold_left merge_issue m acc)
  = fold_left set_page (concat (map Issue.pages m)) (Acc.pages acc).
Proof.
  revert acc. induction m as [|i m IH]; intros acc; simpl; [done|].
  by rewrite IH, merge_issue_pages, fold_left_app.
Qed.

Lemma filter_sublist {A} (f : A → bool) (l : list A) :
  List.filter f l `sublist_of` l.
Proof.
  induction l as [|x l IH]; simpl; [constructor|].
  destruct (f x); by constructor.
Qed.

Lemma map_sublist {A B} (f : A → B) (l1 l2 : list A) :
  l1 `sublist_of` l2 → map f l1 `sublist_of` map f l2.
Proof. induction 1; simpl; by constructor. Qed.

Lemma sublist_elem {A} (l1 l2 : list A) x :
  l1 `sublist_of` l2 → x ∈ l1 → x ∈ l2.
Proof.
  induction 1 as [|y l1 l2 _ IH|y l1 l2 _ IH]; intros Hx; [done| |].
  - apply elem_of_cons in Hx as [-> | Hx]; [left | right; auto].
  - right. auto.
Qed.

Lemma split_large_cluster_sublist pages key :
  _split_large_cluster pages key `sublist_of` pages.
Proof.
  unfold _split_large_cluster.
  destruct ((1 <? length (folder_groups pages)) && _); [|apply sublist_take].
  etrans; [apply sublist_take|].
  destruct pages as [|p pages]; [constructor|].
  pose proof (folder_groups_nonempty p pages) as Hne.
  destruct (folder_groups (p :: pages)) as [|[r g] d] eqn:Hd; [done|].
  destruct (max_by_len_spec g (map snd d)) as [Hin _].
  destruct (folder_groups_values (max_by_len (g :: map snd d)) (p :: pages))
    as [r' Hr']; [by rewrite Hd|].
  simpl map. rewrite Hr'. apply filter_sublist.
Qed.

(** X17: a cluster never lists a page id twice, and each of its pages is
    a page of an issue of its key; the pages that remain after the size
    cap are a sub-list of the merged pages, in the same order. *)
Theorem cluster_pages_distinct (issues : list Issue.t) (c : Cluster.t) :
  c ∈ run_phase6 issues →
  let group := issues_of_key (Cluster.cluster_key c) issues in
  NoDup (map PageClassification.page_id (Cluster.pages c))
  ∧ (∀ page, page ∈ Cluster.pages c →
             ∃ i, i ∈ group ∧ page ∈ Issue.pages i)
  ∧ Cluster.pages c `sublist_of` map snd (Acc.pages (merged group)).
Proof.
  intros Hc. apply run_phase6_elem in Hc as (k & acc & Hin & ->).
  apply cluster_map_elem in Hin as [Hne ->].
  cbn [Cluster.cluster_key Cluster.pages build_cluster]. cbv zeta.
  set (group := issues_of_key k issues).
  set (all := map snd (Acc.pages (merged group))).
  destruct (fold_dict_set_table PageClassification.page_id
              (concat (map Issue.pages group)) [])
    as [Hnd Hkey]; [constructor | by intros ? ? ?%elem_of_nil |].
  assert (Hpages : Acc.pages (merged group)
                   = fold_left (fun d v => dict_set (PageClassification.page_id v) v d)
                       (concat (map Issue.pages group)) []).
  { unfold merged. by rewrite fold_merge_pages. }
  rewrite <- Hpages in Hnd, Hkey.
  assert (Hall_nd : NoDup (map PageClassification.page_id all)).
  { assert (Hmap : map PageClassification.page_id all
                   = map fst (Acc.pages (merged group))).
    { unfold all. rewrite map_map. apply map_ext_in. intros [i v] Hiv. simpl.
      apply list_elem_of_In in Hiv. by destruct (Hkey i v Hiv) as [-> _]. }
    by rewrite Hmap. }
  assert (Hall_in : ∀ page, page ∈ all →
                            ∃ i, i ∈ group ∧ page ∈ Issue.pages i).
  { intros page Hp. apply list_elem_of_fmap in Hp as ([i v] & -> & Hiv).
    destruct (Hkey i v Hiv) as [_ [Hd|Hl]]; [by apply elem_of_nil in Hd|].
    apply list_elem_of_In, in_concat in Hl as (ps & Hps & Hv).
    apply in_map_iff in Hps as (issue & <- & Hissue).
    exists issue. split; by apply list_elem_of_In. }
  assert (Hsub : (if MAX_CLUSTER_SIZE <? length all
                  then _split_large_cluster all k else all) `sublist_of` all).
  { destruct (MAX_CLUSTER_SIZE <? length all);
      [apply split_large_cluster_sublist | done]. }
  split; [|split; [|done]].
  - eapply sublist_NoDup; [exact Hall_nd|]. by apply map_sublist.
  - intros page Hp. apply Hall_in. eapply sublist_elem; eauto.
Qed.

End ClusterContent.

(** ** Phase 6: the split, the order and the keys of the clusters *)

Section SortedFacts.
Context {A : Type} (le : A → A → bool).
Context (le_total : ∀ x y, le x y = false → le y x = true).
Context (le_trans : ∀ x y z, le x y = true → le y z = true → le x z = true).

Lemma insert_by_Permutation x l : insert_by le x l ≡ₚ x :: l.
Proof.
  induction l as [|y l IH]; simpl; [done|].
  destruct (le x y); [done|]. rewrite IH. apply Permutation_swap.
Qed.

Lemma sort_by_Permutation l : sort_by le l ≡ₚ l.
Proof.
  induction l as [|y l IH]; simpl; [done|].
  by rewrite insert_by_Permutation, IH.
Qed.

Lemma insert_by_sorted x l :
  StronglySorted (fun a b => le a b = true) l →
  StronglySorted (fun a b => le a b = true) (insert_by le x l).
Proof.
  induction 1 as [|y l Hs IH Hy]; simpl; [by repeat constructor|].
  destruct (le x y) eqn:Hxy.
  - constructor; [by constructor|]. constructor; [done|].
    eapply Forall_impl; [exact Hy|]. intros z Hz. by eapply le_trans.
  - constructor; [done|].
    rewrite Forall_forall. intros z Hz.
    apply insert_by_elem in Hz as [-> | Hz]; [by apply le_total|].
    rewrite Forall_forall in Hy. auto.
Qed.

Lemma sort_by_sorted l :
  StronglySorted (fun a b => le a b = true) (sort_by le l).
Proof.
  induction l as [|y l IH]; simpl; [constructor|]. by apply insert_by_sorted.
Qed.

Lemma sorted_lookup (R : A → A → Prop) l i j x y :
  StronglySorted R l → i < j → l !! i = Some x → l !! j = Some y → R x y.
Proof.
  intros Hs. revert i j. induction Hs as [|a l Hs IH Ha]; intros i j Hij Hi Hj.
  - done.
  - destruct j as [|j]; [lia|]. simpl in Hj. destruct i as [|i].
    + injection Hi as <-. rewrite Forall_forall in Ha. apply Ha.
      by eapply list_elem_of_lookup_2.
    + simpl in Hi. apply (IH i j); [lia | done | done].
Qed.

End SortedFacts.

Section OrderFacts.
Context `{BracketCheck} `{Constants}.

Lemma cluster_le_total x y : cluster_le x y = false → cluster_le y x = true.
Proof.
  unfold cluster_le. intros Hxy.
  apply orb_false_iff in Hxy as [Hlt Hand]. apply Z.ltb_ge in Hlt.
  apply orb_true_iff.
  destruct (Z.eq_dec (bucket_rank x) (bucket_rank y)) as [Heq|Hne].
  - right. rewrite Heq, Z.eqb_refl in *. simpl in *.
    apply Z.leb_gt in Hand. apply Z.leb_le. lia.
  - left. apply Z.ltb_lt. lia.
Qed.

Lemma cluster_le_trans x y z :
  cluster_le x y = true → cluster_le y z = true → cluster_le x z = true.
Proof.
  unfold cluster_le. rewrite !orb_true_iff, !andb_true_iff, !Z.ltb_lt,
    !Z.eqb_eq, !Z.leb_le. lia.
Qed.

(** X18: the clusters come out ordered: a cluster that stands before
    another one has a bucket rank (SEARCH_CONFLICT, then SITE_DUPLICATION,
    then the rest) that is not greater, and within one rank a priority
    score that is not smaller. *)
Theorem run_phase6_sorted (issues : list Issue.t) (i j : nat)
    (ci cj : Cluster.t) :
  i < j →
  run_phase6 issues !! i = Some ci →
  run_phase6 issues !! j = Some cj →
  (bucket_rank ci <= bucket_rank cj)%Z
  ∧ (bucket_rank ci = bucket_rank cj →
     (Cluster.priority_score cj <= Cluster.priority_score ci)%Z).
Proof.
  intros Hij Hi Hj.
  assert (Hle : cluster_le ci cj = true).
  { unfold run_phase6 in Hi, Hj. destruct issues as [|x issues]; [done|].
    eapply (sorted_lookup (fun a b => cluster_le a b = true)); eauto.
    apply sort_by_sorted; [apply cluster_le_total | apply cluster_le_trans]. }
  unfold cluster_le in Hle.
  rewrite orb_true_iff, andb_true_iff, Z.ltb_lt, Z.eqb_eq, Z.leb_le in Hle.
  lia.
Qed.

Lemma dict_set_length {V} (k : str) (v : V) d :
  1 ≤ length (dict_set k v d) ≤ S (length d).
Proof.
  induction d as [|[k' v'] d IH]; simpl; [lia|].
  destruct (decide (k = k')); simpl; lia.
Qed.

Lemma cluster_map_length issues :
  length (cluster_map issues) ≤ length issues
  ∧ (issues ≠ [] → cluster_map issues ≠ []).
Proof.
  induction issues as [|x issues IH] using rev_ind; [done|].
  rewrite cluster_map_snoc, length_app. unfold cluster_step. cbn [length].
  destruct IH as [IH _].
  match goal with |- context [dict_set ?k ?v ?d] =>
    pose proof (dict_set_length k v d) as Hl; destruct (dict_set k v d) end.
  - simpl in Hl. lia.
  - split; [lia | done].
Qed.

Lemma run_phase6_keys_perm issues :
  map Cluster.cluster_key (run_phase6 issues) ≡ₚ map fst (cluster_map issues).
Proof.
  unfold run_phase6, cluster_map. destruct issues as [|x issues]; [done|].
  rewrite sort_by_Permutation, map_map.
  erewrite map_ext; [reflexivity|]. by intros [k acc].
Qed.

(** X19: no two clusters have the same key; there are at most as many
    clusters as issues, and none exactly when there is no issue. *)
Theorem run_phase6_keys_distinct (issues : list Issue.t) :
  NoDup (map Cluster.cluster_key (run_phase6 issues))
  ∧ length (run_phase6 issues) ≤ length issues
  ∧ (run_phase6 issues = [] ↔ issues = []).
Proof.
  pose proof (run_phase6_keys_perm issues) as Hperm.
  destruct (cluster_map_length issues) as [Hlen Hne].
  assert (Hl : length (run_phase6 issues) = length (cluster_map issues)).
  { rewrite <- (List.length_map Cluster.cluster_key), Hperm.
    apply List.length_map. }
  split; [|split; [lia|]].
  - rewrite Hperm. apply cluster_map_keys.
  - split; [|by intros ->].
    intros Hnil. destruct issues as [|x issues]; [done|].
    rewrite Hnil in Hl. simpl in Hl.
    destruct (cluster_map (x :: issues)) eqn:Hm; [|done].
    by destruct Hne.
Qed.

Lemma largest_group_covers (pages : list PC) r :
  length (under_root r pages)
  ≤ length (max_by_len (map snd (folder_groups pages))).
Proof.
  destruct (under_root r pages) as [|q qs] eqn:Hr; [simpl; lia|].
  pose proof (folder_groups_of r pages) as Hg. unfold group_of in Hg.
  destruct (dict_get r (folder_groups pages)) as [g|] eqn:Hget;
    [|by rewrite Hr in Hg].
  simpl in Hg. subst g. apply dict_get_elem in Hget.
  destruct (folder_groups pages) as [|[r0 g0] d]; [by apply elem_of_nil in Hget|].
  destruct (max_by_len_spec g0 (map snd d)) as [_ Hmax].
  rewrite <- Hr. apply Hmax.
  change (g0 :: map snd d) with (map snd ((r0, g0) :: d)).
  apply list_elem_of_fmap. by exists (r, under_root r pages).
Qed.

(** X20: the split of an oversize cluster keeps a sub-list of the pages,
    in their order, and with a positive cap it keeps at least one page of
    a non-empty list. *)
Theorem split_large_cluster_keeps_order (pages : list PC) (key : str) :
  _split_large_cluster pages key `sublist_of` pages
  ∧ (pages ≠ [] → 0 < MAX_CLUSTER_SIZE → _split_large_cluster pages key ≠ []).
Proof.
  split; [apply split_large_cluster_sublist|].
  intros Hne Hmax. unfold _split_large_cluster.
  assert (Htake : ∀ l : list PC, l ≠ [] → take MAX_CLUSTER_SIZE l ≠ []).
  { intros l Hl. destruct l; [done|]. destruct MAX_CLUSTER_SIZE; [lia | done]. }
  destruct (_ && _); apply Htake; [|done].
  destruct pages as [|p pages]; [done|].
  pose proof (largest_group_covers (p :: pages)
                (PageClassification.folder_root p)) as Hcov.
  unfold under_root in Hcov. simpl in Hcov. rewrite str_eqb_refl in Hcov.
  intros Hnil. rewrite Hnil in Hcov. simpl in Hcov. lia.
Qed.

(** X21: the priority score is the sum of the bucket score, the severity
    score and an impression score between 0 and 20, and it does not
    decrease when the impressions grow. *)
Theorem calculate_priority_bounds (bucket severity : option str)
    (impressions impressions' : Z) :
  let base := (default 0 (bucket ≫= BUCKET_SCORES)
               + default 0 (severity ≫= SEVERITY_SCORES))%Z in
  (base <= _calculate_priority bucket severity impressions <= base + 20)%Z
  ∧ ((impressions <= impressions')%Z →
     (_calculate_priority bucket severity impressions
      <= _calculate_priority bucket severity impressions')%Z)
  ∧ ((impressions <= 0)%Z → (0 < IMPRESSION_THRESHOLD_MEDIUM)%Z →
     (0 < IMPRESSION_THRESHOLD_HIGH)%Z →
     _calculate_priority bucket severity impressions = base).
Proof.
  cbv zeta. unfold _calculate_priority.
  destruct (IMPRESSION_THRESHOLD_HIGH <=? impressions)%Z eqn:H1,
    (IMPRESSION_THRESHOLD_MEDIUM <=? impressions)%Z eqn:H2,
    (0 <? impressions)%Z eqn:H3,
    (IMPRESSION_THRESHOLD_HIGH <=? impressions')%Z eqn:H4,
    (IMPRESSION_THRESHOLD_MEDIUM <=? impressions')%Z eqn:H5,
    (0 <? impressions')%Z eqn:H6;
    rewrite ?Z.leb_le, ?Z.leb_gt, ?Z.ltb_lt, ?Z.ltb_ge in *; lia.
Qed.

End OrderFacts.

(** ** Worked examples of the further properties *)

Section FurtherExamples.
#[local] Existing Instance any_bracketed_host.
#[local] Existing Instance spec_constants.

Example mixed_clusters :
  map cluster_summary (run_phase6 mixed_issues)
  = [ ("GSC_CONFIRMED:event planning brooklyn" : str,
       Some ("SEARCH_CONFLICT" : str), Some ("CONFIRMED" : str), 2);
      ("CONTEXT_DUPLICATE:catering" : str,
       Some ("SITE_DUPLICATION" : str), Some ("POTENTIAL" : str), 3) ].
Proof. vm_compute. reflexivity. Qed.

Lemma extract_slug_tokens_clean_witness :
  3 ≤ length ("dance" : str)
  ∧ is_year_token "dance" = false
  ∧ (true = true → ("dance" : str) ∉ SLUG_STOP_WORDS)
  ∧ has_char "-" "dance" = false ∧ has_char "_" "dance" = false
  ∧ has_char "/" "dance" = false
  ∧ lower "dance" = ("dance" : str).
Proof.
  apply (extract_slug_tokens_clean "/blog/2024/best-dance-shoes-for-you/" true).
  apply (bool_decide_unpack _). vm_compute. exact I.
Defined.

Lemma cluster_labels_from_first_issue_witness :
  ∃ first rest,
    issues_of_key (Cluster.cluster_key catering_cluster) mixed_issues
    = first :: rest
    ∧ Cluster.conflict_type catering_cluster
      = Some (Issue.conflict_type first)
    ∧ Cluster.action_code catering_cluster = Some (_get_action_code first)
    ∧ Cluster.bucket catering_cluster = Some (_get_bucket first)
    ∧ Cluster.badge catering_cluster = Some (_get_badge first)
    ∧ (_get_bucket first, _get_badge first)
      ∈ [ ("SEARCH_CONFLICT" : str, "CONFIRMED" : str);
          ("WRONG_WINNER" : str, "WRONG_WINNER" : str);
          ("SITE_DUPLICATION" : str, "POTENTIAL" : str) ].
Proof.
  apply (cluster_labels_from_first_issue mixed_issues catering_cluster).
  vm_compute. right. left.
Defined.

Lemma cluster_severity_is_highest_witness :
  let group :=
    issues_of_key (Cluster.cluster_key catering_cluster) mixed_issues in
  (∃ i, i ∈ group ∧ Cluster.severity catering_cluster = Some (issue_severity i))
  ∧ ∀ i, i ∈ group →
         (_severity_rank (issue_severity i)
          <= rank_of (Cluster.severity catering_cluster))%Z.
Proof.
  apply (cluster_severity_is_highest mixed_issues catering_cluster).
  vm_compute. right. left.
Defined.

Lemma cluster_gsc_data_accumulates_witness :
  let group :=
    issues_of_key (Cluster.cluster_key brooklyn_cluster) mixed_issues in
  let g := default GscData.empty (Cluster.gsc_data brooklyn_cluster) in
  GscData.total_impressions g
  = once_written Phase4.sum_Z
      (omap (issue_meta Metadata.total_impressions) group)
  ∧ GscData.total_clicks g
    = once_written Phase4.sum_Z (omap (issue_meta Metadata.total_clicks) group)
  ∧ GscData.gsc_rows g
    = once_written (@concat Row.t) (omap (issue_meta Metadata.gsc_rows) group)
  ∧ GscData.queries g
    = once_written id (omap (issue_meta Metadata.query) group)
  ∧ (Cluster.gsc_data brooklyn_cluster = None ↔ g = GscData.empty).
Proof.
  apply (cluster_gsc_data_accumulates mixed_issues brooklyn_cluster).
  vm_compute. left.
Defined.

Lemma cluster_pages_distinct_witness :
  let group :=
    issues_of_key (Cluster.cluster_key catering_cluster) mixed_issues in
  NoDup (map PageClassification.page_id (Cluster.pages catering_cluster))
  ∧ (∀ page, page ∈ Cluster.pages catering_cluster →
             ∃ i, i ∈ group ∧ page ∈ Issue.pages i)
  ∧ Cluster.pages catering_cluster
    `sublist_of` map snd (Acc.pages (merged group)).
Proof.
  apply (cluster_pages_distinct mixed_issues catering_cluster).
  vm_compute. right. left.
Defined.

Lemma run_phase6_sorted_witness :
  (bucket_rank brooklyn_cluster <= bucket_rank catering_cluster)%Z
  ∧ (bucket_rank brooklyn_cluster = bucket_rank catering_cluster →
     (Cluster.priority_score catering_cluster
      <= Cluster.priority_score brooklyn_cluster)%Z).
Proof.
  apply (run_phase6_sorted mixed_issues 0 1); [lia | reflexivity | reflexivity].
Defined.

End FurtherExamples.

(** ** Phase 6: the cluster key and the conflict type *)

Section KeyFacts.
Context `{BracketCheck} `{Constants}.

Lemma cluster_key_shape (i : Issue.t) :
  ∃ rest, _generate_cluster_key i = fmt_key (Issue.conflict_type i) rest.
Proof.
  unfold _generate_cluster_key. cbv zeta.
  repeat (match goal with |- context [if ?b then _ else _] => destruct b end);
    eexists; reflexivity.
Qed.

Lemma startswith_app (p s : str) : startswith p (p ++ s) = true.
Proof.
  induction p as [|c p IH]; simpl; [done|].
  unfold eqc. by rewrite (proj2 (Ascii.eqb_eq c c) eq_refl).
Qed.

Lemma fmt_key_type_inj (a b r s : str) :
  has_char ":" a = false → has_char ":" b = false →
  fmt_key a r = fmt_key b s → a = b.
Proof.
  unfold fmt_key, has_char.
  change (list_ascii_of_string ":") with [":"%char].
  revert b. induction a as [|x a IH]; intros [|y b] Ha Hb Heq; simpl in *.
  - done.
  - injection Heq as <- _. by vm_compute in Hb.
  - injection Heq as -> _. by vm_compute in Ha.
  - injection Heq as -> Heq.
    apply orb_false_iff in Ha as [_ Ha]. apply orb_false_iff in Hb as [_ Hb].
    f_equal. by apply IH.
Qed.

(** X22: a cluster key starts with the conflict type and a colon, so two
    issues whose conflict types hold no colon fall into one cluster only
    if they have the same conflict type, and then the same action code. *)
Theorem cluster_key_determines_type (i1 i2 : Issue.t) :
  has_char ":" (Issue.conflict_type i1) = false →
  has_char ":" (Issue.conflict_type i2) = false →
  _generate_cluster_key i1 = _generate_cluster_key i2 →
  Issue.conflict_type i1 = Issue.conflict_type i2
  ∧ _get_action_code i1 = _get_action_code i2
  ∧ startswith (Issue.conflict_type i1 ++ ":") (_generate_cluster_key i2) = true.
Proof.
  intros H1 H2 Hk.
  destruct (cluster_key_shape i1) as [r1 Hr1].
  destruct (cluster_key_shape i2) as [r2 Hr2].
  assert (Heq : Issue.conflict_type i1 = Issue.conflict_type i2).
  { apply (fmt_key_type_inj _ _ r1 r2); [done | done | congruence]. }
  split; [done|]. split; [unfold _get_action_code; by rewrite Heq|].
  rewrite Hr2, <- Heq. unfold fmt_key. rewrite app_assoc.
  apply startswith_app.
Qed.

End KeyFacts.

(** ** Phase 5: what the wrong-winner issues carry *)

Section WinnerFacts.
Context `{BracketCheck} `{Constants}.

Lemma str_eqb_eq (a b : str) : str_eqb a b = true → a = b.
Proof. unfold str_eqb. apply bool_decide_eq_true. Qed.

Lemma mem_elem (x : str) (l : list str) : mem x l = true → x ∈ l.
Proof.
  unfold mem. intros Hm. apply existsb_exists in Hm as (y & Hy & Hxy).
  apply str_eqb_eq in Hxy as ->. by apply list_elem_of_In.
Qed.

Lemma take_filter_elem {A} (f : A → bool) n l x :
  x ∈ take n (List.filter f l) → f x = true ∧ x ∈ l.
Proof.
  intros Hx. apply (subseteq_take n) in Hx.
  apply list_elem_of_In, filter_In in Hx as [Hl Hf].
  split; [done|]. by apply list_elem_of_In.
Qed.

Lemma detect_wrong_winner_labels query winner rows cls issue :
  _detect_wrong_winner query winner rows cls = Some issue →
  Issue.conflict_type issue ∈ wrong_winner_types
  ∧ Issue.gsc_validated issue = false
  ∧ _get_bucket issue = "WRONG_WINNER"
  ∧ _get_badge issue = "WRONG_WINNER"
  ∧ _generate_cluster_key issue = fmt_key (Issue.conflict_type issue) query
  ∧ issue_meta Metadata.query issue = Some query
  ∧ issue_meta Metadata.impressions issue = Some (Row.impressions winner)
  ∧ issue_meta Metadata.total_impressions issue = None
  ∧ (Issue.severity issue = Some ("HIGH" : str)
     ↔ Issue.conflict_type issue = "GEOGRAPHIC_MISMATCH").
Proof.
  unfold _detect_wrong_winner.
  destruct (detect_intent_mismatch query winner cls) as [i1|] eqn:H1.
  { intros [= <-]. revert H1. unfold detect_intent_mismatch.
    destruct (str_eqb _ _ && type_in _ _); [|done].
    destruct (List.filter _ cls) as [|b bs]; [done|].
    intros [= <-]. split; [vm_compute; left|].
    repeat (split; [reflexivity|]). split; discriminate. }
  destruct (detect_page_type_mismatch query winner cls) as [i2|] eqn:H2.
  { intros [= <-]. revert H2. unfold detect_page_type_mismatch.
    destruct (is_plural_query _ && str_eqb _ _); [|done].
    destruct (List.filter _ cls) as [|b bs]; [done|].
    intros [= <-]. split; [vm_compute; do 2 right; left|].
    repeat (split; [reflexivity|]). split; discriminate. }
  destruct (detect_homepage_hoarding query winner cls) as [i3|] eqn:H3.
  { intros [= <-]. revert H3. unfold detect_homepage_hoarding.
    destruct (str_eqb _ _); [|done].
    destruct (List.filter _ cls) as [|b bs]; [done|].
    intros [= <-]. split; [vm_compute; do 3 right; left|].
    repeat (split; [reflexivity|]). split; discriminate. }
  unfold detect_geographic_mismatch.
  destruct (_ && str_eqb _ _); [|done].
  destruct (_extract_city_from_query query) as [[|q qc]|]; [done| |done].
  destruct (nonempty _ && nonempty _ && negb _); [|done].
  destruct (List.filter _ cls) as [|b bs]; [done|].
  intros [= <-]. split; [vm_compute; right; left|].
  repeat (split; [reflexivity|]). split; reflexivity.
Qed.

(** X23: an issue of wrong-winner detection has one of the four
    wrong-winner types and is not validated, so phase 6 gives it the
    bucket and the badge WRONG_WINNER and the cluster key of its type and
    its query.  The query that it records is the query of a group of
    matched rows, and the impressions that it carries are those of the
    winning row of that group: the first row in the order of descending
    impressions, which no row of the group exceeds.  It carries no total
    of impressions, and its severity is HIGH exactly for a geographic
    mismatch. *)
Theorem wrong_winner_issue_labels (classifications : list PC)
    (gsc_data : list RawRow) (brand_name homepage_title : option str)
    (issue : Issue.t) :
  issue ∈ run_phase5 classifications gsc_data brand_name homepage_title →
  Issue.conflict_type issue ∈ wrong_winner_types
  ∧ Issue.gsc_validated issue = false
  ∧ _get_bucket issue = "WRONG_WINNER"
  ∧ _get_badge issue = "WRONG_WINNER"
  ∧ (∃ query rows winner,
       (query, rows)
         ∈ query_groups classifications gsc_data brand_name homepage_title
       ∧ head (sort_by by_impressions_desc rows) = Some winner
       ∧ winner ∈ rows
       ∧ (∀ r, r ∈ rows → (Row.impressions r ≤ Row.impressions winner)%Z)
       ∧ _generate_cluster_key issue = fmt_key (Issue.conflict_type issue) query
       ∧ issue_meta Metadata.query issue = Some query
       ∧ issue_meta Metadata.impressions issue = Some (Row.impressions winner))
  ∧ issue_meta Metadata.total_impressions issue = None
  ∧ (Issue.severity issue = Some ("HIGH" : str)
     ↔ Issue.conflict_type issue = "GEOGRAPHIC_MISMATCH").
Proof.
  intros Hin.
  apply run_phase5_inv in Hin as (query & rows & winner & Hg & Hh & Hw & Hm & Hd).
  apply detect_wrong_winner_labels in Hd
    as (Ht & Hv & Hb & Hbadge & Hk & Hq & Hi & Hn & Hs).
  repeat (split; [done|]). split; [|done].
  by exists query, rows, winner.
Qed.

End WinnerFacts.

Section WinnerTypes.
Context `{BracketCheck} `{Constants}.

Lemma filter_take_facts (f : PC → bool) n cls b bs p :
  List.filter f cls = b :: bs → p ∈ take n (b :: bs) →
  f p = true ∧ p ∈ cls.
Proof. intros <-. apply take_filter_elem. Qed.

Lemma detect_wrong_winner_types query winner rows cls issue :
  _detect_wrong_winner query winner rows cls = Some issue →
  ∃ others,
    issue_meta Metadata.query issue = Some query
    ∧ Issue.pages issue = Row.page_class winner :: others
    ∧ others ≠ []
    ∧ (∀ p, p ∈ others → p ∈ cls)
    ∧ (Issue.conflict_type issue = "INTENT_MISMATCH" →
       (classify_query_intent query).1 = "transactional"
       ∧ PageClassification.classified_type (Row.page_class winner) = "blog"
       ∧ ∀ p, p ∈ others →
              _has_query_overlap query p = true
              ∧ PageClassification.classified_type p
                ∈ [ "category_woo" : str; "category_shop" : str;
                    "category_custom" : str; "service_hub" : str;
                    "service_spoke" : str; "product" : str ])
    ∧ (Issue.conflict_type issue = "PAGE_TYPE_MISMATCH" →
       is_plural_query query = true
       ∧ PageClassification.classified_type (Row.page_class winner)
         = "product"
       ∧ ∀ p, p ∈ others →
              _has_query_overlap query p = true
              ∧ PageClassification.classified_type p
                ∈ [ "category_woo" : str; "category_shop" : str;
                    "category_custom" : str ])
    ∧ (Issue.conflict_type issue = "HOMEPAGE_HOARDING" →
       PageClassification.classified_type (Row.page_class winner)
       = "homepage"
       ∧ ∀ p, p ∈ others →
              _has_query_overlap query p = true
              ∧ PageClassification.classified_type p
                ∈ [ "service_hub" : str; "service_spoke" : str;
                    "product" : str; "category_woo" : str;
                    "category_shop" : str ])
    ∧ (Issue.conflict_type issue = "GEOGRAPHIC_MISMATCH" →
       (classify_query_intent query).2 = true
       ∧ PageClassification.classified_type (Row.page_class winner)
         = "location"
       ∧ ∀ p, p ∈ others →
              PageClassification.classified_type p = "location"
              ∧ normalize_geo (PageClassification.geo_node p)
                ≠ normalize_geo
                    (PageClassification.geo_node (Row.page_class winner))).
Proof.
  unfold _detect_wrong_winner.
  destruct (detect_intent_mismatch query winner cls) as [i1|] eqn:H1.
  { intros [= <-]. revert H1. unfold detect_intent_mismatch.
    destruct (str_eqb _ _ && type_in _ _) eqn:Hc; [|done].
    destruct (List.filter _ cls) as [|b bs] eqn:Hf; [done|].
    intros [= <-]. exists (take 2 (b :: bs)).
    apply andb_true_iff in Hc as [Hi Ht].
    apply str_eqb_eq in Hi. apply mem_elem, list_elem_of_singleton in Ht.
    split; [done|]. split; [done|]. split; [done|]. split.
    { intros p Hp. by destruct (filter_take_facts _ _ _ _ _ _ Hf Hp). }
    split; [|by repeat split].
    intros _. split; [done|]. split; [done|]. intros p Hp.
    destruct (filter_take_facts _ _ _ _ _ _ Hf Hp) as [Hfp _].
    apply andb_true_iff in Hfp as [Htp Ho]. split; [done|]. by apply mem_elem. }
  destruct (detect_page_type_mismatch query winner cls) as [i2|] eqn:H2.
  { intros [= <-]. revert H2. unfold detect_page_type_mismatch.
    destruct (is_plural_query _ && str_eqb _ _) eqn:Hc; [|done].
    destruct (List.filter _ cls) as [|b bs] eqn:Hf; [done|].
    intros [= <-]. exists (take 1 (b :: bs)).
    apply andb_true_iff in Hc as [Hi Ht]. apply str_eqb_eq in Ht.
    split; [done|]. split; [done|]. split; [done|]. split.
    { intros p Hp. by destruct (filter_take_facts _ _ _ _ _ _ Hf Hp). }
    split; [done|]. split; [|by repeat split].
    intros _. split; [done|]. split; [done|]. intros p Hp.
    destruct (filter_take_facts _ _ _ _ _ _ Hf Hp) as [Hfp _].
    apply andb_true_iff in Hfp as [Htp Ho]. split; [done|]. by apply mem_elem. }
  destruct (detect_homepage_hoarding query winner cls) as [i3|] eqn:H3.
  { intros [= <-]. revert H3. unfold detect_homepage_hoarding.
    destruct (str_eqb _ _) eqn:Hc; [|done].
    destruct (List.filter _ cls) as [|b bs] eqn:Hf; [done|].
    intros [= <-]. exists (take 2 (b :: bs)). apply str_eqb_eq in Hc.
    split; [done|]. split; [done|]. split; [done|]. split.
    { intros p Hp. by destruct (filter_take_facts _ _ _ _ _ _ Hf Hp). }
    split; [done|]. split; [done|]. split; [|done].
    intros _. split; [done|]. intros p Hp.
    destruct (filter_take_facts _ _ _ _ _ _ Hf Hp) as [Hfp _].
    apply andb_true_iff in Hfp as [Htp Ho]. split; [done|]. by apply mem_elem. }
  unfold detect_geographic_mismatch.
  destruct (_ && str_eqb _ _) eqn:Hc; [|done].
  destruct (_extract_city_from_query query) as [[|q qc]|]; [done| |done].
  destruct (nonempty _ && nonempty _ && negb _) eqn:Hn; [|done].
  destruct (List.filter _ cls) as [|b bs] eqn:Hf; [done|].
  intros [= <-]. exists [b].
  apply andb_true_iff in Hc as [Hl Ht]. apply str_eqb_eq in Ht.
  apply andb_true_iff in Hn as [_ Hne]. apply negb_true_iff in Hne.
  assert (Hb : b ∈ List.filter
                 (fun pc =>
                    str_eqb (PageClassification.classified_type pc) "location"
                    && str_eqb (normalize_geo (PageClassification.geo_node pc))
                         (normalize_geo (q :: qc))) cls).
  { rewrite Hf. left. }
  apply list_elem_of_In, filter_In in Hb as [Hbc Hbf].
  apply andb_true_iff in Hbf as [Hbt Hbg].
  apply str_eqb_eq in Hbt. apply str_eqb_eq in Hbg.
  split; [done|]. split; [done|]. split; [done|]. split.
  { intros p Hp. apply list_elem_of_singleton in Hp as ->.
    by apply list_elem_of_In. }
  split; [done|]. split; [done|]. split; [done|].
  intros _. split; [done|]. split; [done|].
  intros p Hp. apply list_elem_of_singleton in Hp as ->.
  split; [done|]. rewrite Hbg. intros Heq.
  unfold str_eqb in Hne. apply bool_decide_eq_false in Hne. by apply Hne.
Qed.


(** X24: the pages of a wrong-winner issue are the page of the winning
    row of the query that the issue records, the first row of that query
    in the order of descending impressions, and at least one other page
    of the classified corpus, and they have the page types that the
    conflict type names: a blog page against category, service or product
    pages for a transactional query; a product page against category
    pages for a plural query; the homepage against service, product or
    category pages; a location page against a location page of another
    city for a local query.  Except for the geographic case the other
    pages share a word with the query. *)
Theorem wrong_winner_page_types (classifications : list PC)
    (gsc_data : list RawRow) (brand_name homepage_title : option str)
    (issue : Issue.t) :
  issue ∈ run_phase5 classifications gsc_data brand_name homepage_title →
  ∃ query rows winner others,
    issue_meta Metadata.query issue = Some query
    ∧ (query, rows)
      ∈ query_groups classifications gsc_data brand_name homepage_title
    ∧ head (sort_by by_impressions_desc rows) = Some winner
    ∧ (∀ r, r ∈ rows → (Row.impressions r ≤ Row.impressions winner)%Z)
    ∧ Issue.pages issue = Row.page_class winner :: others
    ∧ others ≠ []
    ∧ (∀ p, p ∈ others → p ∈ classifications)
    ∧ (Issue.conflict_type issue = "INTENT_MISMATCH" →
       (classify_query_intent query).1 = "transactional"
       ∧ PageClassification.classified_type (Row.page_class winner) = "blog"
       ∧ ∀ p, p ∈ others →
              _has_query_overlap query p = true
              ∧ PageClassification.classified_type p
                ∈ [ "category_woo" : str; "category_shop" : str;
                    "category_custom" : str; "service_hub" : str;
                    "service_spoke" : str; "product" : str ])
    ∧ (Issue.conflict_type issue = "PAGE_TYPE_MISMATCH" →
       is_plural_query query = true
       ∧ PageClassification.classified_type (Row.page_class winner)
         = "product"
       ∧ ∀ p, p ∈ others →
              _has_query_overlap query p = true
              ∧ PageClassification.classified_type p
                ∈ [ "category_woo" : str; "category_shop" : str;
                    "category_custom" : str ])
    ∧ (Issue.conflict_type issue = "HOMEPAGE_HOARDING" →
       PageClassification.classified_type (Row.page_class winner)
       = "homepage"
       ∧ ∀ p, p ∈ others →
              _has_query_overlap query p = true
              ∧ PageClassification.classified_type p
                ∈ [ "service_hub" : str; "service_spoke" : str;
                    "product" : str; "category_woo" : str;
                    "category_shop" : str ])
    ∧ (Issue.conflict_type issue = "GEOGRAPHIC_MISMATCH" →
       (classify_query_intent query).2 = true
       ∧ PageClassification.classified_type (Row.page_class winner)
         = "location"
       ∧ ∀ p, p ∈ others →
              PageClassification.classified_type p = "location"
              ∧ normalize_geo (PageClassification.geo_node p)
                ≠ normalize_geo
                    (PageClassification.geo_node (Row.page_class winner))).
Proof.
  intros Hin.
  apply run_phase5_inv in Hin as (query & rows & winner & Hg & Hh & _ & Hm & Hd).
  apply detect_wrong_winner_types in Hd as (others & Hq & Hp & Hrest).
  by exists query, rows, winner, others.
Qed.

End WinnerTypes.

(** ** Phase 5: the rows that are grouped by query *)

Section GroupingFacts.
Context `{BracketCheck} `{Constants}.

Lemma query_groups_snoc cls data row brand title :
  query_groups cls (data ++ [row]) brand title
  = group_row (query_groups cls data brand title) row cls brand title.
Proof. unfold query_groups. by rewrite fold_left_app. Qed.

Lemma query_groups_keys cls data brand title :
  NoDup (map fst (query_groups cls data brand title)).
Proof.
  induction data as [|row data IH] using rev_ind; [constructor|].
  rewrite query_groups_snoc. unfold group_row.
  destruct (_ <? _)%Z; [done|]. destruct (is_branded_query _ _ _); [done|].
  destruct (url_to_page _ _); [|done]. by apply dict_set_keys.
Qed.

Lemma query_groups_length cls data brand title :
  length (query_groups cls data brand title) ≤ length data.
Proof.
  induction data as [|row data IH] using rev_ind; [done|].
  rewrite query_groups_snoc, length_app. cbn [length]. unfold group_row.
  destruct (_ <? _)%Z; [lia|]. destruct (is_branded_query _ _ _); [lia|].
  destruct (url_to_page _ _); [|lia].
  match goal with |- context [dict_set ?k ?v ?d] =>
    pose proof (dict_set_length k v d) end. lia.
Qed.

Lemma url_to_page_elem cls url page :
  url_to_page cls url = Some page →
  page ∈ cls ∧ PageClassification.normalized_url page = url.
Proof.
  unfold url_to_page. intros Hf. apply find_some in Hf as [Hin Heq].
  apply str_eqb_eq in Heq. split; [|done].
  apply list_elem_of_In. by apply in_rev.
Qed.

(** X25: a group of rows that phase 5 analyses is not empty and belongs
    to a query that is not branded; each of its rows comes from a row of
    the traffic data with that query (trimmed and in lower case), has the
    minimum of impressions at least, and is matched to the classified
    page that has its normalized URL. *)
Theorem query_groups_rows (classifications : list PC)
    (gsc_data : list RawRow) (brand_name homepage_title : option str)
    (query : str) (rows : list Row.t) :
  (query, rows)
    ∈ query_groups classifications gsc_data brand_name homepage_title →
  rows ≠ []
  ∧ is_branded_query query brand_name homepage_title = false
  ∧ ∀ r, r ∈ rows →
      Row.query r = query
      ∧ (MIN_IMPRESSIONS_THRESHOLD <= Row.impressions r)%Z
      ∧ Row.normalized_url r = normalize_full_url (Row.page_url r)
      ∧ Row.page_class r ∈ classifications
      ∧ PageClassification.normalized_url (Row.page_class r)
        = Row.normalized_url r
      ∧ ∃ raw, raw ∈ gsc_data
          ∧ query = lower (strip (raw_query raw))
          ∧ Row.page_url r = strip (raw_page raw)
          ∧ Row.impressions r = raw_impressions raw
          ∧ Row.clicks r = raw_clicks raw.
Proof.
  revert query rows.
  induction gsc_data as [|row data IH] using rev_ind; intros query rows Hin.
  { by apply elem_of_nil in Hin. }
  assert (Hold : ∀ q rs,
             (q, rs)
               ∈ query_groups classifications data brand_name homepage_title →
             rs ≠ []
             ∧ is_branded_query q brand_name homepage_title = false
             ∧ ∀ r, r ∈ rs →
                 Row.query r = q
                 ∧ (MIN_IMPRESSIONS_THRESHOLD <= Row.impressions r)%Z
                 ∧ Row.normalized_url r = normalize_full_url (Row.page_url r)
                 ∧ Row.page_class r ∈ classifications
                 ∧ PageClassification.normalized_url (Row.page_class r)
                   = Row.normalized_url r
                 ∧ ∃ raw, raw ∈ data ++ [row]
                     ∧ q = lower (strip (raw_query raw))
                     ∧ Row.page_url r = strip (raw_page raw)
                     ∧ Row.impressions r = raw_impressions raw
                     ∧ Row.clicks r = raw_clicks raw).
  { intros q rs Hq. destruct (IH _ _ Hq) as (Hne & Hb & Hr).
    split; [done|]. split; [done|]. intros r Hin'.
    destruct (Hr r Hin') as (? & ? & ? & ? & ? & raw & ? & ?).
    repeat (split; [done|]). exists raw. split; [|done].
    apply elem_of_app. by left. }
  clear IH.
  rewrite query_groups_snoc in Hin. unfold group_row in Hin.
  destruct (raw_impressions row <? MIN_IMPRESSIONS_THRESHOLD)%Z eqn:Himp;
    [by apply Hold|].
  destruct (is_branded_query (lower (strip (raw_query row))) brand_name
              homepage_title) eqn:Hbr; [by apply Hold|].
  destruct (url_to_page classifications
              (normalize_full_url (strip (raw_page row)))) as [page|] eqn:Hpage;
    [|by apply Hold].
  apply dict_set_elem in Hin as [[-> ->] | Hin]; [|by apply Hold].
  split; [by destruct (default [] _)|]. split; [done|].
  intros r Hr. apply elem_of_app in Hr as [Hr | Hr].
  - destruct (dict_get (lower (strip (raw_query row)))
                (query_groups classifications data brand_name homepage_title))
      as [old|] eqn:Hget; [|by apply elem_of_nil in Hr].
    apply dict_get_elem in Hget. destruct (Hold _ _ Hget) as (_ & _ & Hrows).
    by apply Hrows.
  - apply list_elem_of_singleton in Hr as ->. cbn.
    apply url_to_page_elem in Hpage as [Hcls Hnorm]. apply Z.ltb_ge in Himp.
    repeat (split; [done|]). exists row. split; [|done].
    apply elem_of_app. right. left.
Qed.

Lemma omap_length_le {A B} (f : A → option B) (l : list A) :
  length (omap f l) ≤ length l.
Proof. induction l as [|x l IH]; csimpl; [done|]. destruct (f x); csimpl; lia. Qed.

Lemma analyze_query_key cls (group : str * list Row.t) issue :
  analyze_query cls group = Some issue →
  issue_meta Metadata.query issue = Some group.1.
Proof.
  destruct group as [query rows]. unfold analyze_query.
  destruct (sort_by by_impressions_desc rows) as [|winner rest]; [done|].
  intros Hd. by apply detect_wrong_winner_labels in Hd as (_&_&_&_&_&Hq&_).
Qed.

Lemma analyzed_queries_sublist cls (groups : list (str * list Row.t)) :
  map (issue_meta Metadata.query) (omap (analyze_query cls) groups)
  `sublist_of` map (fun g => Some g.1) groups.
Proof.
  induction groups as [|g groups IH]; simpl; [constructor|].
  destruct (analyze_query cls g) as [issue|] eqn:Ha; simpl.
  - apply analyze_query_key in Ha as ->. by constructor.
  - by constructor.
Qed.

(** X26: wrong-winner detection reports at most one issue for a query:
    the queries of its issues are pairwise distinct, and there are no
    more issues than rows of traffic data. *)
Theorem run_phase5_one_issue_per_query (classifications : list PC)
    (gsc_data : list RawRow) (brand_name homepage_title : option str) :
  let issues :=
    run_phase5 classifications gsc_data brand_name homepage_title in
  NoDup (map (issue_meta Metadata.query) issues)
  ∧ length issues ≤ length gsc_data.
Proof.
  cbv zeta. unfold run_phase5. destruct gsc_data as [|row0 data].
  { split; [constructor | done]. }
  set (groups := query_groups classifications (row0 :: data) brand_name
                   homepage_title).
  split.
  - eapply sublist_NoDup; [|apply analyzed_queries_sublist].
    pose proof (query_groups_keys classifications (row0 :: data) brand_name
                  homepage_title) as Hk.
    fold groups in Hk.
    replace (map (fun g : str * list Row.t => Some g.1) groups)
      with (Some <$> map fst groups).
    + apply NoDup_fmap_2; [|done]. by intros ?? [= ->].
    + rewrite <- list_fmap_compose. done.
  - etrans; [apply omap_length_le|].
    apply (query_groups_length classifications (row0 :: data)).
Qed.

End GroupingFacts.

(** ** Phase 6: where the priority of a cluster comes from *)

Section PriorityFacts.
Context `{BracketCheck} `{Constants}.

(** X27: the priority score of a cluster is computed from its bucket, its
    severity and the sum of the impression totals that the issues of its
    key carry; an issue without such a total, as every wrong-winner issue
    is, adds nothing to the sum. *)
Theorem cluster_priority_from_totals (issues : list Issue.t) (c : Cluster.t) :
  c ∈ run_phase6 issues →
  let group := issues_of_key (Cluster.cluster_key c) issues in
  Cluster.priority_score c
  = _calculate_priority (Cluster.bucket c) (Cluster.severity c)
      (Phase4.sum_Z (omap (issue_meta Metadata.total_impressions) group)).
Proof.
  intros Hc. apply run_phase6_elem in Hc as (k & acc & Hin & ->).
  apply cluster_map_elem in Hin as [_ ->].
  cbv zeta. unfold build_cluster. cbn [Cluster.cluster_key Cluster.bucket
    Cluster.severity Cluster.priority_score].
  destruct (merged_gsc (issues_of_key k issues)) as (-> & _).
  by rewrite once_written_default.
Qed.

End PriorityFacts.

(** ** The pipeline driver: how a run ends *)

Section RunFacts.
Context `{BracketCheck} `{Constants} `{Django} `{Collaborators}.

Lemma cluster_object_spec c r :
  ∃ res, cluster_object c r = (res, r)
         ∧ match res with
           | Ok o => stored_as c o
           | Raised _ => True
           end.
Proof.
  unfold cluster_object, stored_as.
  destruct (Cluster.gsc_data c);
    unfold mbind, M_bind, mret, M_ret, lift;
    destruct (_ || _); simpl;
    try destruct (_suggest_canonical (Cluster.pages c) c) as [[page|]|msg];
    simpl; eexists; (split; [reflexivity|]); simpl; try done;
    repeat (split; [done|]); by rewrite map_map.
Qed.

Lemma mapM_cluster_object l r :
  ∃ res, mapM cluster_object l r = (res, r)
         ∧ match res with
           | Ok objs => Forall2 stored_as l objs
           | Raised _ => True
           end.
Proof.
  induction l as [|c l IH]; simpl.
  - eexists. split; [reflexivity|]. constructor.
  - unfold mbind, M_bind.
    destruct (cluster_object_spec c r) as (res & -> & Ho).
    destruct res as [o|msg]; [|by eexists].
    destruct IH as (res & -> & Hl).
    destruct res as [objs|msg]; [|by eexists].
    eexists. split; [reflexivity|]. by constructor.
Qed.

Lemma gsc_phases_spec site days cls static r :
  ∃ res, gsc_phases site days cls static r = (res, dated site true days r).
Proof.
  unfold gsc_phases, dated.
  destruct (_fetch_gsc_data site days) as [|row data]; [by eexists|].
  unfold mbind, M_bind, update, lift, mret, M_ret.
  destruct (run_phase4 _ _ _ _) as [gsc|msg]; [|by eexists].
  destruct (upgrade_static_issues _ _) as [static'|msg]; by eexists.
Qed.

(** The ways in which the [try] block ends. *)
Lemma try_block_inv phase1 site include_gsc days r0 :
  ∃ res r,
    try_block phase1 site include_gsc days r0 = (res, r)
    ∧ match phase1 with
      | Raised e => res = Raised e ∧ r = r0
      | Ok cls =>
          let r1 := AnalysisRun.set_total_pages (Z.of_nat (length cls)) r0 in
          match res with
          | Raised _ => cls ≠ [] ∧ counted (length cls) days r0 r
          | Ok _ =>
              (cls = []
               ∧ r = AnalysisRun.mark_failed "No pages found to analyze" r1)
              ∨ (cls ≠ []
                 ∧ ∃ issues objs,
                     Forall2 stored_as (run_phase6 issues) objs
                     ∧ r = AnalysisRun.mark_completed
                             (with_results (run_phase6 issues) objs
                                (dated site include_gsc days r1)))
          end
      end.
Proof.
  unfold try_block.
  unfold mbind at 1. unfold M_bind at 1. unfold lift at 1.
  destruct phase1 as [cls|e]; [|by do 2 eexists].
  cbv zeta.
  destruct cls as [|pc cls].
  { do 2 eexists. split; [reflexivity|]. by left. }
  set (n := length (pc :: cls)).
  unfold mbind at 1. unfold M_bind at 1. unfold update at 1.
  unfold mbind at 1. unfold M_bind at 1. unfold lift at 1.
  set (r1 := AnalysisRun.set_total_pages (Z.of_nat n) r0).
  assert (Hcounted : ∀ r, r = r1 ∨ r = dated site include_gsc days r1 →
                          counted n days r0 r).
  { intros r [-> | ->]; [by left|]. unfold dated, counted.
    destruct include_gsc; [|by left].
    destruct (_fetch_gsc_data site days); [by left | by right]. }
  destruct (run_phase3 _ _) as [static|msg].
  2:{ do 2 eexists. split; [reflexivity|]. split; [done|]. apply Hcounted.
      by left. }
  assert (Hg : ∃ res,
             (if include_gsc then gsc_phases site days (pc :: cls) static
              else M_ret _ (static, [], [])) r1
             = (res, dated site include_gsc days r1)).
  { destruct include_gsc; [apply gsc_phases_spec | by eexists]. }
  destruct Hg as (res & Hg).
  unfold mbind at 1. unfold M_bind at 1. unfold mret. rewrite Hg.
  destruct res as [[[s g] w]|msg].
  2:{ do 2 eexists. split; [reflexivity|]. split; [done|]. apply Hcounted.
      by right. }
  set (issues := s ++ g ++ w).
  unfold mbind at 1. unfold M_bind at 1. unfold lift at 1.
  destruct (run_phase7 (run_phase6 issues)) as [[]|msg].
  2:{ do 2 eexists. split; [reflexivity|]. split; [done|]. apply Hcounted.
      by right. }
  unfold mbind at 1. unfold M_bind at 1.
  destruct (mapM_cluster_object (run_phase6 issues)
              (dated site include_gsc days r1)) as (res & -> & Hobjs).
  destruct res as [objs|msg].
  2:{ do 2 eexists. split; [reflexivity|]. split; [done|]. apply Hcounted.
      by right. }
  do 2 eexists. split; [reflexivity|]. right. split; [done|].
  by exists issues, objs.
Qed.

Lemma finish_try_block phase1 site include_gsc days r0 :
  let o := finish (try_block phase1 site include_gsc days) r0 in
  match phase1 with
  | Raised e => o = Raises e (Some (AnalysisRun.mark_failed e r0))
  | Ok cls =>
      let r1 := AnalysisRun.set_total_pages (Z.of_nat (length cls)) r0 in
      (cls = []
       ∧ o = Returned (AnalysisRun.mark_failed "No pages found to analyze" r1))
      ∨ (cls ≠ []
         ∧ ∃ issues objs,
             Forall2 stored_as (run_phase6 issues) objs
             ∧ o = Returned (AnalysisRun.mark_completed
                               (with_results (run_phase6 issues) objs
                                  (dated site include_gsc days r1))))
      ∨ (cls ≠ []
         ∧ ∃ e r,
             counted (length cls) days r0 r
             ∧ o = Raises e (Some (AnalysisRun.mark_failed e r)))
  end.
Proof.
  cbv zeta. unfold finish.
  destruct (try_block_inv phase1 site include_gsc days r0)
    as (res & r & -> & Hres).
  destruct phase1 as [cls|e0]; [|by destruct Hres as [-> ->]].
  cbv zeta in Hres. destruct res as [[]|e].
  - destruct Hres as [[Hnil ->] | [Hne (issues & objs & Hobjs & ->)]].
    + by left.
    + right. left. split; [done|]. by exists issues, objs.
  - destruct Hres as [Hne Hc]. right. right. split; [done|]. by exists e, r.
Qed.

Lemma run_analysis_known site_id include_gsc days site :
  lookup_site site_id = Some site →
  run_analysis site_id include_gsc days
  = finish
      (try_block (run_phase1 page_objects (Site.id site)) site include_gsc days)
      (AnalysisRun.create (Site.id site) "running" include_gsc).
Proof. intros Hs. unfold run_analysis. by rewrite Hs. Qed.

(** X28: a run never stays in the state running, and on the pages of
    the repository it never completes.  For an unknown site
    [run_analysis] raises and creates no run.  For a known site phase 1
    raises [FieldError]: the run is left failed with the text of that
    error, without a page count, dates or clusters, and the error is
    raised again.  Whatever phase 1 returns or raises, the [try] block
    ends in one of three ways: without classifications the run is
    returned as failed with the message that no pages were found; with
    classifications it is returned as completed, without error message;
    or an exception leaves it failed with the text of the exception and
    without clusters.  The run records the number of classifications. *)
Theorem run_analysis_final_status (site_id : Z) (include_gsc : bool)
    (gsc_days : Z) :
  match lookup_site site_id with
  | None =>
      run_analysis site_id include_gsc gsc_days
      = Raises ("Site with ID " ++ str_of_Z site_id ++ " not found") None
  | Some site =>
      ∃ run,
        run_analysis site_id include_gsc gsc_days
        = Raises (field_error "is_noindex") (Some run)
        ∧ AnalysisRun.site run = Site.id site
        ∧ AnalysisRun.status run = "failed"
        ∧ AnalysisRun.error_message run = field_error "is_noindex"
        ∧ AnalysisRun.total_pages_analyzed run = 0%Z
        ∧ AnalysisRun.gsc_date_start run = None
        ∧ AnalysisRun.clusters run = []
  end
  ∧ ∀ phase1 site,
      match finish (try_block phase1 site include_gsc gsc_days)
              (AnalysisRun.create (Site.id site) "running" include_gsc) with
      | Returned run =>
          ∃ cls,
            phase1 = Ok cls
            ∧ AnalysisRun.total_pages_analyzed run = Z.of_nat (length cls)
            ∧ ((cls = [] ∧ AnalysisRun.status run = "failed"
                ∧ AnalysisRun.error_message run = "No pages found to analyze"
                ∧ AnalysisRun.clusters run = [])
               ∨ (cls ≠ [] ∧ AnalysisRun.status run = "completed"
                  ∧ AnalysisRun.error_message run = []))
      | Raises msg (Some run) =>
          AnalysisRun.status run = "failed"
          ∧ AnalysisRun.error_message run = msg
          ∧ AnalysisRun.clusters run = []
          ∧ ((phase1 = Raised msg
              ∧ AnalysisRun.total_pages_analyzed run = 0%Z)
             ∨ ∃ cls, phase1 = Ok cls ∧ cls ≠ []
                      ∧ AnalysisRun.total_pages_analyzed run
                        = Z.of_nat (length cls))
      | Raises _ None => False
      end.
Proof.
  split.
  - destruct (lookup_site site_id) as [site|] eqn:Hs;
      [|unfold run_analysis; by rewrite Hs].
    rewrite (run_analysis_known _ _ _ _ Hs).
    eexists. split; [reflexivity|]. by repeat split.
  - intros phase1 site.
    pose proof (finish_try_block phase1 site include_gsc gsc_days
                  (AnalysisRun.create (Site.id site) "running" include_gsc))
      as Hinv.
    cbv zeta in Hinv. destruct phase1 as [cls|e].
    + destruct Hinv as [[Hnil ->] | [[Hne (issues & objs & _ & ->)]
                                    | [Hne (e & r & Hc & ->)]]].
      * exists cls. rewrite Hnil. split; [done|]. split; [done|]. left.
        by repeat split.
      * exists cls. split; [done|]. unfold dated.
        destruct include_gsc; [destruct (_fetch_gsc_data site gsc_days)|];
          (split; [done|]); right; by repeat split.
      * destruct Hc as [-> | ->]; repeat (split; [done|]); right;
          by exists cls.
    + rewrite Hinv. repeat (split; [done|]). by left.
Qed.

Lemma cluster_label_pair issues c :
  c ∈ run_phase6 issues →
  (Cluster.bucket c, Cluster.badge c)
  ∈ [ (Some ("SEARCH_CONFLICT" : str), Some ("CONFIRMED" : str));
      (Some ("WRONG_WINNER" : str), Some ("WRONG_WINNER" : str));
      (Some ("SITE_DUPLICATION" : str), Some ("POTENTIAL" : str)) ].
Proof.
  intros Hc. apply run_phase6_elem in Hc as (k & acc & Hin & ->).
  apply cluster_map_elem in Hin as [Hne ->].
  destruct (issues_of_key k issues) as [|first rest]; [done|].
  destruct (merged_labels first rest) as (_ & Hb & Hg & _).
  unfold build_cluster. cbn [Cluster.bucket Cluster.badge]. rewrite Hb, Hg.
  pose proof (bucket_badge_pairs first) as Hp.
  apply elem_of_cons in Hp as [Hp | Hp]; [injection Hp as -> ->; left|].
  apply elem_of_cons in Hp as [Hp | Hp];
    [injection Hp as -> ->; right; left|].
  apply list_elem_of_singleton in Hp. injection Hp as -> ->.
  right. right. left.
Qed.

Lemma count_where_cons f c l :
  count_where f (c :: l)
  = ((if f c then 1 else 0) + count_where f l)%Z.
Proof. unfold count_where. simpl. destruct (f c); simpl; lia. Qed.

Lemma labelled_counts (l : list Cluster.t) :
  (∀ c, c ∈ l →
        (Cluster.bucket c, Cluster.badge c)
        ∈ [ (Some ("SEARCH_CONFLICT" : str), Some ("CONFIRMED" : str));
            (Some ("WRONG_WINNER" : str), Some ("WRONG_WINNER" : str));
            (Some ("SITE_DUPLICATION" : str), Some ("POTENTIAL" : str)) ]) →
  (count_where (has_bucket "SEARCH_CONFLICT") l
   + count_where (has_bucket "SITE_DUPLICATION") l
   + count_where (has_bucket "WRONG_WINNER") l = Z.of_nat (length l))%Z
  ∧ count_where (has_bucket "SEARCH_CONFLICT") l
    = count_where (has_badge "CONFIRMED") l
  ∧ count_where (has_bucket "SITE_DUPLICATION") l
    = count_where (has_badge "POTENTIAL") l
  ∧ count_where (has_bucket "WRONG_WINNER") l
    = count_where (has_badge "WRONG_WINNER") l.
Proof.
  induction l as [|c l IH]; intros Hl; [done|].
  destruct IH as (Hsum & Hsc & Hsd & Hww).
  { intros c' Hc'. apply Hl. by right. }
  rewrite !count_where_cons.
  assert (Hbucket : ∀ b, has_bucket b c = bool_decide (Cluster.bucket c = Some b))
    by done.
  assert (Hbadge : ∀ b, has_badge b c = bool_decide (Cluster.badge c = Some b))
    by done.
  rewrite !Hbucket, !Hbadge. clear Hbucket Hbadge.
  assert (Hc : c ∈ c :: l) by left. apply Hl in Hc.
  repeat (apply elem_of_cons in Hc as [Hc | Hc];
          [injection Hc as -> ->;
           repeat first [rewrite bool_decide_true by done
                        | rewrite bool_decide_false by done];
           cbn [length]; lia|]).
  by apply elem_of_nil in Hc.
Qed.

Lemma finish_counts phase1 site include_gsc days :
  match run_of (finish (try_block phase1 site include_gsc days)
                  (AnalysisRun.create (Site.id site) "running" include_gsc)) with
  | Some run => counts_agree run
  | None => True
  end.
Proof.
  pose proof (finish_try_block phase1 site include_gsc days
                (AnalysisRun.create (Site.id site) "running" include_gsc))
    as Hinv.
  cbv zeta in Hinv. unfold counts_agree.
  destruct phase1 as [cls|e]; [|by rewrite Hinv].
  destruct Hinv as [[Hnil ->] | [[Hne (issues & objs & Hobjs & ->)]
                                | [Hne (e & r & Hc & ->)]]].
  - by repeat split.
  - destruct (labelled_counts (run_phase6 issues)) as (Hsum & Hsc & Hsd & Hww).
    { intros c. apply cluster_label_pair. }
    apply Forall2_length in Hobjs.
    unfold with_results. cbn. rewrite <- Hobjs. by repeat split.
  - destruct Hc as [-> | ->]; by repeat split.
Qed.

(** X29: in every run that [run_analysis] leaves behind, and in every
    run with which the [try] block ends, whatever phase 1 returns or
    raises, the counts agree: the number of clusters found is the number
    of stored clusters; each cluster is counted in exactly one of the
    three buckets, so that the three bucket counts add up to that number;
    and the count of a bucket equals the count of its badge:
    SEARCH_CONFLICT and CONFIRMED, SITE_DUPLICATION and POTENTIAL,
    WRONG_WINNER and WRONG_WINNER. *)
Theorem run_analysis_counts (site_id : Z) (include_gsc : bool)
    (gsc_days : Z) :
  match run_of (run_analysis site_id include_gsc gsc_days) with
  | Some run => counts_agree run
  | None => True
  end
  ∧ ∀ phase1 site,
      match run_of (finish (try_block phase1 site include_gsc gsc_days)
                      (AnalysisRun.create (Site.id site) "running"
                         include_gsc)) with
      | Some run => counts_agree run
      | None => True
      end.
Proof.
  split; [|intros phase1 site; apply finish_counts].
  destruct (lookup_site site_id) as [site|] eqn:Hs.
  - rewrite (run_analysis_known _ _ _ _ Hs). apply finish_counts.
  - unfold run_analysis. by rewrite Hs.
Qed.

Lemma stored_keys l objs :
  Forall2 stored_as l objs →
  map ClusterResult.cluster_key objs = map Cluster.cluster_key l.
Proof.
  induction 1 as [|c o l objs Hco _ IH]; simpl; [done|].
  destruct Hco as (-> & _). by rewrite IH.
Qed.

Lemma stored_elem l objs o :
  Forall2 stored_as l objs → o ∈ objs → ∃ c, c ∈ l ∧ stored_as c o.
Proof.
  induction 1 as [|c o' l objs Hco _ IH]; intros Ho.
  - by apply elem_of_nil in Ho.
  - apply elem_of_cons in Ho as [-> | Ho].
    + exists c. split; [left | done].
    + destruct (IH Ho) as (c' & Hc' & Hs). exists c'. split; [by right | done].
Qed.

Lemma stored_clusters_facts issues objs :
  Forall2 stored_as (run_phase6 issues) objs →
  NoDup (map ClusterResult.cluster_key objs)
  ∧ ∀ o, o ∈ objs →
      ClusterResult.page_count o ≤ MAX_CLUSTER_SIZE
      ∧ length (ClusterResult.pages_json o) = ClusterResult.page_count o
      ∧ (ClusterResult.bucket o, ClusterResult.badge o)
        ∈ [ (Some ("SEARCH_CONFLICT" : str), Some ("CONFIRMED" : str));
            (Some ("WRONG_WINNER" : str), Some ("WRONG_WINNER" : str));
            (Some ("SITE_DUPLICATION" : str), Some ("POTENTIAL" : str)) ].
Proof.
  intros Hobjs. split.
  - rewrite (stored_keys _ _ Hobjs), run_phase6_keys_perm.
    apply cluster_map_keys.
  - intros o Ho. destruct (stored_elem _ _ _ Hobjs Ho) as (c & Hc & Hs).
    destruct Hs as (_ & Hb & Hg & _ & Hn & Hp).
    rewrite Hb, Hg, Hn.
    destruct (run_phase6_built _ _ Hc) as (key & acc & ->).
    destruct (build_cluster_cap key acc) as [Hcap Hlen].
    split; [done|]. split.
    + rewrite <- Hlen, <- (List.length_map PageClassification.page_id), <- Hp.
      by rewrite List.length_map.
    + by apply (cluster_label_pair issues).
Qed.

Lemma finish_stored phase1 site include_gsc days :
  match run_of (finish (try_block phase1 site include_gsc days)
                  (AnalysisRun.create (Site.id site) "running" include_gsc)) with
  | Some run =>
      ∃ issues, Forall2 stored_as (run_phase6 issues) (AnalysisRun.clusters run)
  | None => True
  end.
Proof.
  pose proof (finish_try_block phase1 site include_gsc days
                (AnalysisRun.create (Site.id site) "running" include_gsc))
    as Hinv.
  cbv zeta in Hinv.
  destruct phase1 as [cls|e]; [|rewrite Hinv; exists []; constructor].
  destruct Hinv as [[Hnil ->] | [[Hne (issues & objs & Hobjs & ->)]
                                | [Hne (e & r & Hc & ->)]]].
  - exists []. constructor.
  - by exists issues.
  - destruct Hc as [-> | ->]; exists []; constructor.
Qed.

(** X30: the clusters that a run stores are the clusters that phase 6
    makes of a list of issues, one stored object per cluster and in the
    same order, each with the key, the bucket, the badge, the score, the
    page count and the page ids of its cluster.  So the stored keys are
    pairwise distinct, every stored page count is the number of stored
    pages and at most [MAX_CLUSTER_SIZE], and bucket and badge go together
    as in phase 6.  This holds of the run that [run_analysis] leaves
    behind and of every run with which the [try] block ends, whatever
    phase 1 returns or raises. *)
Theorem stored_clusters_follow_phase6 (site_id : Z) (include_gsc : bool)
    (gsc_days : Z) :
  match run_of (run_analysis site_id include_gsc gsc_days) with
  | Some run =>
      ∃ issues,
        Forall2 stored_as (run_phase6 issues) (AnalysisRun.clusters run)
        ∧ NoDup (map ClusterResult.cluster_key (AnalysisRun.clusters run))
        ∧ ∀ c, c ∈ AnalysisRun.clusters run →
            ClusterResult.page_count c ≤ MAX_CLUSTER_SIZE
            ∧ length (ClusterResult.pages_json c)
              = ClusterResult.page_count c
            ∧ (ClusterResult.bucket c, ClusterResult.badge c)
              ∈ [ (Some ("SEARCH_CONFLICT" : str), Some ("CONFIRMED" : str));
                  (Some ("WRONG_WINNER" : str), Some ("WRONG_WINNER" : str));
                  (Some ("SITE_DUPLICATION" : str),
                   Some ("POTENTIAL" : str)) ]
  | None => True
  end
  ∧ ∀ phase1 site,
      match run_of (finish (try_block phase1 site include_gsc gsc_days)
                      (AnalysisRun.create (Site.id site) "running"
                         include_gsc)) with
      | Some run =>
          ∃ issues,
            Forall2 stored_as (run_phase6 issues) (AnalysisRun.clusters run)
            ∧ NoDup (map ClusterResult.cluster_key (AnalysisRun.clusters run))
            ∧ ∀ c, c ∈ AnalysisRun.clusters run →
                ClusterResult.page_count c ≤ MAX_CLUSTER_SIZE
                ∧ length (ClusterResult.pages_json c)
                  = ClusterResult.page_count c
                ∧ (ClusterResult.bucket c, ClusterResult.badge c)
                  ∈ [ (Some ("SEARCH_CONFLICT" : str), Some ("CONFIRMED" : str));
                      (Some ("WRONG_WINNER" : str), Some ("WRONG_WINNER" : str));
                      (Some ("SITE_DUPLICATION" : str),
                       Some ("POTENTIAL" : str)) ]
      | None => True
      end.
Proof.
  assert (Hfin : ∀ phase1 site,
            match run_of (finish (try_block phase1 site include_gsc gsc_days)
                            (AnalysisRun.create (Site.id site) "running"
                               include_gsc)) with
            | Some run =>
                ∃ issues,
                  Forall2 stored_as (run_phase6 issues) (AnalysisRun.clusters run)
                  ∧ NoDup (map ClusterResult.cluster_key (AnalysisRun.clusters run))
                  ∧ ∀ c, c ∈ AnalysisRun.clusters run →
                      ClusterResult.page_count c ≤ MAX_CLUSTER_SIZE
                      ∧ length (ClusterResult.pages_json c)
                        = ClusterResult.page_count c
                      ∧ (ClusterResult.bucket c, ClusterResult.badge c)
                        ∈ [ (Some ("SEARCH_CONFLICT" : str), Some ("CONFIRMED" : str));
                            (Some ("WRONG_WINNER" : str), Some ("WRONG_WINNER" : str));
                            (Some ("SITE_DUPLICATION" : str),
                             Some ("POTENTIAL" : str)) ]
            | None => True
            end).
  { intros phase1 site.
    pose proof (finish_stored phase1 site include_gsc gsc_days) as Hst.
    destruct (run_of _) as [run|]; [|done].
    destruct Hst as [issues Hobjs]. exists issues. split; [done|].
    by apply (stored_clusters_facts issues). }
  split; [|apply Hfin].
  destruct (lookup_site site_id) as [site|] eqn:Hs.
  - rewrite (run_analysis_known _ _ _ _ Hs). apply Hfin.
  - unfold run_analysis. by rewrite Hs.
Qed.

End RunFacts.

(** ** Worked examples of the later properties *)

Section LaterExamples.
#[local] Existing Instance any_bracketed_host.
#[local] Existing Instance spec_constants.

Lemma cluster_key_determines_type_witness :
  Issue.conflict_type issue_plain = Issue.conflict_type issue_validated
  ∧ _get_action_code issue_plain = _get_action_code issue_validated
  ∧ startswith (Issue.conflict_type issue_plain ++ ":")
      (_generate_cluster_key issue_validated) = true.
Proof.
  apply (cluster_key_determines_type issue_plain issue_validated);
    vm_compute; reflexivity.
Defined.

Lemma wrong_winner_issue_labels_witness :
  Issue.conflict_type shop_issue ∈ wrong_winner_types
  ∧ Issue.gsc_validated shop_issue = false
  ∧ _get_bucket shop_issue = "WRONG_WINNER"
  ∧ _get_badge shop_issue = "WRONG_WINNER"
  ∧ (∃ query rows winner,
       (query, rows)
         ∈ query_groups shop_classifications shop_traffic
             (Some ("Example" : str)) (Some ("Example | Dance supplies" : str))
       ∧ head (sort_by by_impressions_desc rows) = Some winner
       ∧ winner ∈ rows
       ∧ (∀ r, r ∈ rows → (Row.impressions r ≤ Row.impressions winner)%Z)
       ∧ _generate_cluster_key shop_issue
         = fmt_key (Issue.conflict_type shop_issue) query
       ∧ issue_meta Metadata.query shop_issue = Some query
       ∧ issue_meta Metadata.impressions shop_issue
         = Some (Row.impressions winner))
  ∧ issue_meta Metadata.total_impressions shop_issue = None
  ∧ (Issue.severity shop_issue = Some ("HIGH" : str)
     ↔ Issue.conflict_type shop_issue = "GEOGRAPHIC_MISMATCH").
Proof.
  apply (wrong_winner_issue_labels shop_classifications shop_traffic
           (Some ("Example" : str)) (Some ("Example | Dance supplies" : str))
           shop_issue).
  vm_compute. left.
Defined.

Lemma wrong_winner_page_types_witness :
  ∃ query rows winner others,
    issue_meta Metadata.query shop_issue = Some query
    ∧ (query, rows)
      ∈ query_groups shop_classifications shop_traffic
          (Some ("Example" : str)) (Some ("Example | Dance supplies" : str))
    ∧ head (sort_by by_impressions_desc rows) = Some winner
    ∧ (∀ r, r ∈ rows → (Row.impressions r ≤ Row.impressions winner)%Z)
    ∧ Issue.pages shop_issue = Row.page_class winner :: others
    ∧ others ≠ []
    ∧ (∀ p, p ∈ others → p ∈ shop_classifications)
    ∧ (Issue.conflict_type shop_issue = "INTENT_MISMATCH" →
       (classify_query_intent query).1 = "transactional"
       ∧ PageClassification.classified_type (Row.page_class winner) = "blog"
       ∧ ∀ p, p ∈ others →
              _has_query_overlap query p = true
              ∧ PageClassification.classified_type p
                ∈ [ "category_woo" : str; "category_shop" : str;
                    "category_custom" : str; "service_hub" : str;
                    "service_spoke" : str; "product" : str ])
    ∧ (Issue.conflict_type shop_issue = "PAGE_TYPE_MISMATCH" →
       is_plural_query query = true
       ∧ PageClassification.classified_type (Row.page_class winner)
         = "product"
       ∧ ∀ p, p ∈ others →
              _has_query_overlap query p = true
              ∧ PageClassification.classified_type p
                ∈ [ "category_woo" : str; "category_shop" : str;
                    "category_custom" : str ])
    ∧ (Issue.conflict_type shop_issue = "HOMEPAGE_HOARDING" →
       PageClassification.classified_type (Row.page_class winner)
       = "homepage"
       ∧ ∀ p, p ∈ others →
              _has_query_overlap query p = true
              ∧ PageClassification.classified_type p
                ∈ [ "service_hub" : str; "service_spoke" : str;
                    "product" : str; "category_woo" : str;
                    "category_shop" : str ])
    ∧ (Issue.conflict_type shop_issue = "GEOGRAPHIC_MISMATCH" →
       (classify_query_intent query).2 = true
       ∧ PageClassification.classified_type (Row.page_class winner)
         = "location"
       ∧ ∀ p, p ∈ others →
              PageClassification.classified_type p = "location"
              ∧ normalize_geo (PageClassification.geo_node p)
                ≠ normalize_geo
                    (PageClassification.geo_node (Row.page_class winner))).
Proof.
  apply (wrong_winner_page_types shop_classifications shop_traffic
           (Some ("Example" : str)) (Some ("Example | Dance supplies" : str))
           shop_issue).
  vm_compute. left.
Defined.

Lemma query_groups_rows_witness :
  shop_rows ≠ []
  ∧ is_branded_query "dance shoes" (Some ("Example" : str))
      (Some ("Example | Dance supplies" : str)) = false
  ∧ ∀ r, r ∈ shop_rows →
      Row.query r = "dance shoes"
      ∧ (MIN_IMPRESSIONS_THRESHOLD <= Row.impressions r)%Z
      ∧ Row.normalized_url r = normalize_full_url (Row.page_url r)
      ∧ Row.page_class r ∈ shop_classifications
      ∧ PageClassification.normalized_url (Row.page_class r)
        = Row.normalized_url r
      ∧ ∃ raw, raw ∈ shop_traffic
          ∧ ("dance shoes" : str) = lower (strip (raw_query raw))
          ∧ Row.page_url r = strip (raw_page raw)
          ∧ Row.impressions r = raw_impressions raw
          ∧ Row.clicks r = raw_clicks raw.
Proof.
  apply (query_groups_rows shop_classifications shop_traffic
           (Some ("Example" : str)) (Some ("Example | Dance supplies" : str))
           "dance shoes" shop_rows).
  vm_compute. left.
Defined.

Lemma cluster_priority_from_totals_witness :
  let group :=
    issues_of_key (Cluster.cluster_key brooklyn_cluster) mixed_issues in
  Cluster.priority_score brooklyn_cluster
  = _calculate_priority (Cluster.bucket brooklyn_cluster)
      (Cluster.severity brooklyn_cluster)
      (Phase4.sum_Z (omap (issue_meta Metadata.total_impressions) group)).
Proof.
  apply (cluster_priority_from_totals mixed_issues brooklyn_cluster).
  vm_compute. left.
Defined.

#[local] Existing Instance field_error_text.
#[local] Existing Instance shop_source.

(** On the pages of the shop [run_analysis] raises the error of phase 1;
    with the classifications of those pages the [try] block completes and
    stores three clusters. *)
Example shop_run :
  run_analysis 1 true 90
  = Raises "Cannot resolve keyword 'is_noindex' into field."
      (Some (AnalysisRun.mark_failed
               "Cannot resolve keyword 'is_noindex' into field."
               (AnalysisRun.create 1 "running" true)))
  ∧ run_counts
      (finish (try_block (Ok shop_classifications) example_site true 90)
         (AnalysisRun.create 1 "running" true))
    = Some ("completed" : str, Some 19910%Z,
            [ "TAXONOMY_CLASH:p" : str; "CONTEXT_DUPLICATE:catering" : str;
              "PAGE_TYPE_MISMATCH:dance shoes" : str ],
            [3; 0; 2; 1]%Z)
  ∧ run_analysis 2 true 90 = Raises "Site with ID 2 not found" None.
Proof. repeat split; vm_compute; reflexivity. Qed.

End LaterExamples.
